(** * Transaction aggregate of bitcoincashjs: a shallow embedding

    The development follows [src/transaction/transaction.js].  A transaction
    is a mutable JavaScript object; its methods are embedded as computations
    of a state-and-exception monad over the record [Transaction].

    Conventions of the embedding.
    - JavaScript numbers that hold amounts, sizes and indices are integers
      of [Z]: the code manipulates satoshi counts and byte counts, for which
      double arithmetic is exact in the safe-integer range.
    - Objects that the code compares by reference ([Output], [Input]) carry
      their identity in a field ([oid], [iid]); [new] draws a fresh identity
      from the allocation mark [heapNext].
    - A thrown exception ends the call ([Throw]); it undoes nothing of
      what the statements in front of it did to the object ([after]).
    - The collaborators that are not part of the transaction module (input
      variants, script recogniser, byte writers, hashes) are the fields of
      the class [Collaborators]; those that only the lock-time, ordering,
      funding and decoding methods use are the fields of
      [MoreCollaborators]. *)

From Stdlib Require Import ZArith String Lia.
From Stdlib.Strings Require Import Byte.
From stdpp Require Import base option list gmap strings pretty.

Local Open Scope Z_scope.

(** ** JavaScript preliminaries *)

(** Truthiness, type by type, for the values the module tests with [if],
    [!], [&&] and [||]. *)
Class Truthy (A : Type) := truthy : A -> bool.

#[global] Instance truthy_bool : Truthy bool := fun b => b.
(** A number is falsy exactly when it is zero. *)
#[global] Instance truthy_number : Truthy Z := fun n => negb (n =? 0).
(** A string is falsy exactly when it is empty. *)
#[global] Instance truthy_string : Truthy string :=
  fun s => match s with EmptyString => false | _ => true end.
(** An array is an object: always truthy, whatever it holds. *)
#[global] Instance truthy_array {A} : Truthy (list A) := fun _ => true.
(** [undefined] is falsy; a present value has the truthiness of its type. *)
#[global] Instance truthy_optional {A} `{Truthy A} : Truthy (option A) :=
  fun o => match o with Some a => truthy a | None => false end.

(** [array[index]]: [undefined] outside of the array. *)
Definition js_index {A} (l : list A) (i : Z) : option A :=
  if i <? 0 then None else l !! Z.to_nat i.

(** [Math.ceil(a / b)] for integers [a] and a positive integer [b]. *)
Definition Math_ceil_div (a b : Z) : Z := - ((- a) / b).

(** [a || b] on optional numbers: the first operand when truthy. *)
Definition js_or_default (a : option Z) (b : Z) : Z :=
  match a with
  | Some n => if truthy n then n else b
  | None => b
  end.

(** ** Errors and results *)

Inductive Error :=
| InvalidArgument
| InvalidArgumentType
| InvalidState
| TypeError
| AbstractMethodInvoked
| NeedMoreInfo
| MissingPreviousOutput
| UnsupportedScript
| InvalidIndex (index : Z) (length : Z)
| UnableToVerifySignature
| InvalidSatoshis
| InvalidOutputAmountSum
| FeeError_Different (unspent fee : Z)
| FeeError_TooLarge (maximumFee unspent : Z)
| FeeError_TooSmall (minimumFee unspent : Z)
| ChangeAddressMissing
| DustOutputs
| MissingSignatures
| RangeError.

Inductive Result (A : Type) :=
| Ok (a : A)
| Throw (e : Error).
Arguments Ok {A} a.
Arguments Throw {A} e.

(** Sequencing of results: an exception ends the evaluation. *)
Definition Result_bind {A B} (r : Result A) (k : A -> Result B) : Result B :=
  match r with
  | Ok a => k a
  | Throw e => Throw e
  end.

Definition Result_map {A B} (f : A -> B) (r : Result A) : Result B :=
  Result_bind r (fun a => Ok (f a)).

(** [$.checkState(condition, message)] and [$.checkArgument]. *)
Definition checkState {A} `{Truthy A} (condition : A) : Result unit :=
  if truthy condition then Ok tt else Throw InvalidState.

Definition checkArgument {A} `{Truthy A} (condition : A) : Result unit :=
  if truthy condition then Ok tt else Throw InvalidArgument.

(** ** Data model *)

Definition Buffer := list byte.

#[global] Instance byte_eq_decision : EqDecision byte := Byte.byte_eq_dec.

(** A script is kept as its byte encoding ([script.toBuffer()]). *)
Definition Script := Buffer.

Record Output := mkOutput {
  oid : nat;             (* identity of the object *)
  script : Script;
  satoshis : Z;          (* _satoshis *)
  _satoshisBN : Z        (* the exact big-integer copy of the amount *)
}.

Inductive InputKind :=
| GenericInput
| PublicKeyHashInput
| PublicKeyInput
| MultiSigScriptHashInput
| MultiSigInput.

Record TransactionSignature := mkTransactionSignature {
  inputIndex : Z;
  sigtype : Z;
  publicKey : Buffer;
  signature : Buffer
}.

Record Input := mkInput {
  iid : nat;             (* identity of the object *)
  kind : InputKind;      (* which variant's methods the object has *)
  prevTxId : Buffer;
  outputIndex : Z;
  sequenceNumber : Z;
  _scriptBuffer : Buffer;
  output : option Output;
  signatures : list TransactionSignature
}.

Record Transaction := mkTransaction {
  inputs : list Input;
  outputs : list Output;
  _inputAmount : option Z;
  _outputAmount : option Z;
  version : Z;
  nLockTime : Z;
  _changeScript : option Script;
  _changeIndex : option Z;
  _fee : option Z;
  _feePerKb : option Z;
  heapNext : nat         (* allocation mark: identities below it are in use *)
}.

(** A script object is truthy, so [!this._changeScript] tests presence. *)
#[global] Instance truthy_Script : Truthy Script := fun _ => true.
#[global] Instance truthy_Output : Truthy Output := fun _ => true.

Definition set_inputs (v : list Input) (t : Transaction) : Transaction :=
  mkTransaction v (outputs t) (_inputAmount t) (_outputAmount t) (version t)
    (nLockTime t) (_changeScript t) (_changeIndex t) (_fee t) (_feePerKb t)
    (heapNext t).
Definition set_outputs (v : list Output) (t : Transaction) : Transaction :=
  mkTransaction (inputs t) v (_inputAmount t) (_outputAmount t) (version t)
    (nLockTime t) (_changeScript t) (_changeIndex t) (_fee t) (_feePerKb t)
    (heapNext t).
Definition set_inputAmount (v : option Z) (t : Transaction) : Transaction :=
  mkTransaction (inputs t) (outputs t) v (_outputAmount t) (version t)
    (nLockTime t) (_changeScript t) (_changeIndex t) (_fee t) (_feePerKb t)
    (heapNext t).
Definition set_outputAmount (v : option Z) (t : Transaction) : Transaction :=
  mkTransaction (inputs t) (outputs t) (_inputAmount t) v (version t)
    (nLockTime t) (_changeScript t) (_changeIndex t) (_fee t) (_feePerKb t)
    (heapNext t).
Definition set_version (v : Z) (t : Transaction) : Transaction :=
  mkTransaction (inputs t) (outputs t) (_inputAmount t) (_outputAmount t) v
    (nLockTime t) (_changeScript t) (_changeIndex t) (_fee t) (_feePerKb t)
    (heapNext t).
Definition set_nLockTime (v : Z) (t : Transaction) : Transaction :=
  mkTransaction (inputs t) (outputs t) (_inputAmount t) (_outputAmount t)
    (version t) v (_changeScript t) (_changeIndex t) (_fee t) (_feePerKb t)
    (heapNext t).
Definition set_changeScript (v : option Script) (t : Transaction) : Transaction :=
  mkTransaction (inputs t) (outputs t) (_inputAmount t) (_outputAmount t)
    (version t) (nLockTime t) v (_changeIndex t) (_fee t) (_feePerKb t)
    (heapNext t).
Definition set_changeIndex (v : option Z) (t : Transaction) : Transaction :=
  mkTransaction (inputs t) (outputs t) (_inputAmount t) (_outputAmount t)
    (version t) (nLockTime t) (_changeScript t) v (_fee t) (_feePerKb t)
    (heapNext t).
Definition set_fee (v : option Z) (t : Transaction) : Transaction :=
  mkTransaction (inputs t) (outputs t) (_inputAmount t) (_outputAmount t)
    (version t) (nLockTime t) (_changeScript t) (_changeIndex t) v (_feePerKb t)
    (heapNext t).
Definition set_feePerKb (v : option Z) (t : Transaction) : Transaction :=
  mkTransaction (inputs t) (outputs t) (_inputAmount t) (_outputAmount t)
    (version t) (nLockTime t) (_changeScript t) (_changeIndex t) (_fee t) v
    (heapNext t).
Definition set_heapNext (v : nat) (t : Transaction) : Transaction :=
  mkTransaction (inputs t) (outputs t) (_inputAmount t) (_outputAmount t)
    (version t) (nLockTime t) (_changeScript t) (_changeIndex t) (_fee t)
    (_feePerKb t) v.

Definition set_input_output (o : option Output) (i : Input) : Input :=
  mkInput (iid i) (kind i) (prevTxId i) (outputIndex i) (sequenceNumber i)
    (_scriptBuffer i) o (signatures i).
Definition set_input_signatures (s : list TransactionSignature) (i : Input) : Input :=
  mkInput (iid i) (kind i) (prevTxId i) (outputIndex i) (sequenceNumber i)
    (_scriptBuffer i) (output i) s.
Definition set_input_iid (n : nat) (i : Input) : Input :=
  mkInput n (kind i) (prevTxId i) (outputIndex i) (sequenceNumber i)
    (_scriptBuffer i) (output i) (signatures i).

(** ** The state-and-exception monad of the methods

    A method runs on the object it is called on.  [returns m t] is what the
    call gives: the value together with the object afterwards when it
    returns, the exception when it raises.  [after m t] is the object
    after the call in both cases: an exception undoes nothing of what the
    statements before it did to the object. *)

Record M (A : Type) : Type := mkM {
  returns : Transaction -> Result (A * Transaction);
  after : Transaction -> Transaction
}.
Arguments mkM {A} returns after.
Arguments returns {A} m t.
Arguments after {A} m t.

(** A method applied to an object stands for what the call gives. *)
Definition run {A} (m : M A) (t : Transaction) : Result (A * Transaction) :=
  returns m t.
Coercion run : M >-> Funclass.
#[global] Arguments run : simpl never.

Definition ret {A} (a : A) : M A := mkM (fun t => Ok (a, t)) (fun t => t).
Definition bind {A B} (m : M A) (k : A -> M B) : M B :=
  mkM (fun t => match m t with
                | Ok (a, t') => k a t'
                | Throw e => Throw e
                end)
      (fun t => match m t with
                | Ok (a, t') => after (k a) t'
                | Throw _ => after m t
                end).
Definition throw {A} (e : Error) : M A := mkM (fun _ => Throw e) (fun t => t).
Definition gets {A} (f : Transaction -> A) : M A :=
  mkM (fun t => Ok (f t, t)) (fun t => t).
Definition modify (f : Transaction -> Transaction) : M unit :=
  mkM (fun t => Ok (tt, f t)) f.
Definition lift {A} (r : Result A) : M A :=
  mkM (fun t => match r with Ok a => Ok (a, t) | Throw e => Throw e end)
      (fun t => t).

Notation "x <- m ;; k" := (bind m (fun x => k))
  (at level 100, m at next level, right associativity).
Notation "m ;;; k" := (bind m (fun _ => k))
  (at level 100, right associativity).

(** [array.forEach(f)] with an effectful body. *)
Fixpoint forEach {A} (f : A -> M unit) (l : list A) : M unit :=
  match l with
  | [] => ret tt
  | x :: l' => f x ;;; forEach f l'
  end.

(** The value and the final state of a run that returns. *)
Definition eval {A} (m : M A) (t : Transaction) : Result A :=
  match m t with Ok (a, _) => Ok a | Throw e => Throw e end.
Definition exec {A} (m : M A) (t : Transaction) : Result Transaction :=
  match m t with Ok (_, t') => Ok t' | Throw e => Throw e end.

(** Unfolding of the monad operations, for the proofs: what the call gives
    is computed, the methods it is made of stay folded. *)
Ltac unfold_monad :=
  unfold bind, ret, gets, modify, lift, throw, eval, exec, run in *;
  cbn [returns] in *;
  change (@returns) with (@run) in *.

(** ** Structured snapshots ([toObject] / [fromObject]) *)

Definition Address := string.
Definition PrivateKey := Buffer.

Record OutputObject := mkOutputObject {
  oo_satoshis : Z;
  oo_script : string
}.

Record InputObject := mkInputObject {
  io_prevTxId : string;
  io_outputIndex : Z;
  io_sequenceNumber : Z;
  io_script : string;
  io_output : option OutputObject;
  io_publicKeys : option (list Buffer);
  io_threshold : option Z;
  io_signatures : option (list TransactionSignature)
}.

Record TransactionObject := mkTransactionObject {
  to_hash : option string;
  to_version : Z;
  to_inputs : list InputObject;
  to_outputs : list OutputObject;
  to_nLockTime : Z;
  to_changeScript : option string;
  to_changeIndex : option Z;
  to_fee : option Z
}.

#[global] Instance truthy_OutputObject : Truthy OutputObject := fun _ => true.

(** ** Collaborators

    Everything the transaction module calls but does not define: the
    capabilities of the input variants, of outputs and scripts, the byte
    writer, the text renderings and the hash functions. *)
Class Collaborators := {
  (* Input *)
  Input_estimateSize : Input -> Z;
  Input_isNull : Input -> bool;
  Input_isFullySigned : Input -> bool;
  Input_getSignatures :
    Transaction -> Input -> PrivateKey -> Z -> Z -> Buffer ->
    Result (list TransactionSignature);
  Input_addSignature :
    Transaction -> Input -> TransactionSignature -> Result Input;
  Input_toBuffer : Input -> Result Buffer;
  Input_toObject : Input -> InputObject;
  Input_fromObject : InputKind -> InputObject -> Result Input;
  (* Output *)
  Output_invalidSatoshis : Output -> bool;
  Output_toBuffer : Output -> Result Buffer;
  Output_toObject : Output -> OutputObject;
  Output_fromObject : OutputObject -> Result Output;
  (* Script and Address *)
  Script_isDataOut : Script -> bool;
  Script_isPublicKeyHashOut : Script -> bool;
  Script_isScriptHashOut : Script -> bool;
  Script_isPublicKeyOut : Script -> bool;
  Script_fromString : string -> Result Script;
  Script_toString : Script -> string;
  Script_fromAddress : Address -> Result Script;
  Script_buildDataOut : Buffer -> Script;
  (* BufferWriter, Buffer and number renderings; the fixed-width writers
     raise for a number that does not fit, the variable-width writer is
     only given the length of an array *)
  writeInt32LE : Z -> Result Buffer;
  writeUInt32LE : Z -> Result Buffer;
  writeVarintNum : Z -> Buffer;
  Buffer_toString : Buffer -> string;
  Buffer_toHex : Buffer -> string;
  Number_toString : Z -> string;
  (* Hash, Signature, PrivateKey *)
  Hash_sha256sha256 : Buffer -> Buffer;
  Hash_sha256ripemd160 : Buffer -> Buffer;
  Signature_SIGHASH_ALL : Z;
  Signature_SIGHASH_FORKID : Z;
  PrivateKey_publicKey : PrivateKey -> Buffer
}.

(** Modelled from the spec: the clear-signatures capability of the Input
    collaborator, which is not part of the transaction module.  An input
    holds accumulated signature material and clearing drops it; the
    unclassified (fallback) variant signals an error on its signing-related
    capabilities instead of doing nothing. *)
Definition Input_clearSignatures (i : Input) : Result Input :=
  match kind i with
  | GenericInput => Throw AbstractMethodInvoked
  | _ => Ok (set_input_signatures [] i)
  end.

(** [JSUtil.isNaturalNumber] on an integer. *)
Definition isNaturalNumber (n : Z) : bool := 0 <=? n.

(** Reference equality of two objects ([===]). *)
Definition same_output (a b : Output) : bool := Nat.eqb (oid a) (oid b).
Definition same_input (a b : Input) : bool := Nat.eqb (iid a) (iid b).

(** Allocation of a fresh object identity. *)
Definition alloc : M nat :=
  mkM (fun t => Ok (heapNext t, set_heapNext (S (heapNext t)) t))
      (fun t => set_heapNext (S (heapNext t)) t).

(** Modelled from the spec: [new Output({script, satoshis})] of the Output
    collaborator; the amount has to be a non-negative integer and is also
    kept as an exact big integer. *)
Definition Output_new (s : Script) (amount : Z) : M Output :=
  lift (checkArgument (isNaturalNumber amount)) ;;;
  n <- alloc ;;
  ret (mkOutput n s amount amount).

(** Constants of the module. *)
Definition CURRENT_VERSION : Z := 1.
Definition DEFAULT_NLOCKTIME : Z := 0.
Definition MAX_BLOCK_SIZE : Z := 1000000.
Definition DUST_AMOUNT : Z := 546.
Definition FEE_SECURITY_MARGIN : Z := 150.
Definition MAX_MONEY : Z := 21000000 * 100000000.
Definition FEE_PER_KB : Z := 100000.
Definition CHANGE_OUTPUT_MAX_SIZE : Z := 20 + 4 + 34 + 4.
Definition MAXIMUM_EXTRA_SIZE : Z := 4 + 9 + 9 + 4.

(** The object the constructor starts from, and [_newTransaction]. *)
Definition blankTransaction : Transaction :=
  mkTransaction [] [] None None 0 0 None None None None 0.

Definition _newTransaction : M unit :=
  modify (set_version CURRENT_VERSION) ;;;
  modify (set_nLockTime DEFAULT_NLOCKTIME).

Definition newTransaction : Transaction :=
  set_nLockTime DEFAULT_NLOCKTIME (set_version CURRENT_VERSION blankTransaction).

(** ** Arguments and results of the methods *)

(** The [outputScript] argument of [addInput]: a script object or its text. *)
Inductive ScriptArg :=
| ScriptObject (s : Script)
| ScriptText (s : string).

#[global] Instance truthy_ScriptArg : Truthy ScriptArg :=
  fun a => match a with ScriptObject _ => true | ScriptText s => truthy s end.

Inductive ToArg :=
| ToOne (address : Address) (amount : Z)
| ToMany (l : list (Address * Z)).

(** The first argument of [removeInput]: a position or a transaction id. *)
Inductive RemoveInputArg :=
| ByNumber (n : Z)
| ByTxId (txId : string).

(** The public mutations, as one type. *)
Inductive Mutation :=
| Call_addInput (input : Input) (outputScript : option ScriptArg) (amount : option Z)
| Call_uncheckedAddInput (input : Input)
| Call_addOutput (o : Output)
| Call_to (arg : ToArg)
| Call_addData (value : Buffer)
| Call_removeInput (txId : RemoveInputArg) (outIndex : option Z)
| Call_removeOutput (index : Z)
| Call_clearOutputs
| Call_fee (amount : Z)
| Call_feePerKb (amount : Z)
| Call_change (address : option Address).

Inductive KeysArg :=
| OneKey (k : PrivateKey)
| ManyKeys (l : list PrivateKey).

Record Options := mkOptions {
  disableSmallFees : bool;
  disableLargeFees : bool;
  disableIsFullySigned : bool;
  disableDustOutputs : bool;
  disableMoreOutputThanInput : bool
}.

Inductive VerifyResult :=
| VerifyTrue
| VerifyFailure (message : string).

(** A value that can be [null]. *)
Inductive Nullable (A : Type) :=
| Null
| NotNull (a : A).
Arguments Null {A}.
Arguments NotNull {A} a.

(** The argument of [fromObject]: a plain object or a transaction. *)
Inductive FromObjectArg :=
| ArgObject (o : TransactionObject)
| ArgTransaction (t : Transaction).

Section Methods.

Context `{Collaborators}.

(** *** Amounts, fee and change *)

Fixpoint mapM_Result {A B} (f : A -> Result B) (l : list A) : Result (list B) :=
  match l with
  | [] => Ok []
  | x :: l' =>
      match f x with
      | Throw e => Throw e
      | Ok y =>
          match mapM_Result f l' with
          | Throw e => Throw e
          | Ok ys => Ok (y :: ys)
          end
      end
  end.

(** [this.inputs.forEach(input => input.clearSignatures())]: the inputs
    are cleared one after the other, each where it stands in the list, so
    that the inputs in front of one that raises stay cleared. *)
Fixpoint clearSignaturesFrom (k : nat) (ins : list Input) : M unit :=
  match ins with
  | [] => ret tt
  | input :: ins' =>
      input' <- lift (Input_clearSignatures input) ;;
      modify (fun t => set_inputs (<[k := input']> (inputs t)) t) ;;;
      clearSignaturesFrom (S k) ins'
  end.

Definition _clearSignatures : M unit :=
  ins <- gets inputs ;;
  clearSignaturesFrom 0 ins.

Definition _addOutput (o : Output) : M unit :=
  modify (fun t => set_outputs (outputs t ++ [o]) t) ;;;
  modify (set_outputAmount None).

Definition _getOutputAmount : M Z :=
  c <- gets _outputAmount ;;
  match c with
  | Some v => ret v
  | None =>
      outs <- gets outputs ;;
      let v := fold_left (fun acc o => acc + satoshis o) outs 0 in
      modify (set_outputAmount (Some v)) ;;;
      ret v
  end.

(** The value of the loop of [_getInputAmount]: the total from [acc] on,
    or the exception at the first input without its spent output. *)
Fixpoint sumInputAmounts (ins : list Input) (acc : Z) : Result Z :=
  match ins with
  | [] => Ok acc
  | input :: ins' =>
      match output input with
      | None => Throw MissingPreviousOutput
      | Some o => sumInputAmounts ins' (acc + satoshis o)
      end
  end.

(** [_getInputAmount]: the cache cell is set to 0 and the amounts are added
    to it in place, so that a loop that raises leaves the total of the
    inputs in front of the one that lacks its spent output. *)
Definition _getInputAmount : M Z :=
  c <- gets _inputAmount ;;
  match c with
  | Some v => ret v
  | None =>
      modify (set_inputAmount (Some 0)) ;;;
      ins <- gets inputs ;;
      forEach (fun input =>
        match output input with
        | None => throw MissingPreviousOutput
        | Some o =>
            modify (fun t =>
              set_inputAmount
                (Some (default 0 (_inputAmount t) + satoshis o)) t)
        end) ins ;;;
      gets (fun t => default 0 (_inputAmount t))
  end.

Definition _getUnspentValue : M Z :=
  i <- _getInputAmount ;;
  o <- _getOutputAmount ;;
  ret (i - o).

Definition isCoinbase (t : Transaction) : bool :=
  match inputs t with
  | [i] => Input_isNull i
  | _ => false
  end.

Definition _estimateSize (t : Transaction) : Z :=
  let result :=
    fold_left (fun acc input => acc + Input_estimateSize input)
      (inputs t) MAXIMUM_EXTRA_SIZE in
  fold_left (fun acc o => acc + Z.of_nat (length (script o)) + 9)
    (outputs t) result.

(** The static [Transaction._estimateFee(size, amountAvailable, feePerKb)]. *)
Definition Transaction_estimateFee
  (size amountAvailable : Z) (feePerKb : option Z) : Z :=
  let fee := Math_ceil_div size 1000 * js_or_default feePerKb FEE_PER_KB in
  let size' :=
    if fee <? amountAvailable then size + CHANGE_OUTPUT_MAX_SIZE else size in
  Math_ceil_div size' 1000 * js_or_default feePerKb FEE_PER_KB.

Definition _estimateFee : M Z :=
  estimatedSize <- gets _estimateSize ;;
  available <- _getUnspentValue ;;
  feePerKb <- gets _feePerKb ;;
  ret (Transaction_estimateFee estimatedSize available feePerKb).

Definition getFee : M Z :=
  coinbase <- gets isCoinbase ;;
  if coinbase then ret 0 else
  f <- gets _fee ;;
  match f with
  | Some v => ret v
  | None =>
      cs <- gets _changeScript ;;
      if negb (truthy cs) then _getUnspentValue else _estimateFee
  end.

Definition _removeOutput (index : Z) : M unit :=
  modify (fun t =>
    match js_index (outputs t) index with
    | Some o =>
        set_outputs (List.filter (fun val => negb (same_output val o)) (outputs t)) t
    | None => t   (* every element differs from [undefined] *)
    end) ;;;
  modify (set_outputAmount None).

Definition _updateChangeOutput : M unit :=
  cs <- gets _changeScript ;;
  match cs with
  | None => ret tt
  | Some changeScript =>
      _clearSignatures ;;;
      ci <- gets _changeIndex ;;
      match ci with
      | Some i => _removeOutput i
      | None => ret tt
      end ;;;
      available <- _getUnspentValue ;;
      fee <- getFee ;;
      let changeAmount := available - fee in
      if 0 <? changeAmount then
        n <- gets (fun t => Z.of_nat (length (outputs t))) ;;
        modify (set_changeIndex (Some n)) ;;;
        o <- Output_new changeScript changeAmount ;;
        _addOutput o
      else modify (set_changeIndex None)
  end.

(** *** Mutators *)

Definition uncheckedAddInput (input : Input) : M unit :=
  modify (fun t => set_inputs (inputs t ++ [input]) t) ;;;
  modify (set_inputAmount None) ;;;
  _updateChangeOutput.

Definition addInput
  (input : Input) (outputScript : option ScriptArg) (amount : option Z) : M unit :=
  if negb (truthy (output input))
     && (negb (bool_decide (is_Some outputScript))
         || negb (bool_decide (is_Some amount)))
  then throw NeedMoreInfo
  else
    match output input, outputScript, amount with
    | None, Some arg, Some v =>
        if truthy arg then
          s <- match arg with
               | ScriptObject s => ret s
               | ScriptText txt => lift (Script_fromString txt)
               end ;;
          o <- Output_new s v ;;
          (* [input.output = ...] is seen through every reference to [input] *)
          modify (fun t =>
            set_inputs
              (map (fun j => if same_input j input
                             then set_input_output (Some o) j else j)
                 (inputs t)) t) ;;;
          uncheckedAddInput (set_input_output (Some o) input)
        else uncheckedAddInput input
    | _, _, _ => uncheckedAddInput input
    end.

Definition addOutput (o : Output) : M unit :=
  _addOutput o ;;;
  _updateChangeOutput.

Definition to_one (address : Address) (amount : Z) : M unit :=
  lift (checkArgument (isNaturalNumber amount)) ;;;
  s <- lift (Script_fromAddress address) ;;
  o <- Output_new s amount ;;
  addOutput o.

Definition to (arg : ToArg) : M unit :=
  match arg with
  | ToOne address amount => to_one address amount
  | ToMany l => forEach (fun e => to_one (fst e) (snd e)) l
  end.

Definition addData (value : Buffer) : M unit :=
  o <- Output_new (Script_buildDataOut value) 0 ;;
  addOutput o.

Definition clearOutputs : M unit :=
  modify (set_outputs []) ;;;
  _clearSignatures ;;;
  modify (set_outputAmount None) ;;;
  modify (set_changeIndex None) ;;;
  _updateChangeOutput.

Definition removeOutput (index : Z) : M unit :=
  _removeOutput index ;;;
  _updateChangeOutput.

(** [_.findIndex(array, predicate)]: the first position, or [-1]. *)
Fixpoint findIndex_from {A} (p : A -> bool) (l : list A) (i : Z) : Z :=
  match l with
  | [] => -1
  | x :: l' => if p x then i else findIndex_from p l' (i + 1)
  end.
Definition findIndex {A} (p : A -> bool) (l : list A) : Z := findIndex_from p l 0.

Definition removeInput (txId : RemoveInputArg) (outIndex : option Z) : M unit :=
  ins <- gets inputs ;;
  let index :=
    match txId with
    | ByNumber n =>
        if negb (truthy outIndex) then n
        else findIndex (fun _ => false) ins   (* a string never equals a number *)
    | ByTxId s =>
        findIndex (fun input =>
          String.eqb (Buffer_toHex (prevTxId input)) s
          && match outIndex with
             | Some k => outputIndex input =? k
             | None => false
             end) ins
    end in
  if (index <? 0) || (Z.of_nat (length ins) <=? index)
  then throw (InvalidIndex index (Z.of_nat (length ins)))
  else
    match js_index ins index with
    | Some input =>
        modify (set_inputs (List.filter (fun j => negb (same_input j input)) ins))
    | None => ret tt
    end ;;;
    modify (set_inputAmount None) ;;;
    _updateChangeOutput.

Definition fee (amount : Z) : M unit :=
  modify (set_fee (Some amount)) ;;;
  _updateChangeOutput.

Definition feePerKb (amount : Z) : M unit :=
  modify (set_feePerKb (Some amount)) ;;;
  _updateChangeOutput.

Definition change (address : option Address) : M unit :=
  lift (checkArgument address) ;;;
  match address with
  | Some a =>
      s <- lift (Script_fromAddress a) ;;
      modify (set_changeScript (Some s)) ;;;
      _updateChangeOutput
  | None => throw InvalidArgument
  end.

(** [getChangeOutput]: [null] without a change index; otherwise what is
    at that index of the outputs, [undefined] outside of them. *)
Definition getChangeOutput (t : Transaction) : Nullable (option Output) :=
  match _changeIndex t with
  | Some i => NotNull (js_index (outputs t) i)
  | None => Null
  end.

Definition call (m : Mutation) : M unit :=
  match m with
  | Call_addInput i s v => addInput i s v
  | Call_uncheckedAddInput i => uncheckedAddInput i
  | Call_addOutput o => addOutput o
  | Call_to a => to a
  | Call_addData v => addData v
  | Call_removeInput a k => removeInput a k
  | Call_removeOutput i => removeOutput i
  | Call_clearOutputs => clearOutputs
  | Call_fee v => fee v
  | Call_feePerKb v => feePerKb v
  | Call_change a => change a
  end.

(** *** Signing *)

Definition hasAllUtxoInfo (t : Transaction) : list bool :=
  map (fun input => negb (negb (truthy (output input)))) (inputs t).

Fixpoint collectSignatures
  (t : Transaction) (privKey : PrivateKey) (sigtype' : Z) (hashData : Buffer)
  (ins : list Input) (index : Z) : Result (list TransactionSignature) :=
  match ins with
  | [] => Ok []
  | input :: ins' =>
      match Input_getSignatures t input privKey index sigtype' hashData with
      | Throw e => Throw e
      | Ok sigs =>
          match collectSignatures t privKey sigtype' hashData ins' (index + 1) with
          | Throw e => Throw e
          | Ok rest => Ok (sigs ++ rest)
          end
      end
  end.

Definition getSignatures (privKey : PrivateKey) (sigtype' : option Z)
  : M (list TransactionSignature) :=
  let sigtype'' :=
    js_or_default sigtype'
      (Z.lor Signature_SIGHASH_ALL Signature_SIGHASH_FORKID) in
  let hashData := Hash_sha256ripemd160 (PrivateKey_publicKey privKey) in
  t <- gets (fun t => t) ;;
  lift (collectSignatures t privKey sigtype'' hashData (inputs t) 0).

Definition applySignature (sig : TransactionSignature) : M unit :=
  t <- gets (fun t => t) ;;
  match js_index (inputs t) (inputIndex sig) with
  | None => throw TypeError
  | Some input =>
      input' <- lift (Input_addSignature t input sig) ;;
      modify (fun t =>
        set_inputs
          (map (fun j => if same_input j input then input' else j) (inputs t)) t)
  end.

Definition sign_key (privateKey : PrivateKey) (sigtype' : option Z) : M unit :=
  t <- gets (fun t => t) ;;
  lift (checkState (hasAllUtxoInfo t)) ;;;
  sigs <- getSignatures privateKey sigtype' ;;
  forEach applySignature sigs.

Definition sign (privateKeys : KeysArg) (sigtype' : option Z) : M unit :=
  match privateKeys with
  | OneKey k => sign_key k sigtype'
  | ManyKeys l =>
      t <- gets (fun t => t) ;;
      lift (checkState (hasAllUtxoInfo t)) ;;;
      forEach (fun k => sign_key k sigtype') l
  end.

Definition isFullySigned : M bool :=
  ins <- gets inputs ;;
  forEach (fun input =>
    match kind input with
    | GenericInput => throw UnableToVerifySignature
    | _ => ret tt
    end) ins ;;;
  ret (forallb (fun x => x) (map Input_isFullySigned ins)).

(** *** Serialization checks *)

Definition invalidSatoshis (t : Transaction) : bool :=
  existsb Output_invalidSatoshis (outputs t).

Definition _missingChange (t : Transaction) : bool :=
  negb (truthy (_changeScript t)).

Definition _hasFeeError (opts : Options) (unspent : Z) : M (option Error) :=
  let bounds : M (option Error) :=
    large <-
      (if negb (disableLargeFees opts) then
         estimate <- _estimateFee ;;
         (* [Math.floor] of an integer product *)
         let maximumFee := FEE_SECURITY_MARGIN * estimate in
         if maximumFee <? unspent then
           missing <- gets _missingChange ;;
           if missing then ret (Some ChangeAddressMissing)
           else ret (Some (FeeError_TooLarge maximumFee unspent))
         else ret None
       else ret None) ;;
    match large with
    | Some e => ret (Some e)
    | None =>
        if negb (disableSmallFees opts) then
          estimate <- _estimateFee ;;
          let minimumFee := Math_ceil_div estimate FEE_SECURITY_MARGIN in
          if unspent <? minimumFee
          then ret (Some (FeeError_TooSmall minimumFee unspent))
          else ret None
        else ret None
    end in
  f <- gets _fee ;;
  match f with
  | Some v =>
      if negb (v =? unspent)
      then ret (Some (FeeError_Different unspent v))
      else bounds
  | None => bounds
  end.

Definition _hasDustOutputs (opts : Options) (t : Transaction) : option Error :=
  if negb (disableDustOutputs opts) then
    let dustOutputs :=
      List.filter
        (fun o => (satoshis o <? DUST_AMOUNT) && negb (Script_isDataOut (script o)))
        (outputs t) in
    if 0 <? Z.of_nat (length dustOutputs) then Some DustOutputs else None
  else None.

Definition _isMissingSignatures (opts : Options) : M (option Error) :=
  if negb (disableIsFullySigned opts) then
    full <- isFullySigned ;;
    if negb full then ret (Some MissingSignatures) else ret None
  else ret None.

Definition getSerializationError (opts : Options) : M (option Error) :=
  invalid <- gets invalidSatoshis ;;
  if invalid then ret (Some InvalidSatoshis) else
  unspent <- _getUnspentValue ;;
  unspentError <-
    (if unspent <? 0 then
       if negb (disableMoreOutputThanInput opts)
       then ret (Some InvalidOutputAmountSum)
       else ret None
     else _hasFeeError opts unspent) ;;
  match unspentError with
  | Some e => ret (Some e)
  | None =>
      dust <- gets (_hasDustOutputs opts) ;;
      match dust with
      | Some e => ret (Some e)
      | None => _isMissingSignatures opts
      end
  end.

(** *** Wire format *)

(** [toBufferWriter]: the fields are written in order, and the first
    write that raises ends the encoding. *)
Definition toBuffer (t : Transaction) : Result Buffer :=
  Result_bind (writeInt32LE (version t)) (fun v =>
  Result_bind (mapM_Result Input_toBuffer (inputs t)) (fun ins =>
  Result_bind (mapM_Result Output_toBuffer (outputs t)) (fun outs =>
  Result_bind (writeUInt32LE (nLockTime t)) (fun l =>
    Ok (v
        ++ writeVarintNum (Z.of_nat (length (inputs t))) ++ concat ins
        ++ writeVarintNum (Z.of_nat (length (outputs t))) ++ concat outs
        ++ l))))).

Definition _getHash (t : Transaction) : Result Buffer :=
  Result_map Hash_sha256sha256 (toBuffer t).

(** The [hash] property: the reversed hash, in hexadecimal. *)
Definition hash (t : Transaction) : Result string :=
  Result_map (fun h => Buffer_toHex (rev h)) (_getHash t).

(** *** Sanity checks *)

(** The loop over the outputs, with the running total [valueoutbn]. *)
Fixpoint verify_outputs (outs : list Output) (valueoutbn : Z) : option string :=
  match outs with
  | [] => None
  | o :: outs' =>
      if Output_invalidSatoshis o
      then Some "Transaction output contains invalid amount"%string
      else if MAX_MONEY <? _satoshisBN o
      then Some "Transaction output contains too high satoshi amount"%string
      else
        let valueoutbn' := valueoutbn + _satoshisBN o in
        if MAX_MONEY <? valueoutbn'
        then Some "Transaction output contains too high satoshi amount"%string
        else verify_outputs outs' valueoutbn'
  end.

Definition inputid (input : Input) : string :=
  (Buffer_toString (prevTxId input) +:+ ":"
   +:+ Number_toString (outputIndex input))%string.

(** The loop over the inputs, with the object [txinmap] used as a map. *)
Fixpoint verify_inputs (ins : list Input) (txinmap : gmap string bool)
  : option string :=
  match ins with
  | [] => None
  | input :: ins' =>
      match txinmap !! inputid input with
      | Some _ => Some "Transaction contains duplicate input"%string
      | None => verify_inputs ins' (<[inputid input := true]> txinmap)
      end
  end.

Definition verify (t : Transaction) : Result VerifyResult :=
  if Z.of_nat (length (inputs t)) =? 0
  then Ok (VerifyFailure "transaction txins empty")
  else if Z.of_nat (length (outputs t)) =? 0
  then Ok (VerifyFailure "transaction txouts empty")
  else
    match verify_outputs (outputs t) 0 with
    | Some message => Ok (VerifyFailure message)
    | None =>
        Result_bind (toBuffer t) (fun encoding =>
        Ok
          (if MAX_BLOCK_SIZE <? Z.of_nat (length encoding)
           then VerifyFailure "Transaction over the maximum block size"
           else
             match verify_inputs (inputs t) ∅ with
             | Some message => VerifyFailure message
             | None =>
                 if isCoinbase t then
                   match inputs t with
                   | input :: _ =>
                       let n := Z.of_nat (length (_scriptBuffer input)) in
                       if (n <? 2) || (100 <? n)
                       then VerifyFailure
                              "Coinbase transaction script size invalid"
                       else VerifyTrue
                   | [] => VerifyTrue   (* a coinbase has its one input *)
                   end
                 else if 0 <? Z.of_nat (length (List.filter Input_isNull
                                                  (inputs t)))
                 then VerifyFailure "Transaction has null input"
                 else VerifyTrue
             end))
    end.

(** *** Snapshots *)

Definition toObject (t : Transaction) : Result TransactionObject :=
  Result_map
    (fun h =>
       mkTransactionObject
         (Some h)
         (version t)
         (map Input_toObject (inputs t))
         (map Output_toObject (outputs t))
         (nLockTime t)
         (if truthy (_changeScript t)
          then option_map Script_toString (_changeScript t) else None)
         (_changeIndex t)
         (_fee t))
    (hash t).

(** [arg.hash]: a field of a plain object, the getter of a transaction. *)
Definition arg_hash (arg : FromObjectArg) : Result (option string) :=
  match arg with
  | ArgObject o => Ok (to_hash o)
  | ArgTransaction t => Result_map Some (hash t)
  end.

Definition _checkConsistency (arg : FromObjectArg) : M unit :=
  ci <- gets _changeIndex ;;
  match ci with
  | Some i =>
      cs <- gets _changeScript ;;
      lift (checkState cs) ;;;
      outs <- gets outputs ;;
      lift (checkState (js_index outs i)) ;;;
      match js_index outs i, cs with
      | Some o, Some changeScript =>
          lift (checkState
                  (String.eqb (Script_toString (script o))
                              (Script_toString changeScript)))
      | _, _ => throw TypeError
      end
  | None => ret tt
  end ;;;
  argHash <- lift (arg_hash arg) ;;
  if truthy argHash then
    this <- gets (fun t => t) ;;
    h <- lift (hash this) ;;
    lift (checkState
            (match argHash with
             | Some a => String.eqb a h
             | None => false
             end))
  else ret tt.

(** [new Input(...)] and [new Output(...)] from their structured forms:
    the collaborator builds the object, which gets a fresh identity. *)
Definition new_Input (k : InputKind) (obj : InputObject) : M Input :=
  i <- lift (Input_fromObject k obj) ;;
  n <- alloc ;;
  ret (set_input_iid n i).

Definition new_Output (obj : OutputObject) : M Output :=
  o <- lift (Output_fromObject obj) ;;
  n <- alloc ;;
  ret (mkOutput n (script o) (satoshis o) (_satoshisBN o)).

Definition fromObject_input (input : InputObject) : M unit :=
  if negb (truthy (io_output input))
     || negb (truthy (option_map oo_script (io_output input)))
  then
    i <- new_Input GenericInput input ;;
    uncheckedAddInput i
  else
    s <- lift (Script_fromString
                 (match io_output input with
                  | Some o => oo_script o
                  | None => EmptyString
                  end)) ;;
    txin <-
      (if Script_isPublicKeyHashOut s then new_Input PublicKeyHashInput input
       else if Script_isScriptHashOut s
               && truthy (io_publicKeys input) && truthy (io_threshold input)
       then new_Input MultiSigScriptHashInput input
       else if Script_isPublicKeyOut s then new_Input PublicKeyInput input
       else throw UnsupportedScript) ;;
    addInput txin None None.

Definition fromObject (arg : FromObjectArg) : M unit :=
  transaction <-
    lift (match arg with
          | ArgObject o => Ok o
          | ArgTransaction t => toObject t
          end) ;;
  forEach fromObject_input (to_inputs transaction) ;;;
  forEach (fun o => o' <- new_Output o ;; addOutput o') (to_outputs transaction) ;;;
  (if truthy (to_changeIndex transaction)
   then modify (set_changeIndex (to_changeIndex transaction))
   else ret tt) ;;;
  (match to_changeScript transaction with
   | Some txt =>
       if truthy txt then
         s <- lift (Script_fromString txt) ;;
         modify (set_changeScript (Some s))
       else ret tt
   | None => ret tt
   end) ;;;
  (if truthy (to_fee transaction)
   then modify (set_fee (to_fee transaction))
   else ret tt) ;;;
  modify (set_nLockTime (to_nLockTime transaction)) ;;;
  modify (set_version (to_version transaction)) ;;;
  _checkConsistency arg.

(** [new Transaction(object)]: [fromObject] on the blank object. *)
Definition Transaction_fromObject (o : TransactionObject) : Result Transaction :=
  exec (fromObject (ArgObject o)) blankTransaction.

End Methods.

(** ** Notions used to state the properties *)

Section Notions.

Context `{Collaborators}.

(** Sum of an integer measure over a list. *)
Definition sumZ {A} (f : A -> Z) (l : list A) : Z :=
  foldr (fun x acc => f x + acc) 0 l.

(** Total of the amounts spent by the inputs and of the amounts created. *)
Definition inputTotal (t : Transaction) : Z :=
  sumZ (fun i => match output i with Some o => satoshis o | None => 0 end)
       (inputs t).
Definition outputTotal (t : Transaction) : Z := sumZ satoshis (outputs t).

(** Every input carries its spent output. *)
Definition allUtxoInfo (t : Transaction) : bool :=
  forallb (fun i => bool_decide (is_Some (output i))) (inputs t).

(** No input is of the unclassified variant. *)
Definition allClassified (t : Transaction) : bool :=
  forallb (fun i => match kind i with GenericInput => false | _ => true end)
          (inputs t).

(** The memoized totals, when present, are what a recomputation returns. *)
Definition cachesConsistent (t : Transaction) : bool :=
  match _inputAmount t with
  | None => true
  | Some v =>
      match sumInputAmounts (inputs t) 0 with
      | Ok w => v =? w
      | Throw _ => false
      end
  end
  && match _outputAmount t with
     | None => true
     | Some v => v =? fold_left (fun acc o => acc + satoshis o) (outputs t) 0
     end.

(** A defined change index comes with a change script, which is the script
    of the output at that index. *)
Definition changeTracked (t : Transaction) : Prop :=
  forall i, _changeIndex t = Some i ->
    exists o, js_index (outputs t) i = Some o /\ _changeScript t = Some (script o).

(** The transaction as the last recomputation of the change saw it: the
    tracked change output taken out. *)
Definition withoutChange (t : Transaction) : Transaction :=
  match _changeIndex t with
  | Some i =>
      if i <? 0 then t
      else set_outputAmount None
             (set_outputs (delete (Z.to_nat i) (outputs t)) t)
  | None => t
  end.

(** A defined change index comes with some change script. *)
Definition changeNeedsScript (t : Transaction) : Prop :=
  forall i, _changeIndex t = Some i -> is_Some (_changeScript t).

(** A call that runs no statement at all: [to] on an empty list. *)
Definition emptyCall (m : Mutation) : bool :=
  match m with
  | Call_to (ToMany []) => true
  | _ => false
  end.

(** *** Fee estimation, as a formula *)

Definition estimatedSize (t : Transaction) : Z :=
  MAXIMUM_EXTRA_SIZE
  + sumZ Input_estimateSize (inputs t)
  + sumZ (fun o => Z.of_nat (length (script o)) + 9) (outputs t).

(** Kilobytes, rounded up. *)
Definition kilobytes (size : Z) : Z := (size + 999) / 1000.

Definition estimateFee_formula (rate size unspent : Z) : Z :=
  let firstPass := kilobytes size * rate in
  if firstPass <? unspent
  then kilobytes (size + CHANGE_OUTPUT_MAX_SIZE) * rate
  else firstPass.

(** The rate as the claim words it: the override when set. *)
Definition rate_when_set (t : Transaction) : Z :=
  match _feePerKb t with
  | Some r => r
  | None => 100000
  end.

(** The rate of the code: the override when set and not zero. *)
Definition rate_when_nonzero (t : Transaction) : Z :=
  match _feePerKb t with
  | Some r => if r =? 0 then 100000 else r
  | None => 100000
  end.

Definition estimatedFee (t : Transaction) : Z :=
  estimateFee_formula (rate_when_nonzero t) (estimatedSize t)
    (inputTotal t - outputTotal t).

(** *** The change output, as the claim words it *)

(** What [getFee()] gives on a transaction with a change script whose
    inputs carry their spent outputs. *)
Definition feeWithChangeScript (t : Transaction) : Z :=
  if isCoinbase t then 0
  else match _fee t with
       | Some v => v
       | None => estimatedFee t
       end.

(** The change output as the inputs, the other outputs and the fee leave
    it.  [available] is the total of the input amounts minus the total of
    the outputs other than the tracked one; [fee] is what [getFee()] gives
    on the transaction without its tracked change output, which is the
    transaction that the recomputation of the change sees: nothing for a
    coinbase, the explicit fee when one is set, the estimated fee
    otherwise.  With a change script every input carries its spent output,
    and [available - fee > 0] gives a tracked change output of that script
    and amount; otherwise no change index is defined. *)
Definition changeInvariant (t : Transaction) : Prop :=
  match _changeScript t with
  | None => _changeIndex t = None
  | Some changeScript =>
      exists fee,
        eval getFee (withoutChange t) = Ok fee
        /\ fee = feeWithChangeScript (withoutChange t)
        /\ allUtxoInfo t = true
        /\ if 0 <? inputTotal t - outputTotal (withoutChange t) - fee
           then exists i o,
                  _changeIndex t = Some i
                  /\ js_index (outputs t) i = Some o
                  /\ script o = changeScript
                  /\ satoshis o
                     = inputTotal t - outputTotal (withoutChange t) - fee
           else _changeIndex t = None
  end.

(** What a public mutation that returns leaves behind, besides [P]. *)
Definition established (P : Transaction -> Prop) (t : Transaction) : Prop :=
  P t /\ cachesConsistent t = true /\ changeTracked t.

(** *** The serialization checks, as a pipeline *)

(** The first check that does not pass decides. *)
Fixpoint firstFailure (checks : list (Result (option Error)))
  : Result (option Error) :=
  match checks with
  | [] => Ok None
  | Ok None :: rest => firstFailure rest
  | outcome :: _ => outcome
  end.

Definition explicitFeeDiffers (t : Transaction) (unspent : Z) : bool :=
  match _fee t with
  | Some f => negb (f =? unspent)
  | None => false
  end.

(** Step (3): fee mismatch, else fee too large (or change address missing),
    else fee too small.  "Below the estimated fee / 150" is the exact
    comparison [150 * unspent < estimate]. *)
Definition feeBounds (opts : Options) (t : Transaction) : option Error :=
  let unspent := inputTotal t - outputTotal t in
  let estimate := estimatedFee t in
  if explicitFeeDiffers t unspent
  then Some (FeeError_Different unspent (default 0 (_fee t)))
  else if negb (disableLargeFees opts) && (150 * estimate <? unspent)
  then Some (match _changeScript t with
             | None => ChangeAddressMissing
             | Some _ => FeeError_TooLarge (150 * estimate) unspent
             end)
  else if negb (disableSmallFees opts) && (150 * unspent <? estimate)
  then Some (FeeError_TooSmall ((estimate + 149) / 150) unspent)
  else None.

Definition check_invalidSatoshis (t : Transaction) : Result (option Error) :=
  Ok (if existsb Output_invalidSatoshis (outputs t)
      then Some InvalidSatoshis else None).

Definition check_unspentNegative (opts : Options) (t : Transaction)
  : Result (option Error) :=
  Ok (if (inputTotal t - outputTotal t <? 0)
         && negb (disableMoreOutputThanInput opts)
      then Some InvalidOutputAmountSum else None).

(** Between steps (1) and (2) the unspent value is read, which raises
    when an input lacks its spent output. *)
Definition check_utxoInfo (t : Transaction) : Result (option Error) :=
  if allUtxoInfo t then Ok None else Throw MissingPreviousOutput.

(** Step (3) as the claim words it: always evaluated. *)
Definition check_feeBounds (opts : Options) (t : Transaction)
  : Result (option Error) :=
  Ok (feeBounds opts t).

(** Step (3) of the code: only for a non-negative unspent value. *)
Definition check_feeBounds_nonnegative (opts : Options) (t : Transaction)
  : Result (option Error) :=
  Ok (if inputTotal t - outputTotal t <? 0 then None else feeBounds opts t).

Definition check_dustOutputs (opts : Options) (t : Transaction)
  : Result (option Error) :=
  Ok (if negb (disableDustOutputs opts)
         && existsb (fun o => (satoshis o <? 546)
                              && negb (Script_isDataOut (script o)))
                    (outputs t)
      then Some DustOutputs else None).

(** Step (5): asking an unclassified input whether it is signed raises. *)
Definition check_missingSignatures (opts : Options) (t : Transaction)
  : Result (option Error) :=
  if disableIsFullySigned opts then Ok None
  else if negb (allClassified t) then Throw UnableToVerifySignature
  else Ok (if forallb Input_isFullySigned (inputs t)
           then None else Some MissingSignatures).

(** Step (5) as the claim words it: a failure or nothing. *)
Definition check_missingSignatures_claimed (opts : Options) (t : Transaction)
  : Result (option Error) :=
  Ok (if negb (disableIsFullySigned opts)
         && negb (forallb Input_isFullySigned (inputs t))
      then Some MissingSignatures else None).

Definition serializationChecks_claimed (opts : Options) (t : Transaction)
  : list (Result (option Error)) :=
  [ check_invalidSatoshis t;
    check_unspentNegative opts t;
    check_feeBounds opts t;
    check_dustOutputs opts t;
    check_missingSignatures_claimed opts t ].

Definition serializationChecks (opts : Options) (t : Transaction)
  : list (Result (option Error)) :=
  [ check_invalidSatoshis t;
    check_utxoInfo t;
    check_unspentNegative opts t;
    check_feeBounds_nonnegative opts t;
    check_dustOutputs opts t;
    check_missingSignatures opts t ].

(** *** The sanity checks, as an ordered list

    A check passes, gives a failure string, or raises; the first check
    that does not pass decides. *)

Fixpoint firstMessage (checks : list (Result (option string)))
  : Result VerifyResult :=
  match checks with
  | [] => Ok VerifyTrue
  | Ok None :: rest => firstMessage rest
  | Ok (Some message) :: _ => Ok (VerifyFailure message)
  | Throw e :: _ => Throw e
  end.

Definition when (b : bool) (message : string) : option string :=
  if b then Some message else None.

Definition check_noInputs (t : Transaction) : option string :=
  when (bool_decide (inputs t = [])) "transaction txins empty".

Definition check_noOutputs (t : Transaction) : option string :=
  when (bool_decide (outputs t = [])) "transaction txouts empty".

(** Some output has an invalid amount. *)
Definition check_anyInvalidAmount (t : Transaction) : option string :=
  when (existsb Output_invalidSatoshis (outputs t))
       "Transaction output contains invalid amount".

(** Some output, or the total of the outputs up to some position, is above
    the maximum amount of money. *)
Definition check_anyAmountTooHigh (t : Transaction) : option string :=
  when (existsb (fun o => MAX_MONEY <? _satoshisBN o) (outputs t)
        || existsb (fun n => MAX_MONEY <? sumZ _satoshisBN (take n (outputs t)))
                   (seq 1 (length (outputs t))))
       "Transaction output contains too high satoshi amount".

(** The verdict on one output, given the outputs before it. *)
Definition outputFailure (before : list Output) (o : Output) : option string :=
  if Output_invalidSatoshis o
  then Some "Transaction output contains invalid amount"%string
  else when ((MAX_MONEY <? _satoshisBN o)
             || (MAX_MONEY <? sumZ _satoshisBN (before ++ [o])))
            "Transaction output contains too high satoshi amount".

(** The outputs in order: the verdict on the first output that has one. *)
Definition check_outputsInOrder (t : Transaction) : option string :=
  match
    list_find is_Some
      (imap (fun n o => outputFailure (take n (outputs t)) o) (outputs t))
  with
  | Some (_, verdict) => verdict
  | None => None
  end.

(** The encoded size; the check raises when the encoding does. *)
Definition check_size (t : Transaction) : Result (option string) :=
  Result_map
    (fun encoding =>
       when (MAX_BLOCK_SIZE <? Z.of_nat (length encoding))
            "Transaction over the maximum block size")
    (toBuffer t).

(** Two inputs with the same previous transaction id and output index. *)
Definition check_duplicatePair (t : Transaction) : option string :=
  when (negb (bool_decide
                (NoDup (map (fun i => (prevTxId i, outputIndex i)) (inputs t)))))
       "Transaction contains duplicate input".

(** Two inputs with the same key [prevTxId:outputIndex], as text. *)
Definition check_duplicateKey (t : Transaction) : option string :=
  when (negb (bool_decide (NoDup (map inputid (inputs t)))))
       "Transaction contains duplicate input".

(** The text keys tell the inputs of the transaction apart as their pairs
    (prevTxId, outputIndex) do: two inputs with the same key have the same
    pair. *)
Definition keysFaithful (t : Transaction) : bool :=
  forallb
    (fun i =>
       forallb
         (fun j =>
            implb (String.eqb (inputid i) (inputid j))
                  (bool_decide
                     ((prevTxId i, outputIndex i) = (prevTxId j, outputIndex j))))
         (inputs t))
    (inputs t).

(** A coinbase (exactly one input, and it is null) needs an unlock script
    of 2 to 100 bytes; any other transaction needs its inputs not null. *)
Definition check_coinbaseOrNull (t : Transaction) : option string :=
  match inputs t with
  | [i] =>
      if Input_isNull i
      then when (negb (bool_decide
                         (2 <= Z.of_nat (length (_scriptBuffer i)) <= 100)))
                "Coinbase transaction script size invalid"
      else None
  | ins => when (existsb Input_isNull ins) "Transaction has null input"
  end.

(** The checks in the order of the claim. *)
Definition verify_claimed (t : Transaction) : Result VerifyResult :=
  firstMessage
    [ Ok (check_noInputs t); Ok (check_noOutputs t);
      Ok (check_anyInvalidAmount t); Ok (check_anyAmountTooHigh t);
      check_size t; Ok (check_duplicatePair t); Ok (check_coinbaseOrNull t) ].

(** The same with the outputs taken one after the other. *)
Definition verify_ordered (t : Transaction) : Result VerifyResult :=
  firstMessage
    [ Ok (check_noInputs t); Ok (check_noOutputs t);
      Ok (check_outputsInOrder t);
      check_size t; Ok (check_duplicatePair t); Ok (check_coinbaseOrNull t) ].

(** *** Snapshot fields restored under a truthiness guard *)

Definition restoredIfTruthy (field : option Z) : option Z :=
  match field with
  | Some 0 => None
  | other => other
  end.

(** *** Values of the memoizing getters

    What the getters return and how they leave the caches, as functions of
    the transaction; the lemmas below show that the methods compute them. *)

Definition outputAmountValue (t : Transaction) : Z :=
  fold_left (fun acc o => acc + satoshis o) (outputs t) 0.

Definition unspentValue (t : Transaction) : Result Z :=
  match sumInputAmounts (inputs t) 0 with
  | Ok i => Ok (i - outputAmountValue t)
  | Throw e => Throw e
  end.

Definition memoized (t : Transaction) : Transaction :=
  match sumInputAmounts (inputs t) 0 with
  | Ok i => set_outputAmount (Some (outputAmountValue t)) (set_inputAmount (Some i) t)
  | Throw _ => t
  end.

Definition estimateFeeValue (t : Transaction) : Result Z :=
  match unspentValue t with
  | Ok available =>
      Ok (Transaction_estimateFee (_estimateSize t) available (_feePerKb t))
  | Throw e => Throw e
  end.

Definition feeValue (t : Transaction) : Result Z :=
  if isCoinbase t then Ok 0 else
  match _fee t with
  | Some v => Ok v
  | None =>
      if negb (truthy (_changeScript t)) then unspentValue t
      else estimateFeeValue t
  end.

Definition feeState (t : Transaction) : Transaction :=
  if isCoinbase t then t else
  match _fee t with
  | Some _ => t
  | None => memoized t
  end.

(** The effect of the removal of the tracked change output, and of the
    addition of a new one, in [_updateChangeOutput]. *)
Definition changeRemoved (t : Transaction) : Transaction :=
  match _changeIndex t with
  | Some i =>
      set_outputAmount None
        match js_index (outputs t) i with
        | Some o =>
            set_outputs
              (List.filter (fun val => negb (same_output val o)) (outputs t)) t
        | None => t
        end
  | None => t
  end.

Definition changeAdded (changeScript : Script) (amount : Z) (t : Transaction)
  : Transaction :=
  set_outputAmount None
    (set_outputs
       (outputs t ++ [mkOutput (heapNext t) changeScript amount amount])
       (set_heapNext (S (heapNext t))
          (set_changeIndex (Some (Z.of_nat (length (outputs t)))) t))).

(** The state in which [clearOutputs] recomputes the change: the outputs
    emptied, nothing tracked. *)
Definition emptied (t : Transaction) : Transaction :=
  set_changeIndex None (set_outputAmount None (set_outputs [] t)).

End Notions.

(** ** A concrete set of collaborators

    Simple stand-ins for the modules around the transaction, used to run
    the methods on examples: pay-to-public-key-hash style scripts, a
    little-endian byte writer, hexadecimal and decimal renderings. *)

Module Demo.

Definition byte_of_Z (z : Z) : byte :=
  default x00 (Byte.of_N (Z.to_N (z mod 256))).

Fixpoint littleEndian (n : nat) (z : Z) : Buffer :=
  match n with
  | O => []
  | S n' => byte_of_Z z :: littleEndian n' (z / 256)
  end.

Definition varint (z : Z) : Buffer :=
  if z <? 253 then [byte_of_Z z]
  else if z <? 65536 then xfd :: littleEndian 2 z
  else if z <? 4294967296 then xfe :: littleEndian 4 z
  else xff :: littleEndian 8 z.

Definition hexDigit (n : N) : string :=
  match n with
  | 0%N => "0" | 1%N => "1" | 2%N => "2" | 3%N => "3" | 4%N => "4"
  | 5%N => "5" | 6%N => "6" | 7%N => "7" | 8%N => "8" | 9%N => "9"
  | 10%N => "a" | 11%N => "b" | 12%N => "c" | 13%N => "d" | 14%N => "e"
  | _ => "f"
  end.

Fixpoint toHex (b : Buffer) : string :=
  match b with
  | [] => EmptyString
  | x :: b' =>
      (hexDigit (Byte.to_N x / 16) +:+ hexDigit (Byte.to_N x mod 16)
       +:+ toHex b')%string
  end.

(** The null input of a coinbase: an all-zero previous transaction id and
    the output index [0xffffffff]. *)
Definition isNull (i : Input) : bool :=
  forallb (fun b => bool_decide (b = x00)) (prevTxId i)
  && (outputIndex i =? 4294967295).

Definition MAX_SAFE_INTEGER : Z := 9007199254740991.

(** An amount is invalid when it is above the safe-integer bound, differs
    from its big-integer copy, or is negative. *)
Definition invalidAmount (o : Output) : bool :=
  (MAX_SAFE_INTEGER <? satoshis o)
  || negb (satoshis o =? _satoshisBN o)
  || (satoshis o <? 0).

(** The fixed-width writers raise for a number outside of their range. *)
Definition signed32 (z : Z) : Result Buffer :=
  if (z <? -2147483648) || (2147483647 <? z) then Throw RangeError
  else Ok (littleEndian 4 z).

Definition unsigned32 (z : Z) : Result Buffer :=
  if (z <? 0) || (4294967295 <? z) then Throw RangeError
  else Ok (littleEndian 4 z).

Definition outputBytes (o : Output) : Result Buffer :=
  Ok (littleEndian 8 (satoshis o)
      ++ varint (Z.of_nat (length (script o))) ++ script o).

Definition inputBytes (i : Input) : Result Buffer :=
  Result_bind (unsigned32 (outputIndex i)) (fun index =>
  Result_bind (unsigned32 (sequenceNumber i)) (fun sequence =>
    Ok (prevTxId i ++ index
        ++ varint (Z.of_nat (length (_scriptBuffer i))) ++ _scriptBuffer i
        ++ sequence))).

Definition outputOfObject (obj : OutputObject) : Result Output :=
  if oo_satoshis obj <? 0 then Throw InvalidArgument
  else Ok (mkOutput 0 (list_byte_of_string (oo_script obj))
             (oo_satoshis obj) (oo_satoshis obj)).

Definition objectOfOutput (o : Output) : OutputObject :=
  mkOutputObject (satoshis o) (string_of_list_byte (script o)).

Definition inputOfObject (k : InputKind) (obj : InputObject) : Result Input :=
  match
    match io_output obj with
    | Some oo =>
        match outputOfObject oo with
        | Ok o => Ok (Some o)
        | Throw e => Throw e
        end
    | None => Ok None
    end
  with
  | Throw e => Throw e
  | Ok spent =>
      Ok (mkInput 0 k (list_byte_of_string (io_prevTxId obj))
            (io_outputIndex obj) (io_sequenceNumber obj)
            (list_byte_of_string (io_script obj)) spent
            (default [] (io_signatures obj)))
  end.

Definition objectOfInput (i : Input) : InputObject :=
  mkInputObject (string_of_list_byte (prevTxId i)) (outputIndex i)
    (sequenceNumber i) (string_of_list_byte (_scriptBuffer i))
    (option_map objectOfOutput (output i)) None None (Some (signatures i)).

(** [buffer.toString()]: the text that the bytes encode, taken byte by
    byte; a byte that is not ASCII is not valid text on its own and is
    rendered as the replacement character U+FFFD (bytes ef bf bd), so that
    different buffers can give the same text. *)
Definition textOfBuffer (b : Buffer) : string :=
  string_of_list_byte
    (flat_map
       (fun x => if (Byte.to_N x <? 128)%N then [x] else [xef; xbf; xbd]) b).

(** A pay-to-public-key-hash script for an address. *)
Definition scriptOfAddress (a : Address) : Result Script :=
  if truthy a
  then Ok ([x76; xa9; x14] ++ list_byte_of_string a ++ [x88; xac])
  else Throw InvalidArgument.

Definition startsWith (prefix s : Buffer) : bool :=
  bool_decide (take (length prefix) s = prefix).

(** Signing: the unclassified variant has no signing method; the others
    need the spent output and sign with the given key. *)
Definition signaturesFor
  (t : Transaction) (i : Input) (k : PrivateKey) (index sigtype' : Z)
  (hashData : Buffer) : Result (list TransactionSignature) :=
  match kind i with
  | GenericInput => Throw AbstractMethodInvoked
  | _ =>
      match output i with
      | None => Throw InvalidState
      | Some _ => Ok [mkTransactionSignature index sigtype' k hashData]
      end
  end.

Definition withSignature
  (t : Transaction) (i : Input) (sig : TransactionSignature) : Result Input :=
  match kind i with
  | GenericInput => Throw AbstractMethodInvoked
  | _ => Ok (set_input_signatures (signatures i ++ [sig]) i)
  end.

#[global] Instance collaborators : Collaborators := {|
  Input_estimateSize := fun i => 41 + Z.of_nat (length (_scriptBuffer i));
  Input_isNull := isNull;
  Input_isFullySigned := fun i => negb (bool_decide (signatures i = []));
  Input_getSignatures := signaturesFor;
  Input_addSignature := withSignature;
  Input_toBuffer := inputBytes;
  Input_toObject := objectOfInput;
  Input_fromObject := inputOfObject;
  Output_invalidSatoshis := invalidAmount;
  Output_toBuffer := outputBytes;
  Output_toObject := objectOfOutput;
  Output_fromObject := outputOfObject;
  Script_isDataOut := startsWith [x6a];
  Script_isPublicKeyHashOut := startsWith [x76; xa9; x14];
  Script_isScriptHashOut := startsWith [xa9; x14];
  Script_isPublicKeyOut := startsWith [x21];
  Script_fromString := fun s => Ok (list_byte_of_string s);
  Script_toString := string_of_list_byte;
  Script_fromAddress := scriptOfAddress;
  Script_buildDataOut := fun value => x6a :: value;
  writeInt32LE := signed32;
  writeUInt32LE := unsigned32;
  writeVarintNum := varint;
  Buffer_toString := textOfBuffer;
  Buffer_toHex := toHex;
  Number_toString := pretty;
  Hash_sha256sha256 := fun b => b;
  Hash_sha256ripemd160 := fun b => b;
  Signature_SIGHASH_ALL := 1;
  Signature_SIGHASH_FORKID := 64;
  PrivateKey_publicKey := fun k => k
|}.

(** *** Example objects *)

Definition payScript : Script := [x76; xa9; x14; x01; x88; xac].
Definition changeScript : Script := [x76; xa9; x14; x02; x88; xac].
Definition txid1 : Buffer := [x11; x22; x33; x44].
Definition txid2 : Buffer := [x55; x66; x77; x88].
Definition aSignature : TransactionSignature :=
  mkTransactionSignature 0 65 [x03] [x30; x45].

(** An input spending [amount] satoshis, of the pay-to-public-key-hash
    variant, unsigned. *)
Definition fundedInput (id : nat) (txid : Buffer) (amount : Z) : Input :=
  mkInput id PublicKeyHashInput txid 0 4294967295 []
    (Some (mkOutput (id + 1) payScript amount amount)) [].

Definition signedInput (id : nat) (txid : Buffer) (amount : Z) : Input :=
  set_input_signatures [aSignature] (fundedInput id txid amount).

(** An input as read from bytes: unclassified, without its spent output. *)
Definition bareInput (id : nat) (txid : Buffer) : Input :=
  mkInput id GenericInput txid 0 4294967295 [] None [].

Definition payment (id : nat) (amount : Z) : Output :=
  mkOutput id payScript amount amount.

(** One million satoshis in, no output yet. *)
Definition funded : Transaction :=
  mkTransaction [fundedInput 0 txid1 1000000] [] None None 1 0
    None None None None 10.

(** The same with a payment of 700,000 and a change script: the change
    output of 200,000 is tracked at index 1. *)
Definition withChange : Transaction :=
  mkTransaction [fundedInput 0 txid1 1000000]
    [payment 2 700000; mkOutput 3 changeScript 200000 200000]
    (Some 1000000) None 1 0 (Some changeScript) (Some 1) None None 10.

(** *** Inputs of the examples below *)

(** An explicit fee of 5 on the funded transaction. *)
Definition explicitFee : Transaction := set_fee (Some 5) funded.

(** A fee rate of 0 set on the funded transaction. *)
Definition zeroRate : Transaction := set_feePerKb (Some 0) funded.

(** 1,000 satoshis in, signed, and 2,000 out; only the check that the
    outputs do not exceed the inputs is disabled. *)
Definition overspent : Transaction :=
  mkTransaction [signedInput 0 txid1 1000] [payment 2 2000] None None 1 0
    None None None None 10.
Definition lenient : Options := mkOptions false false false false true.
Definition strict : Options := mkOptions false false false false false.

(** Two outputs: the first valid but above the maximum amount of money,
    the second above the safe-integer bound, hence invalid. *)
Definition tooHighThenInvalid : Transaction :=
  mkTransaction [fundedInput 0 txid1 1000000]
    [payment 2 3000000000000000; payment 3 10000000000000000]
    None None 1 0 None None None None 10.

(** The same previous output spent twice. *)
Definition doubleSpend : Transaction :=
  mkTransaction [fundedInput 0 txid1 1000; fundedInput 2 txid1 1000]
    [payment 4 1500] None None 1 0 None None None None 10.

(** Two different previous outputs whose transaction ids differ in bytes
    that are not ASCII. *)
Definition txid3 : Buffer := [x11; x22; x33; x80].
Definition txid4 : Buffer := [x11; x22; x33; x81].
Definition twoSpends : Transaction :=
  mkTransaction [fundedInput 0 txid3 1000; fundedInput 2 txid4 1000]
    [payment 4 1500] None None 1 0 None None None None 10.

(** One payment, locked until a time in the year 2128, which
    [lockUntilDate] accepts and which does not fit the 32 bits of the
    encoded lock time. *)
Definition lockedFar : Transaction :=
  mkTransaction [fundedInput 0 txid1 1000000] [payment 2 5000] None None 1
    5000000000 None None None None 10.

(** One payment of 5,000 and no change script. *)
Definition onePayment : Transaction := set_outputs [payment 2 5000] funded.

(** A signed input and no change script. *)
Definition signedNoChange : Transaction :=
  set_inputs [signedInput 0 txid1 1000000] funded.

(** A classified input followed by one that lacks its spent output. *)
Definition missingUtxoInfo : Transaction :=
  set_inputs [fundedInput 0 txid1 1000000; bareInput 7 txid2] funded.

(** One input that carries its spent output of 1,000,000 but is of the
    unclassified variant, and a payment of 900,000: the 100,000 left are
    the estimated fee. *)
Definition unclassifiedFunded : Transaction :=
  mkTransaction
    [mkInput 0 GenericInput txid1 0 4294967295 []
       (Some (mkOutput 1 payScript 1000000 1000000)) []]
    [payment 2 900000] None None 1 0 None None None None 10.

(** A pay-to-public-key-hash input that does not carry its spent
    output. *)
Definition classifiedBare (id : nat) (txid : Buffer) : Input :=
  mkInput id PublicKeyHashInput txid 0 4294967295 [] None [].

(** Snapshots with one pay-to-public-key-hash input of 1,000,000: a
    payment of 700,000 and a change script without change index; no output
    and a change script of 1,000 bytes. *)
Definition fundedInputObject : InputObject :=
  mkInputObject (string_of_list_byte txid1) 0 4294967295 EmptyString
    (Some (mkOutputObject 1000000 (string_of_list_byte payScript)))
    None None None.
Definition snapshotWithScript : TransactionObject :=
  mkTransactionObject None 1 [fundedInputObject]
    [mkOutputObject 700000 (string_of_list_byte payScript)] 0
    (Some (string_of_list_byte changeScript)) None None.
Definition longScript : Script := replicate 1000 x51.
Definition snapshotLongScript : TransactionObject :=
  mkTransactionObject None 1 [fundedInputObject] [] 0
    (Some (string_of_list_byte longScript)) None None.

(** A snapshot with a change index and no change script. *)
Definition snapshotIndexOnly : TransactionObject :=
  mkTransactionObject None 1 []
    [mkOutputObject 5000 "xyz"; mkOutputObject 6000 "abc"] 0
    None (Some 1) None.

(** Snapshots: change at index 0 and fee 0; change at index 1 and fee 7. *)
Definition snapshotZero : TransactionObject :=
  mkTransactionObject None 1 [] [mkOutputObject 5000 "abc"] 0
    (Some "abc"%string) (Some 0) (Some 0).
Definition snapshotOne : TransactionObject :=
  mkTransactionObject None 1 []
    [mkOutputObject 5000 "xyz"; mkOutputObject 6000 "abc"] 0
    (Some "abc"%string) (Some 1) (Some 7).

End Demo.

(** ** Further methods of the module *)

(** The argument of [serialize]: [true], an object of flags, or nothing. *)
Inductive SerializeArg :=
| Unsafe_true
| Unsafe_flags (disableAll : bool) (opts : Options)
| Unsafe_undefined.

(** The flags of [{}]: every check enabled. *)
Definition noFlags : Options := mkOptions false false false false false.

(** Every named check disabled (but not [disableAll]). *)
Definition allChecksDisabled : Options := mkOptions true true true true true.

Section Serialization.

Context `{Collaborators}.

(** [toString], also known as [uncheckedSerialize]. *)
Definition toString (t : Transaction) : Result string :=
  Result_map Buffer_toHex (toBuffer t).
Definition uncheckedSerialize : M string :=
  this <- gets (fun t => t) ;;
  lift (toString this).

Definition checkedSerialize (opts : option Options) : M string :=
  serializationError <- getSerializationError (default noFlags opts) ;;
  match serializationError with
  | Some e => throw e
  | None => uncheckedSerialize
  end.

Definition serialize (unsafe : SerializeArg) : M string :=
  match unsafe with
  | Unsafe_true => uncheckedSerialize
  | Unsafe_flags true _ => uncheckedSerialize
  | Unsafe_flags false opts => checkedSerialize (Some opts)
  | Unsafe_undefined => checkedSerialize None
  end.

End Serialization.

(** *** Further example objects *)

Module Examples.

Import Demo.

(** The funded transaction after a payment of 700,000 and [change]. *)
Definition paidWithChange : Result Transaction :=
  exec (addOutput (payment 2 700000) ;;; change (Some "b"%string)) funded.

(** Two references to one input object, and another input. *)
Definition aliasedInputs : Transaction :=
  set_inputs [fundedInput 0 txid1 1000; fundedInput 2 txid2 500;
              fundedInput 0 txid1 1000] funded.

(** A payment of 700,000 on the funded transaction, all signed, with an
    explicit fee of 300,000, which is what is left unspent. *)
Definition exactFee : Transaction :=
  mkTransaction [signedInput 0 txid1 1000000] [payment 2 700000] None None 1 0
    None None (Some 300000) None 10.

End Examples.

(** ** Lock time, replace-by-fee, ordering, funding and decoding *)

(** An unspent output, as [new UnspentOutput(descriptor)] normalises it. *)
Record UnspentOutput := mkUnspentOutput {
  utxo_txId : string;
  utxo_outputIndex : Z;
  utxo_script : Script;
  utxo_satoshis : Z
}.

(** The descriptor given to [from]: the method itself reads [txId] and
    [outputIndex]; the other spellings ([txid], [vout], as [listunspent]
    prints them) and the rest are read by [UnspentOutput] only. *)
Record Descriptor := mkDescriptor {
  d_txId : option string;
  d_outputIndex : option Z;
  d_txid : option string;
  d_vout : option Z;
  d_script : ScriptArg;
  d_satoshis : Z
}.

(** More collaborators: constants of [Input], the matcher that lodash
    builds from an object ([_.matches]), script recognition and object
    construction used by [from], and the byte reader.  A reader is the
    buffer that is left to read. *)
Class MoreCollaborators := {
  Input_MAXINT : Z;
  Input_DEFAULT_SEQNUMBER : Z;
  Input_DEFAULT_LOCKTIME_SEQNUMBER : Z;
  Input_DEFAULT_RBF_SEQNUMBER : Z;
  (* [lodash_matches source object]: [_.matches(source)(object)] *)
  lodash_matches : Output -> Output -> bool;
  Script_isMultisigOut : Script -> bool;
  UnspentOutput_new : Descriptor -> Result UnspentOutput;
  (* [new Clazz({output, prevTxId, outputIndex, script: Script.empty()},
     pubkeys, threshold)] *)
  Input_new :
    InputKind -> Output -> string -> Z -> option (list Buffer) -> option Z ->
    Result Input;
  readInt32LE : Buffer -> Result (Z * Buffer);
  readUInt32LE : Buffer -> Result (Z * Buffer);
  readVarintNum : Buffer -> Result (Z * Buffer);
  Input_fromBufferReader : Buffer -> Result (Input * Buffer);
  Output_fromBufferReader : Buffer -> Result (Output * Buffer)
}.

Definition set_input_sequenceNumber (n : Z) (i : Input) : Input :=
  mkInput (iid i) (kind i) (prevTxId i) (outputIndex i) n
    (_scriptBuffer i) (output i) (signatures i).

Definition NLOCKTIME_BLOCKHEIGHT_LIMIT : Z := 500000000.

(** The argument of [lockUntilDate]: a number of seconds, or a [Date],
    taken at a whole number of seconds so that [getTime() / 1000] is an
    integer. *)
Inductive TimeArg :=
| TimeNumber (n : Z)
| TimeDate (seconds : Z).

Inductive LockResult :=
| Locked (t : Transaction)
| Lock_InvalidArgument
| LockTimeTooEarly
| BlockHeightTooHigh
| NLockTimeOutOfRange.

(** The value of [getLockTime()]: [null], a block height, or a [Date]
    given by its milliseconds. *)
Inductive LockTime :=
| LockTime_null
| LockTime_height (height : Z)
| LockTime_date (milliseconds : Z).

(** [Buffer.compare]: lexicographic order of the bytes, as -1, 0 or 1. *)
Fixpoint Buffer_compare (a b : Buffer) : Z :=
  match a, b with
  | [], [] => 0
  | [], _ :: _ => -1
  | _ :: _, [] => 1
  | x :: a', y :: b' =>
      if (Byte.to_N x <? Byte.to_N y)%N then -1
      else if (Byte.to_N y <? Byte.to_N x)%N then 1
      else Buffer_compare a' b'
  end.

(** [array.sort(compare)] for a comparison that orders the elements: the
    stable sort, here by insertion from the right. *)
Fixpoint insertSorted {A} (compare : A -> A -> Z) (x : A) (l : list A) : list A :=
  match l with
  | [] => [x]
  | y :: l' =>
      if compare x y <=? 0 then x :: y :: l'
      else y :: insertSorted compare x l'
  end.

Definition Array_sort {A} (compare : A -> A -> Z) (l : list A) : list A :=
  foldr (insertSorted compare) [] l.

(** The comparisons of [sort()]: [a || b] is [b] when [a] is zero. *)
Definition compareInputs (first second : Input) : Z :=
  let c := Buffer_compare (prevTxId first) (prevTxId second) in
  if truthy c then c else outputIndex first - outputIndex second.

Definition compareOutputs (first second : Output) : Z :=
  let d := satoshis first - satoshis second in
  if truthy d then d else Buffer_compare (script first) (script second).

Inductive SortResult :=
| Sorted_ (t : Transaction)
| Sort_InvalidSorting
| Sort_raised (e : Error).

(** The argument of [from]: one descriptor or an array of them. *)
Inductive FromArg :=
| FromOne (d : Descriptor)
| FromMany (l : list Descriptor).

(** The outcome of [from]: besides the errors of the module, the plain
    [Error('@TODO')] for a script that is neither multisig nor script
    hash. *)
Inductive FromResult :=
| From_done (t : Transaction)
| From_raised (e : Error)
| From_TODO.

Section FurtherMethods.

Context `{Collaborators} `{MoreCollaborators}.

(** *** Lock time *)

(** The [forEach] of the lock methods, on one input. *)
Definition enableLockTime (input : Input) : Input :=
  if sequenceNumber input =? Input_DEFAULT_SEQNUMBER
  then set_input_sequenceNumber Input_DEFAULT_LOCKTIME_SEQNUMBER input
  else input.

Definition lockUntilDate (time : TimeArg) (t : Transaction) : LockResult :=
  match time with
  | TimeNumber n =>
      if negb (truthy n) then Lock_InvalidArgument
      else if n <? NLOCKTIME_BLOCKHEIGHT_LIMIT then LockTimeTooEarly
      else Locked (set_nLockTime n (set_inputs (map enableLockTime (inputs t)) t))
  | TimeDate seconds =>
      Locked (set_nLockTime seconds
                (set_inputs (map enableLockTime (inputs t)) t))
  end.

Definition lockUntilBlockHeight (height : Z) (t : Transaction) : LockResult :=
  if NLOCKTIME_BLOCKHEIGHT_LIMIT <=? height then BlockHeightTooHigh
  else if height <? 0 then NLockTimeOutOfRange
  else Locked (set_nLockTime height
                 (set_inputs (map enableLockTime (inputs t)) t)).

Definition getLockTime (t : Transaction) : LockTime :=
  if negb (truthy (nLockTime t)) then LockTime_null
  else if nLockTime t <? NLOCKTIME_BLOCKHEIGHT_LIMIT
  then LockTime_height (nLockTime t)
  else LockTime_date (1000 * nLockTime t).

(** *** Replace-by-fee *)

Definition isRBF (t : Transaction) : bool :=
  existsb (fun input => sequenceNumber input <? Input_MAXINT - 1) (inputs t).

Definition enableRBF (t : Transaction) : Transaction :=
  set_inputs
    (map (fun input =>
            if Input_MAXINT - 1 <=? sequenceNumber input
            then set_input_sequenceNumber Input_DEFAULT_RBF_SEQNUMBER input
            else input)
       (inputs t)) t.

(** *** Ordering *)

Definition sortInputs (sortingFunction : list Input -> list Input) : M unit :=
  modify (fun t => set_inputs (sortingFunction (inputs t)) t) ;;;
  _clearSignatures.

(** [_.difference(array, values)]: the elements of [array] that are not
    among [values], compared by reference. *)
Definition difference (array values : list Output) : list Output :=
  List.filter (fun o => negb (existsb (same_output o) values)) array.

Definition _newOutputOrder (newOutputs : list Output) (t : Transaction)
  : SortResult :=
  let isInvalidSorting :=
    negb (Nat.eqb (length (outputs t)) (length newOutputs))
    || negb (Nat.eqb (length (difference (outputs t) newOutputs)) 0) in
  if isInvalidSorting then Sort_InvalidSorting
  else
    let t1 :=
      match _changeIndex t with
      | Some i =>
          set_changeIndex
            (Some
               match js_index (outputs t) i with
               | Some changeOutput =>
                   findIndex (lodash_matches changeOutput) newOutputs
               | None =>
                   (* no predicate: the first truthy element *)
                   findIndex (fun _ => true) newOutputs
               end) t
      | None => t
      end in
    Sorted_ (set_outputs newOutputs t1).

Definition sortOutputs (sortingFunction : list Output -> list Output)
  (t : Transaction) : SortResult :=
  _newOutputOrder (sortingFunction (outputs t)) t.

Definition sort (t : Transaction) : SortResult :=
  match sortInputs (Array_sort compareInputs) t with
  | Throw e => Sort_raised e
  | Ok (_, t1) => sortOutputs (Array_sort compareOutputs) t1
  end.

(** *** Funding from unspent outputs *)

Definition from_one
  (txs : Descriptor) (pubkeys : option (list Buffer)) (threshold : option Z)
  (t : Transaction) : FromResult :=
  let utxoExists :=
    existsb
      (fun input =>
         match d_txId txs with
         | Some txId => String.eqb (Buffer_toHex (prevTxId input)) txId
         | None => false
         end
         && match d_outputIndex txs with
            | Some k => outputIndex input =? k
            | None => false
            end)
      (inputs t) in
  match UnspentOutput_new txs with
  | Throw e => From_raised e
  | Ok utxo =>
      if utxoExists then From_done t
      else
        let add (clazz : InputKind) : FromResult :=
          match
            (o <- Output_new (utxo_script utxo) (utxo_satoshis utxo) ;;
             input <- lift (Input_new clazz o (utxo_txId utxo)
                              (utxo_outputIndex utxo) pubkeys threshold) ;;
             n <- alloc ;;
             addInput (set_input_iid n input) None None) t
          with
          | Ok (_, t') => From_done t'
          | Throw e => From_raised e
          end in
        if truthy pubkeys && truthy threshold then
          if negb (default 0 threshold
                   <=? Z.of_nat (length (default [] pubkeys)))
          then From_raised InvalidArgument
          else if Script_isMultisigOut (utxo_script utxo)
          then add MultiSigInput
          else if Script_isScriptHashOut (utxo_script utxo)
          then add MultiSigScriptHashInput
          else From_TODO
        else if Script_isPublicKeyHashOut (utxo_script utxo)
        then add PublicKeyHashInput
        else if Script_isPublicKeyOut (utxo_script utxo)
        then add PublicKeyInput
        else add GenericInput
  end.

Fixpoint from_each
  (l : list Descriptor) (pubkeys : option (list Buffer)) (threshold : option Z)
  (t : Transaction) : FromResult :=
  match l with
  | [] => From_done t
  | txs :: l' =>
      match from_one txs pubkeys threshold t with
      | From_done t' => from_each l' pubkeys threshold t'
      | failure => failure
      end
  end.

Definition from
  (txs : FromArg) (pubkeys : option (list Buffer)) (threshold : option Z)
  (t : Transaction) : FromResult :=
  match txs with
  | FromOne d => from_one d pubkeys threshold t
  | FromMany l => from_each l pubkeys threshold t
  end.

(** *** Decoding *)

Fixpoint readInputs (n : nat) (reader : Buffer) : M Buffer :=
  match n with
  | O => ret reader
  | S n' =>
      r <- lift (Input_fromBufferReader reader) ;;
      id <- alloc ;;
      modify (fun t => set_inputs (inputs t ++ [set_input_iid id (fst r)]) t) ;;;
      readInputs n' (snd r)
  end.

Fixpoint readOutputs (n : nat) (reader : Buffer) : M Buffer :=
  match n with
  | O => ret reader
  | S n' =>
      r <- lift (Output_fromBufferReader reader) ;;
      id <- alloc ;;
      modify (fun t =>
        set_outputs
          (outputs t
           ++ [mkOutput id (script (fst r)) (satoshis (fst r))
                 (_satoshisBN (fst r))]) t) ;;;
      readOutputs n' (snd r)
  end.

(** [fromBufferReader]; the value is what is left of the reader. *)
Definition fromBufferReader (reader : Buffer) : M Buffer :=
  lift (checkArgument (negb (bool_decide (reader = [])))) ;;;
  v <- lift (readInt32LE reader) ;;
  modify (set_version (fst v)) ;;;
  sizeTxIns <- lift (readVarintNum (snd v)) ;;
  reader1 <- readInputs (Z.to_nat (fst sizeTxIns)) (snd sizeTxIns) ;;
  sizeTxOuts <- lift (readVarintNum reader1) ;;
  reader2 <- readOutputs (Z.to_nat (fst sizeTxOuts)) (snd sizeTxOuts) ;;
  l <- lift (readUInt32LE reader2) ;;
  modify (set_nLockTime (fst l)) ;;;
  ret (snd l).

Definition fromBuffer (buffer : Buffer) : M unit :=
  fromBufferReader buffer ;;; ret tt.

(** [new Transaction(buffer)]: a buffer is truthy and is not a hexadecimal
    string, so the constructor decodes it into the object it starts from. *)
Definition Transaction_fromBuffer (buffer : Buffer) : Result Transaction :=
  exec (fromBuffer buffer) blankTransaction.

Definition shallowCopy (transaction : Transaction) : Result Transaction :=
  Result_bind (toBuffer transaction) Transaction_fromBuffer.

End FurtherMethods.

(** *** Notions for the further properties *)

(** Each element is at most its successor, for a comparison. *)
Fixpoint orderedBy {A} (compare : A -> A -> Z) (l : list A) : bool :=
  match l with
  | x :: (y :: _) as l' => (compare x y <=? 0) && orderedBy compare l'
  | _ => true
  end.

(** The coordinates of the previous output an input spends. *)
Definition coordinates (i : Input) : Buffer * Z := (prevTxId i, outputIndex i).

(** What a transaction holds besides its encoded fields is the same in
    two states. *)
Definition sameSettings (s s' : Transaction) : Prop :=
  _changeScript s' = _changeScript s /\ _changeIndex s' = _changeIndex s
  /\ _fee s' = _fee s /\ _feePerKb s' = _feePerKb s
  /\ _inputAmount s' = _inputAmount s /\ _outputAmount s' = _outputAmount s.

(** A tracked change output is the last output. *)
Definition changeLast (t : Transaction) : Prop :=
  forall i, _changeIndex t = Some i ->
    i = Z.of_nat (length (outputs t)) - 1.

Section FurtherNotions.

Context `{Collaborators}.

(** An input spends the output that a descriptor names, as [from] compares
    them: the hexadecimal text of the transaction id with [txId], and the
    output index with [outputIndex]. *)
Definition spendsDescribed (txs : Descriptor) (input : Input) : bool :=
  match d_txId txs with
  | Some txId => String.eqb (Buffer_toHex (prevTxId input)) txId
  | None => false
  end
  && match d_outputIndex txs with
     | Some k => outputIndex input =? k
     | None => false
     end.

End FurtherNotions.

Section DecodingNotions.

Context `{Collaborators} `{MoreCollaborators}.

(** A reader that inverts the writer on an input, up to the identity of
    the object that is read. *)
Definition readsBackInput (i : Input) : Prop :=
  forall encoding r,
    Input_toBuffer i = Ok encoding ->
    exists i',
      Input_fromBufferReader (encoding ++ r) = Ok (i', r)
      /\ forall n, Input_toBuffer (set_input_iid n i') = Ok encoding.

Definition readsBackOutput (o : Output) : Prop :=
  forall encoding r,
    Output_toBuffer o = Ok encoding ->
    exists o',
      Output_fromBufferReader (encoding ++ r) = Ok (o', r)
      /\ forall n,
           Output_toBuffer (mkOutput n (script o') (satoshis o') (_satoshisBN o'))
           = Ok encoding.

End DecodingNotions.

(** ** A concrete set of the further collaborators

    Stand-ins to run the further methods on examples: the sequence numbers
    of the reference implementation, a matcher that compares outputs by
    content, unspent outputs taken from either spelling of the descriptor,
    and a byte reader for the format that the demo writer produces, with
    transaction ids of 32 bytes. *)

Module DemoMore.

Import Demo.

Definition andThen {A B} (r : Result A) (k : A -> Result B) : Result B :=
  match r with
  | Ok a => k a
  | Throw e => Throw e
  end.

Definition fromLittleEndian (b : Buffer) : Z :=
  foldr (fun x acc => Z.of_N (Byte.to_N x) + 256 * acc) 0 b.

Definition readBytes (n : nat) (reader : Buffer) : Result (Buffer * Buffer) :=
  if Nat.ltb (length reader) n then Throw InvalidArgument
  else Ok (take n reader, drop n reader).

Definition readLittleEndian (n : nat) (reader : Buffer) : Result (Z * Buffer) :=
  andThen (readBytes n reader) (fun r => Ok (fromLittleEndian (fst r), snd r)).

Definition readSigned32 (reader : Buffer) : Result (Z * Buffer) :=
  andThen (readLittleEndian 4 reader) (fun r =>
    Ok (if fst r <? 2147483648 then fst r else fst r - 4294967296, snd r)).

Definition readVarint (reader : Buffer) : Result (Z * Buffer) :=
  match reader with
  | [] => Throw InvalidArgument
  | x :: rest =>
      match Byte.to_N x with
      | 253%N => readLittleEndian 2 rest
      | 254%N => readLittleEndian 4 rest
      | 255%N => readLittleEndian 8 rest
      | n => Ok (Z.of_N n, rest)
      end
  end.

Definition readInput (reader : Buffer) : Result (Input * Buffer) :=
  andThen (readBytes 32 reader) (fun txid =>
  andThen (readLittleEndian 4 (snd txid)) (fun index =>
  andThen (readVarint (snd index)) (fun size =>
  andThen (readBytes (Z.to_nat (fst size)) (snd size)) (fun unlock =>
  andThen (readLittleEndian 4 (snd unlock)) (fun sequence =>
    Ok (mkInput 0 GenericInput (fst txid) (fst index) (fst sequence)
          (fst unlock) None [], snd sequence)))))).

Definition readOutput (reader : Buffer) : Result (Output * Buffer) :=
  andThen (readLittleEndian 8 reader) (fun amount =>
  andThen (readVarint (snd amount)) (fun size =>
  andThen (readBytes (Z.to_nat (fst size)) (snd size)) (fun lock =>
    Ok (mkOutput 0 (fst lock) (fst amount) (fst amount), snd lock)))).

Definition hexValue (c : Ascii.ascii) : N :=
  let n := Ascii.N_of_ascii c in
  if (n <? 58)%N then (n - 48)%N else (n - 87)%N.

Fixpoint fromHex (s : string) : Buffer :=
  match s with
  | String a (String b s') =>
      default x00 (Byte.of_N (16 * hexValue a + hexValue b)) :: fromHex s'
  | _ => []
  end.

Definition sameContent (a b : Output) : bool :=
  bool_decide (script a = script b)
  && (satoshis a =? satoshis b) && (_satoshisBN a =? _satoshisBN b).

Definition unspentOutput (d : Descriptor) : Result UnspentOutput :=
  match (match d_txid d with Some s => Some s | None => d_txId d end),
        (match d_vout d with Some k => Some k | None => d_outputIndex d end)
  with
  | Some txId, Some k =>
      if d_satoshis d <? 0 then Throw InvalidArgument
      else
        andThen
          match d_script d with
          | ScriptObject s => Ok s
          | ScriptText txt => Script_fromString txt
          end
          (fun s => Ok (mkUnspentOutput txId k s (d_satoshis d)))
  | _, _ => Throw InvalidArgument
  end.

Definition newInput
  (clazz : InputKind) (o : Output) (txId : string) (k : Z)
  (pubkeys : option (list Buffer)) (threshold : option Z) : Result Input :=
  Ok (mkInput 0 clazz (fromHex txId) k 4294967295 [] (Some o) []).

#[global] Instance moreCollaborators : MoreCollaborators := {|
  Input_MAXINT := 4294967295;
  Input_DEFAULT_SEQNUMBER := 4294967295;
  Input_DEFAULT_LOCKTIME_SEQNUMBER := 4294967294;
  Input_DEFAULT_RBF_SEQNUMBER := 4294967293;
  lodash_matches := sameContent;
  Script_isMultisigOut := fun s => bool_decide (last s = Some xae);
  UnspentOutput_new := unspentOutput;
  Input_new := newInput;
  readInt32LE := readSigned32;
  readUInt32LE := readLittleEndian 4;
  readVarintNum := readVarint;
  Input_fromBufferReader := readInput;
  Output_fromBufferReader := readOutput
|}.

(** *** Example objects *)

Definition longTxid1 : Buffer := replicate 32 x11.
Definition longTxid2 : Buffer := replicate 32 x22.

(** Two inputs out of order, the second signed; three outputs out of
    order, the change output tracked at index 0. *)
Definition unsorted : Transaction :=
  mkTransaction
    [signedInput 0 longTxid2 600000; fundedInput 2 longTxid1 400000]
    [mkOutput 6 changeScript 200000 200000; payment 4 700000;
     payment 5 90000]
    (Some 1000000) None 1 0 (Some changeScript) (Some 0) None None 10.

(** A payment to the change address of the amount of the change, in
    front of the tracked change output. *)
Definition twinOfChange : Transaction :=
  mkTransaction [fundedInput 0 longTxid1 1000000]
    [mkOutput 2 changeScript 200000 200000;
     mkOutput 3 changeScript 200000 200000]
    (Some 1000000) None 1 0 (Some changeScript) (Some 1) None None 10.

(** One object referenced at both positions of the outputs. *)
Definition aliasedOutputs : Transaction :=
  set_outputs [payment 2 5000; payment 2 5000] funded.

(** A descriptor in the format of the library, and one as [listunspent]
    prints it. *)
Definition descriptor : Descriptor :=
  mkDescriptor (Some "a1b2"%string) (Some 1) None None
    (ScriptObject payScript) 50000.
Definition listunspent : Descriptor :=
  mkDescriptor None None (Some "a1b2"%string) (Some 1)
    (ScriptObject payScript) 50000.

(** The encoding of a transaction with no input and one payment of
    700,000. *)
Definition paymentBytes : Buffer :=
  Eval vm_compute in
    match
      toBuffer (mkTransaction [] [payment 0 700000] None None 1 0
                  None None None None 0)
    with
    | Ok encoding => encoding
    | Throw _ => []
    end.

(** The funded transaction after its output total was read, and memoized
    as 0, and the payment was then read from bytes into it; the same with
    a signed input and an explicit fee of 300,000. *)
Definition readOverMemo : Result Transaction :=
  exec (_getOutputAmount ;;; fromBuffer paymentBytes) funded.
Definition readOverMemoWithFee : Result Transaction :=
  exec (_getOutputAmount ;;; fromBuffer paymentBytes ;;; fee 300000)
    signedNoChange.

(** As read from bytes: two inputs, two outputs, locked until block
    height 650,000. *)
Definition decoded : Transaction :=
  mkTransaction
    [mkInput 0 GenericInput longTxid1 1 4294967294 [x51; x52] None [];
     mkInput 1 GenericInput longTxid2 0 4294967295 [] None []]
    [payment 2 700000; mkOutput 3 changeScript 200000 200000]
    None None 2 650000 None None None None 4.

End DemoMore.

(** * Properties *)

Section Properties.

Context `{Collaborators}.

(** ** What a call gives, operation by operation *)

Lemma run_bind {A B} (m : M A) (k : A -> M B) (t : Transaction) :
  (x <- m ;; k x) t
  = match m t with
    | Ok (a, t') => k a t'
    | Throw e => Throw e
    end.
Proof. reflexivity. Qed.

Lemma after_bind {A B} (m : M A) (k : A -> M B) (t : Transaction) :
  after (x <- m ;; k x) t
  = match m t with
    | Ok (a, t') => after (k a) t'
    | Throw _ => after m t
    end.
Proof. reflexivity. Qed.

Lemma run_ret {A} (a : A) (t : Transaction) : ret a t = Ok (a, t).
Proof. reflexivity. Qed.

Lemma run_throw {A} (e : Error) (t : Transaction) : @throw A e t = Throw e.
Proof. reflexivity. Qed.

Lemma run_gets {A} (f : Transaction -> A) (t : Transaction) :
  gets f t = Ok (f t, t).
Proof. reflexivity. Qed.

Lemma run_modify (f : Transaction -> Transaction) (t : Transaction) :
  modify f t = Ok (tt, f t).
Proof. reflexivity. Qed.

Lemma run_lift {A} (r : Result A) (t : Transaction) :
  lift r t = match r with Ok a => Ok (a, t) | Throw e => Throw e end.
Proof. reflexivity. Qed.

Lemma set_inputs_twice (a b : list Input) (t : Transaction) :
  set_inputs a (set_inputs b t) = set_inputs a t.
Proof. reflexivity. Qed.

Lemma set_inputAmount_twice (a b : option Z) (t : Transaction) :
  set_inputAmount a (set_inputAmount b t) = set_inputAmount a t.
Proof. reflexivity. Qed.

Lemma run_clearSignaturesFrom
  (ins pre : list Input) (s : Transaction) :
  inputs s = pre ++ ins ->
  clearSignaturesFrom (length pre) ins s
  = match mapM_Result Input_clearSignatures ins with
    | Ok ins' => Ok (tt, set_inputs (pre ++ ins') s)
    | Throw e => Throw e
    end.
Proof.
  revert pre s. induction ins as [|input ins IH]; intros pre s Hs.
  - cbn [clearSignaturesFrom mapM_Result]. rewrite run_ret, <- Hs.
    by destruct s.
  - cbn [clearSignaturesFrom mapM_Result]. rewrite run_bind, run_lift.
    destruct (Input_clearSignatures input) as [input'|e]; [|done].
    rewrite run_bind, run_modify.
    replace (S (length pre)) with (length (pre ++ [input']))
      by (rewrite length_app; cbn [length]; lia).
    rewrite IH.
    + destruct (mapM_Result Input_clearSignatures ins) as [ins'|e]; [|done].
      by rewrite set_inputs_twice, <- app_assoc.
    + cbn [inputs set_inputs]. rewrite Hs.
      rewrite insert_app_r_alt by lia. rewrite Nat.sub_diag.
      by rewrite <- app_assoc.
Qed.

Lemma run_clearSignatures (t : Transaction) :
  _clearSignatures t
  = match mapM_Result Input_clearSignatures (inputs t) with
    | Ok ins' => Ok (tt, set_inputs ins' t)
    | Throw e => Throw e
    end.
Proof.
  unfold _clearSignatures. rewrite run_bind, run_gets.
  exact (run_clearSignaturesFrom (inputs t) [] t eq_refl).
Qed.

Lemma run_inputAmount_loop (ins : list Input) (acc : Z) (s : Transaction) :
  _inputAmount s = Some acc ->
  forEach (fun input =>
    match output input with
    | None => throw MissingPreviousOutput
    | Some o =>
        modify (fun t =>
          set_inputAmount (Some (default 0 (_inputAmount t) + satoshis o)) t)
    end) ins s
  = match sumInputAmounts ins acc with
    | Ok v => Ok (tt, set_inputAmount (Some v) s)
    | Throw e => Throw e
    end.
Proof.
  revert acc s. induction ins as [|input ins IH]; intros acc s Hs.
  - cbn [forEach sumInputAmounts]. rewrite run_ret, <- Hs. by destruct s.
  - cbn [forEach sumInputAmounts]. rewrite run_bind.
    destruct (output input) as [o|]; [|done].
    rewrite run_modify, Hs. cbn [default].
    rewrite (IH (acc + satoshis o)) by reflexivity.
    destruct (sumInputAmounts ins (acc + satoshis o)); [|done].
    by rewrite set_inputAmount_twice.
Qed.

Lemma run_getInputAmount (t : Transaction) :
  _getInputAmount t
  = match _inputAmount t with
    | Some v => Ok (v, t)
    | None =>
        match sumInputAmounts (inputs t) 0 with
        | Ok v => Ok (v, set_inputAmount (Some v) t)
        | Throw e => Throw e
        end
    end.
Proof.
  unfold _getInputAmount. rewrite run_bind, run_gets.
  destruct (_inputAmount t) as [v|] eqn:Hv; [by rewrite run_ret|].
  rewrite run_bind, run_modify, run_bind, run_gets, run_bind.
  cbn [inputs set_inputAmount].
  rewrite (run_inputAmount_loop (inputs t) 0) by reflexivity.
  destruct (sumInputAmounts (inputs t) 0) as [v|e]; [|done].
  rewrite run_gets, set_inputAmount_twice. reflexivity.
Qed.

(** ** Sums and folds *)

Lemma fold_left_sumZ {A} (f : A -> Z) (l : list A) (a : Z) :
  fold_left (fun acc x => acc + f x) l a = a + sumZ f l.
Proof.
  revert a. induction l as [|x l IH]; intros a; simpl.
  - lia.
  - rewrite IH. unfold sumZ. simpl. lia.
Qed.

Lemma sumZ_app {A} (f : A -> Z) (l1 l2 : list A) :
  sumZ f (l1 ++ l2) = sumZ f l1 + sumZ f l2.
Proof.
  unfold sumZ. induction l1 as [|x l1 IH]; simpl; [lia|]. rewrite IH. lia.
Qed.

Lemma sumInputAmounts_total (ins : list Input) (acc : Z) :
  forallb (fun i => bool_decide (is_Some (output i))) ins = true ->
  sumInputAmounts ins acc
  = Ok (acc + sumZ (fun i => match output i with
                             | Some o => satoshis o
                             | None => 0
                             end) ins).
Proof.
  revert acc. induction ins as [|i ins IH]; intros acc Hall; simpl in *.
  - f_equal. unfold sumZ. simpl. lia.
  - apply andb_prop in Hall as [Hi Hall].
    apply bool_decide_eq_true in Hi. destruct Hi as [o Ho].
    rewrite Ho. rewrite IH by done. f_equal. unfold sumZ. simpl. rewrite ?Ho. lia.
Qed.

Lemma sumInputAmounts_missing (ins : list Input) (acc : Z) :
  forallb (fun i => bool_decide (is_Some (output i))) ins = false ->
  sumInputAmounts ins acc = Throw MissingPreviousOutput.
Proof.
  revert acc. induction ins as [|i ins IH]; intros acc Hall; [discriminate|].
  cbn [forallb sumInputAmounts] in *.
  destruct (output i) as [o|]; [|reflexivity].
  rewrite bool_decide_eq_true_2 in Hall by eauto. by apply IH.
Qed.

Lemma sumInputAmounts_Ok_inv (ins : list Input) (acc v : Z) :
  sumInputAmounts ins acc = Ok v ->
  forallb (fun i => bool_decide (is_Some (output i))) ins = true.
Proof.
  revert acc. induction ins as [|i ins IH]; intros acc Hsum; simpl in *; [done|].
  destruct (output i) as [o|] eqn:Ho; [|discriminate].
  rewrite (IH _ Hsum), andb_true_r. apply bool_decide_eq_true. eauto.
Qed.

(** ** The memoizing getters *)

Lemma cachesConsistent_inv (t : Transaction) :
  cachesConsistent t = true ->
  (forall v, _inputAmount t = Some v -> sumInputAmounts (inputs t) 0 = Ok v)
  /\ (forall v, _outputAmount t = Some v -> v = outputAmountValue t).
Proof.
  unfold cachesConsistent, outputAmountValue. intros Hc.
  apply andb_prop in Hc as [Hi Ho]. split; intros v Hv; rewrite Hv in *.
  - destruct (sumInputAmounts (inputs t) 0) as [w|e]; [|discriminate].
    apply Z.eqb_eq in Hi. by subst.
  - by apply Z.eqb_eq in Ho.
Qed.

Lemma run_getUnspentValue (t : Transaction) :
  cachesConsistent t = true ->
  _getUnspentValue t
  = match unspentValue t with
    | Ok v => Ok (v, memoized t)
    | Throw e => Throw e
    end.
Proof.
  intros Hc. apply cachesConsistent_inv in Hc as [Hi Ho].
  unfold _getUnspentValue. rewrite run_bind, run_getInputAmount.
  unfold _getOutputAmount, unspentValue, memoized, outputAmountValue in *.
  unfold_monad. destruct t as [ins outs ia oa ver nl cs ci f fk hn]; simpl in *.
  destruct ia as [v|]; simpl; unfold_monad; simpl.
  - rewrite (Hi v eq_refl). destruct oa as [w|]; simpl; unfold_monad; simpl.
    + by rewrite (Ho w eq_refl).
    + done.
  - destruct (sumInputAmounts ins 0) as [v|e]; simpl; [|done].
    destruct oa as [w|]; simpl; unfold_monad; simpl;
      [by rewrite (Ho w eq_refl)|done].
Qed.

Lemma unspentValue_ext (t s : Transaction) :
  inputs t = inputs s -> outputs t = outputs s ->
  unspentValue t = unspentValue s.
Proof.
  intros Hi Ho. unfold unspentValue, outputAmountValue. by rewrite Hi, Ho.
Qed.

Lemma feeValue_ext (t s : Transaction) :
  inputs t = inputs s -> outputs t = outputs s ->
  _fee t = _fee s -> _feePerKb t = _feePerKb s ->
  _changeScript t = _changeScript s ->
  feeValue t = feeValue s.
Proof.
  intros Hi Ho Hf Hk Hc.
  unfold feeValue, estimateFeeValue, isCoinbase, _estimateSize.
  rewrite (unspentValue_ext t s Hi Ho). by rewrite Hi, Ho, Hf, Hk, Hc.
Qed.

Lemma memoized_fields (t : Transaction) :
  inputs (memoized t) = inputs t
  /\ outputs (memoized t) = outputs t
  /\ _fee (memoized t) = _fee t
  /\ _feePerKb (memoized t) = _feePerKb t
  /\ _changeScript (memoized t) = _changeScript t
  /\ _changeIndex (memoized t) = _changeIndex t
  /\ heapNext (memoized t) = heapNext t.
Proof.
  unfold memoized. by destruct (sumInputAmounts (inputs t) 0).
Qed.

Lemma memoized_consistent (t : Transaction) :
  cachesConsistent t = true -> cachesConsistent (memoized t) = true.
Proof.
  intros Hc. unfold memoized.
  destruct (sumInputAmounts (inputs t) 0) as [v|e] eqn:Hsum; [|done].
  unfold cachesConsistent, outputAmountValue. simpl. rewrite Hsum.
  by rewrite !Z.eqb_refl.
Qed.

Lemma memoized_idemp (t : Transaction) : memoized (memoized t) = memoized t.
Proof.
  unfold memoized.
  destruct (sumInputAmounts (inputs t) 0) as [v|e] eqn:Hsum; simpl.
  - by rewrite Hsum.
  - by rewrite Hsum.
Qed.

Lemma unspentValue_memoized (t : Transaction) :
  unspentValue (memoized t) = unspentValue t.
Proof. apply unspentValue_ext; apply memoized_fields. Qed.

Lemma feeValue_memoized (t : Transaction) :
  feeValue (memoized t) = feeValue t.
Proof. apply feeValue_ext; apply memoized_fields. Qed.

Lemma run_estimateFee (t : Transaction) :
  cachesConsistent t = true ->
  _estimateFee t
  = match estimateFeeValue t with
    | Ok v => Ok (v, memoized t)
    | Throw e => Throw e
    end.
Proof.
  intros Hc. unfold _estimateFee, estimateFeeValue. unfold_monad.
  rewrite (run_getUnspentValue t Hc).
  destruct (unspentValue t) as [a|e]; [|done].
  by destruct (memoized_fields t) as (_ & _ & _ & -> & _).
Qed.

Lemma run_getFee (t : Transaction) :
  cachesConsistent t = true ->
  getFee t
  = match feeValue t with
    | Ok v => Ok (v, feeState t)
    | Throw e => Throw e
    end.
Proof.
  intros Hc. unfold getFee, feeValue, feeState. unfold_monad.
  destruct (isCoinbase t); unfold_monad; [done|].
  destruct (_fee t) as [v|]; unfold_monad; [done|].
  destruct (negb (truthy (_changeScript t))).
  - apply (run_getUnspentValue t Hc).
  - apply (run_estimateFee t Hc).
Qed.

Lemma feeState_memoized (t : Transaction) :
  feeState (memoized t) = memoized t.
Proof.
  unfold feeState. destruct (isCoinbase (memoized t)); [done|].
  destruct (_fee (memoized t)); [done|]. apply memoized_idemp.
Qed.

Lemma cachesConsistent_outputAmount_reset (t : Transaction) :
  cachesConsistent t = true ->
  cachesConsistent (set_outputAmount None t) = true.
Proof.
  unfold cachesConsistent. destruct t; simpl. intros Hc.
  apply andb_prop in Hc as [-> _]. done.
Qed.

Lemma cachesConsistent_outputs_reset (t : Transaction) (outs : list Output) :
  cachesConsistent t = true ->
  cachesConsistent (set_outputAmount None (set_outputs outs t)) = true.
Proof.
  unfold cachesConsistent. destruct t; simpl. intros Hc.
  apply andb_prop in Hc as [-> _]. done.
Qed.

Lemma cachesConsistent_inputs_reset (t : Transaction) (ins : list Input) :
  cachesConsistent t = true ->
  cachesConsistent (set_inputAmount None (set_inputs ins t)) = true.
Proof.
  unfold cachesConsistent. destruct t; simpl. intros Hc.
  apply andb_prop in Hc as [_ ->]. done.
Qed.

(** ** Clearing the signatures *)

Lemma clearSignatures_inv (ins ins' : list Input) :
  mapM_Result Input_clearSignatures ins = Ok ins' ->
  ins' = map (set_input_signatures []) ins
  /\ forallb (fun i => match kind i with GenericInput => false | _ => true end)
             ins = true.
Proof.
  revert ins'. induction ins as [|i ins IH]; intros ins' Hm; simpl in *.
  - by inversion Hm.
  - unfold Input_clearSignatures in Hm at 1.
    destruct (kind i) eqn:Hk; try discriminate;
      (destruct (mapM_Result Input_clearSignatures ins) as [r|e];
       [|discriminate]);
      inversion Hm; subst; destruct (IH r eq_refl) as [-> ->]; done.
Qed.

Lemma clearSignatures_classified (ins : list Input) :
  forallb (fun i => match kind i with GenericInput => false | _ => true end)
          ins = true ->
  mapM_Result Input_clearSignatures ins
  = Ok (map (set_input_signatures []) ins).
Proof.
  induction ins as [|i ins IH]; intros Hall; simpl in *; [done|].
  apply andb_prop in Hall as [Hi Hall]. rewrite (IH Hall).
  unfold Input_clearSignatures. by destruct (kind i).
Qed.

Lemma sumInputAmounts_cleared (ins : list Input) (acc : Z) :
  sumInputAmounts (map (set_input_signatures []) ins) acc
  = sumInputAmounts ins acc.
Proof.
  revert acc. induction ins as [|i ins IH]; intros acc; simpl; [done|].
  destruct (output i); [apply IH|done].
Qed.

(** ** Change maintenance, as an equation *)

Lemma run_updateChangeOutput (t : Transaction) :
  cachesConsistent t = true ->
  _updateChangeOutput t
  = match _changeScript t with
    | None => Ok (tt, t)
    | Some changeScript =>
        match mapM_Result Input_clearSignatures (inputs t) with
        | Throw e => Throw e
        | Ok ins' =>
            let t2 := changeRemoved (set_inputs ins' t) in
            match unspentValue t2 with
            | Throw e => Throw e
            | Ok available =>
                match feeValue t2 with
                | Throw e => Throw e
                | Ok fee =>
                    Ok (tt,
                        if 0 <? available - fee
                        then changeAdded changeScript (available - fee)
                               (memoized t2)
                        else set_changeIndex None (memoized t2))
                end
            end
        end
    end.
Proof.
  intros Hc. unfold _updateChangeOutput. unfold_monad.
  destruct (_changeScript t) as [cs|] eqn:Hcs; unfold_monad; [|done].
  rewrite run_clearSignatures.
  destruct (mapM_Result Input_clearSignatures (inputs t)) as [ins'|e] eqn:Hclr;
    [|done].
  simpl.
  set (t1 := set_inputs ins' t).
  assert (Hc1 : cachesConsistent t1 = true).
  { apply clearSignatures_inv in Hclr as [-> _].
    unfold cachesConsistent in *. subst t1. simpl.
    by rewrite sumInputAmounts_cleared. }
  assert (Hrun :
    match _changeIndex t1 with
    | Some i => _removeOutput i
    | None => ret tt
    end t1 = Ok (tt, changeRemoved t1)).
  { unfold changeRemoved, _removeOutput. unfold_monad.
    destruct (_changeIndex t1); unfold_monad; [|done]. simpl.
    by destruct (js_index (outputs t1) z). }
  unfold ret in Hrun.
  replace (_changeIndex t) with (_changeIndex t1) by done.
  rewrite Hrun. clear Hrun.
  set (t2 := changeRemoved t1).
  assert (Hc2 : cachesConsistent t2 = true).
  { subst t2. unfold changeRemoved.
    destruct (_changeIndex t1) as [i|]; [|done].
    destruct (js_index (outputs t1) i).
    - by apply cachesConsistent_outputs_reset.
    - by apply cachesConsistent_outputAmount_reset. }
  rewrite (run_getUnspentValue t2 Hc2).
  destruct (unspentValue t2) as [available|e]; [|done].
  rewrite (run_getFee (memoized t2) (memoized_consistent t2 Hc2)).
  rewrite feeValue_memoized, feeState_memoized.
  destruct (feeValue t2) as [fee'|e]; [|done].
  destruct (0 <? available - fee') eqn:Hpos; [|done].
  unfold Output_new, alloc, _addOutput, checkArgument, isNaturalNumber.
  unfold_monad. simpl.
  assert (Hnat : truthy (0 <=? available - fee') = true).
  { unfold truthy, truthy_bool. apply Z.leb_le. apply Z.ltb_lt in Hpos. lia. }
  rewrite Hnat. simpl. do 2 f_equal.
Qed.

Lemma eval_getUnspentValue (t : Transaction) :
  cachesConsistent t = true -> eval _getUnspentValue t = unspentValue t.
Proof.
  intros Hc. unfold eval. rewrite (run_getUnspentValue t Hc).
  by destruct (unspentValue t).
Qed.

Lemma eval_getFee (t : Transaction) :
  cachesConsistent t = true -> eval getFee t = feeValue t.
Proof.
  intros Hc. unfold eval. rewrite (run_getFee t Hc). by destruct (feeValue t).
Qed.

Lemma js_index_last {A} (l : list A) (x : A) :
  js_index (l ++ [x]) (Z.of_nat (length l)) = Some x.
Proof.
  unfold js_index. replace (Z.of_nat (length l) <? 0) with false
    by (symmetry; apply Z.ltb_ge; lia).
  rewrite Nat2Z.id. rewrite lookup_app_r by lia. by rewrite Nat.sub_diag.
Qed.

Lemma delete_last {A} (l : list A) (x : A) :
  delete (length l) (l ++ [x]) = l.
Proof.
  induction l as [|y l IH]; simpl; [done|]. by rewrite IH.
Qed.

Lemma changeRemoved_fields (t : Transaction) :
  inputs (changeRemoved t) = inputs t
  /\ _fee (changeRemoved t) = _fee t
  /\ _feePerKb (changeRemoved t) = _feePerKb t
  /\ _changeScript (changeRemoved t) = _changeScript t.
Proof.
  unfold changeRemoved. destruct (_changeIndex t) as [i|]; [|done].
  by destruct (js_index (outputs t) i).
Qed.

(** ** The totals, as sums *)

Lemma outputAmountValue_total (t : Transaction) :
  outputAmountValue t = outputTotal t.
Proof.
  unfold outputAmountValue, outputTotal. rewrite fold_left_sumZ. lia.
Qed.

Lemma unspentValue_total (t : Transaction) :
  allUtxoInfo t = true ->
  unspentValue t = Ok (inputTotal t - outputTotal t).
Proof.
  intros Hall. unfold unspentValue, allUtxoInfo in *.
  rewrite (sumInputAmounts_total _ 0 Hall), outputAmountValue_total.
  unfold inputTotal. f_equal.
Qed.

Lemma unspentValue_missing (t : Transaction) :
  allUtxoInfo t = false ->
  unspentValue t = Throw MissingPreviousOutput.
Proof.
  intros Hall. unfold unspentValue, allUtxoInfo in *.
  by rewrite (sumInputAmounts_missing _ 0 Hall).
Qed.

Lemma Math_ceil_div_1000 (size : Z) : Math_ceil_div size 1000 = kilobytes size.
Proof. unfold Math_ceil_div, kilobytes. Z.div_mod_to_equations. lia. Qed.

Lemma fold_left_script_sizes (outs : list Output) (a : Z) :
  fold_left (fun acc o => acc + Z.of_nat (length (script o)) + 9) outs a
  = a + sumZ (fun o => Z.of_nat (length (script o)) + 9) outs.
Proof.
  revert a. induction outs as [|o outs IH]; intros a; simpl.
  - unfold sumZ. simpl. lia.
  - rewrite IH. unfold sumZ. simpl. lia.
Qed.

Lemma estimateSize_sum (t : Transaction) : _estimateSize t = estimatedSize t.
Proof.
  unfold _estimateSize, estimatedSize.
  by rewrite (fold_left_sumZ Input_estimateSize), fold_left_script_sizes.
Qed.

Lemma rate_of_code (t : Transaction) :
  js_or_default (_feePerKb t) FEE_PER_KB = rate_when_nonzero t.
Proof.
  unfold js_or_default, rate_when_nonzero, truthy, truthy_number, FEE_PER_KB.
  destruct (_feePerKb t) as [r|]; [|done]. by destruct (r =? 0).
Qed.

Lemma estimateFeeValue_formula (t : Transaction) :
  allUtxoInfo t = true ->
  estimateFeeValue t = Ok (estimatedFee t).
Proof.
  intros Hall. unfold estimateFeeValue, estimatedFee.
  rewrite (unspentValue_total t Hall).
  unfold Transaction_estimateFee, estimateFee_formula.
  rewrite rate_of_code, estimateSize_sum, !Math_ceil_div_1000.
  by destruct (kilobytes (estimatedSize t) * rate_when_nonzero t
               <? inputTotal t - outputTotal t).
Qed.

Lemma feeValue_withChangeScript (t : Transaction) :
  allUtxoInfo t = true -> is_Some (_changeScript t) ->
  feeValue t = Ok (feeWithChangeScript t).
Proof.
  intros Hall [cs Hcs]. unfold feeValue, feeWithChangeScript.
  destruct (isCoinbase t); [done|]. destruct (_fee t); [done|].
  rewrite Hcs. cbn. by apply estimateFeeValue_formula.
Qed.

(** ** The public mutations *)

Lemma cachesConsistent_after_inputs (t s : Transaction) :
  cachesConsistent t = true ->
  outputs s = outputs t -> _outputAmount s = _outputAmount t ->
  _inputAmount s = None ->
  cachesConsistent s = true.
Proof.
  unfold cachesConsistent. intros Hc -> -> ->.
  by apply andb_prop in Hc as [_ ->].
Qed.

Lemma cachesConsistent_after_outputs (t s : Transaction) :
  cachesConsistent t = true ->
  sumInputAmounts (inputs s) 0 = sumInputAmounts (inputs t) 0 ->
  _inputAmount s = _inputAmount t ->
  _outputAmount s = None ->
  cachesConsistent s = true.
Proof.
  unfold cachesConsistent. intros Hc -> -> ->.
  by apply andb_prop in Hc as [-> _].
Qed.

Lemma cachesConsistent_same (t s : Transaction) :
  cachesConsistent t = true ->
  inputs s = inputs t -> outputs s = outputs t ->
  _inputAmount s = _inputAmount t -> _outputAmount s = _outputAmount t ->
  cachesConsistent s = true.
Proof. unfold cachesConsistent. by intros Hc -> -> -> ->. Qed.

Lemma cachesConsistent_inputAmount_reset (t : Transaction) :
  cachesConsistent t = true -> cachesConsistent (set_inputAmount None t) = true.
Proof. intros Hc. by eapply cachesConsistent_after_inputs. Qed.

Lemma changeNeedsScript_same (t s : Transaction) :
  changeNeedsScript t ->
  _changeIndex s = _changeIndex t -> _changeScript s = _changeScript t ->
  changeNeedsScript s.
Proof.
  intros Ht Hi Hs i Hsi. rewrite Hi in Hsi. rewrite Hs. exact (Ht i Hsi).
Qed.

Lemma changeTracked_needsScript (t : Transaction) :
  changeTracked t -> changeNeedsScript t.
Proof. intros Ht i Hi. destruct (Ht i Hi) as (o & _ & ->). eauto. Qed.

Lemma withoutChange_fields (t : Transaction) :
  inputs (withoutChange t) = inputs t
  /\ _fee (withoutChange t) = _fee t
  /\ _changeScript (withoutChange t) = _changeScript t.
Proof.
  unfold withoutChange. destruct (_changeIndex t) as [i|]; [|done].
  by destruct (i <? 0).
Qed.

(** The state after [_updateChangeOutput]: the change is what the inputs,
    the other outputs and the fee leave, the memoized totals are current,
    and a tracked change output carries the change script. *)
Lemma updateChangeOutput_keeps (t t' : Transaction) :
  cachesConsistent t = true ->
  changeNeedsScript t ->
  _updateChangeOutput t = Ok (tt, t') ->
  established changeInvariant t'.
Proof.
  intros Hc Hweak Hrun. rewrite (run_updateChangeOutput t Hc) in Hrun.
  destruct (_changeScript t) as [cs|] eqn:Hcs.
  2:{ inversion Hrun; subst t'. clear Hrun.
      assert (Hnone : _changeIndex t = None).
      { destruct (_changeIndex t) as [i|] eqn:Hi; [|done].
        destruct (Hweak i Hi) as [x Hx]. congruence. }
      split; [|split; [done|]].
      - unfold changeInvariant. by rewrite Hcs.
      - intros i Hi. congruence. }
  destruct (mapM_Result Input_clearSignatures (inputs t)) as [ins'|e] eqn:Hclr;
    [|discriminate].
  cbv zeta in Hrun.
  set (t2 := changeRemoved (set_inputs ins' t)) in *.
  assert (Hc2 : cachesConsistent (memoized t2) = true).
  { apply memoized_consistent. subst t2. unfold changeRemoved.
    assert (Hc1 : cachesConsistent (set_inputs ins' t) = true).
    { apply clearSignatures_inv in Hclr as [-> _].
      unfold cachesConsistent in *. simpl.
      by rewrite sumInputAmounts_cleared. }
    destruct (_changeIndex (set_inputs ins' t)) as [i|]; [|done].
    destruct (js_index (outputs (set_inputs ins' t)) i).
    - by apply cachesConsistent_outputs_reset.
    - by apply cachesConsistent_outputAmount_reset. }
  assert (Hcs2 : _changeScript (memoized t2) = Some cs).
  { destruct (memoized_fields t2) as (_ & _ & _ & _ & -> & _).
    subst t2. by destruct (changeRemoved_fields (set_inputs ins' t))
      as (_ & _ & _ & ->). }
  destruct (unspentValue t2) as [available|e] eqn:Hav; [|discriminate].
  destruct (feeValue t2) as [fee'|e] eqn:Hfee; [|discriminate].
  assert (Hall : allUtxoInfo (memoized t2) = true).
  { unfold allUtxoInfo. destruct (memoized_fields t2) as (-> & _).
    unfold unspentValue in Hav.
    destruct (sumInputAmounts (inputs t2) 0) as [v|e] eqn:Hsum; [|discriminate].
    by eapply sumInputAmounts_Ok_inv. }
  rewrite <- unspentValue_memoized in Hav.
  rewrite <- feeValue_memoized in Hfee.
  set (s := memoized t2) in *. clearbody s. clear t2 Hclr.
  rewrite (unspentValue_total s Hall) in Hav. injection Hav as Hav.
  destruct (0 <? available - fee') eqn:Hpos; inversion Hrun as [Ht']; clear Hrun.
  - (* a change output is appended *)
    assert (Hwo : exists w,
      withoutChange (changeAdded cs (available - fee') s) = w
      /\ cachesConsistent w = true
      /\ inputs w = inputs s /\ outputs w = outputs s /\ _fee w = _fee s
      /\ _feePerKb w = _feePerKb s /\ _changeScript w = _changeScript s).
    { eexists. split; [reflexivity|].
      unfold withoutChange, changeAdded.
      destruct s as [ins outs ia oa ver nl sc ci f fk hn].
      unfold cachesConsistent in *. simpl in *.
      replace (Z.of_nat (length outs) <? 0) with false
        by (symmetry; apply Z.ltb_ge; lia).
      simpl. rewrite Nat2Z.id, delete_last.
      apply andb_prop in Hc2 as [-> _]. done. }
    destruct Hwo as (w & Hw & Hcw & Hwi & Hwo & Hwf & Hwk & Hwc).
    split; [|split].
    + unfold changeInvariant.
      replace (_changeScript (changeAdded cs (available - fee') s))
        with (Some cs) by (by rewrite <- Hcs2).
      exists fee'. rewrite Hw.
      rewrite (eval_getFee w Hcw).
      assert (Hfw : feeValue w = Ok (feeWithChangeScript w)).
      { apply feeValue_withChangeScript.
        - unfold allUtxoInfo in *. by rewrite Hwi.
        - rewrite Hwc, Hcs2. eauto. }
      rewrite (feeValue_ext w s Hwi Hwo Hwf Hwk Hwc) in Hfw |- *.
      split; [done|]. split; [congruence|]. split; [exact Hall|].
      replace (inputTotal (changeAdded cs (available - fee') s) - outputTotal w)
        with available
        by (rewrite <- Hav; unfold inputTotal, outputTotal; by rewrite Hwo).
      rewrite Hpos.
      eexists _, _. split; [reflexivity|]. split; [apply js_index_last|]. done.
    + unfold changeAdded. destruct s; unfold cachesConsistent in *; simpl in *.
      apply andb_prop in Hc2 as [-> _]. done.
    + intros i Hi. unfold changeAdded in *. simpl in *. inversion Hi; subst i.
      eexists. split; [apply js_index_last|]. done.
  - (* no change output *)
    split; [|split].
    + unfold changeInvariant, withoutChange. simpl. rewrite Hcs2.
      exists fee'.
      assert (Hcn : cachesConsistent (set_changeIndex None s) = true)
        by (by destruct s).
      rewrite (eval_getFee _ Hcn).
      assert (Hfw : feeValue (set_changeIndex None s)
                    = Ok (feeWithChangeScript (set_changeIndex None s))).
      { apply feeValue_withChangeScript; [exact Hall|].
        cbn [_changeScript set_changeIndex]. rewrite Hcs2. eauto. }
      rewrite (feeValue_ext (set_changeIndex None s) s
                 eq_refl eq_refl eq_refl eq_refl eq_refl) in Hfw |- *.
      split; [done|]. split; [congruence|]. split; [exact Hall|].
      replace (inputTotal (set_changeIndex None s)
               - outputTotal (set_changeIndex None s))
        with available by (by rewrite <- Hav).
      by rewrite Hpos.
    + destruct s; unfold cachesConsistent in *; simpl in *. done.
    + intros i Hi. discriminate.
Qed.

(** The recomputation takes the output at the tracked index out, with
    every other reference to the same object: the outputs afterwards,
    other than a new tracked change output, are the outputs without it. *)
Lemma updateChangeOutput_removes (t t' : Transaction) :
  cachesConsistent t = true ->
  is_Some (_changeScript t) ->
  _updateChangeOutput t = Ok (tt, t') ->
  outputs (withoutChange t') = outputs (changeRemoved t).
Proof.
  intros Hc [cs Hcs] Hrun. rewrite (run_updateChangeOutput t Hc) in Hrun.
  rewrite Hcs in Hrun.
  destruct (mapM_Result Input_clearSignatures (inputs t)) as [ins'|e];
    [|discriminate].
  cbv zeta in Hrun.
  assert (Ho2 : outputs (changeRemoved (set_inputs ins' t))
                = outputs (changeRemoved t)).
  { unfold changeRemoved. simpl. destruct (_changeIndex t) as [i|]; [|done].
    by destruct (js_index (outputs t) i). }
  set (t2 := changeRemoved (set_inputs ins' t)) in *.
  destruct (unspentValue t2) as [available|e]; [|discriminate].
  destruct (feeValue t2) as [fee'|e]; [|discriminate].
  destruct (memoized_fields t2) as (_ & Ho & _).
  destruct (0 <? available - fee'); injection Hrun as <-.
  - unfold withoutChange, changeAdded.
    cbn [_changeIndex outputs set_outputAmount set_outputs set_heapNext
         set_changeIndex].
    replace (Z.of_nat (length (outputs (memoized t2))) <? 0) with false
      by (symmetry; apply Z.ltb_ge; lia).
    cbn [outputs set_outputAmount set_outputs].
    by rewrite Nat2Z.id, delete_last, Ho, Ho2.
  - unfold withoutChange. cbn [_changeIndex set_changeIndex outputs].
    by rewrite Ho, Ho2.
Qed.

(** Every public mutation ends in [_updateChangeOutput]: what that
    establishes, the mutation establishes. *)
Section ViaUpdate.

Variable P : Transaction -> Prop.
Hypothesis P_update :
  forall s t',
    cachesConsistent s = true -> changeNeedsScript s ->
    _updateChangeOutput s = Ok (tt, t') -> P t'.

Lemma update_establishes (s t' : Transaction) :
  cachesConsistent s = true -> changeNeedsScript s ->
  _updateChangeOutput s = Ok (tt, t') -> established P t'.
Proof.
  intros Hc Hn Hrun. split; [by eapply P_update|].
  by destruct (updateChangeOutput_keeps s t' Hc Hn Hrun) as (_ & ? & ?).
Qed.

Lemma uncheckedAddInput_establishes (input : Input) (t t' : Transaction) :
  cachesConsistent (set_inputAmount None t) = true -> changeNeedsScript t ->
  uncheckedAddInput input t = Ok (tt, t') -> established P t'.
Proof.
  intros Hc Ht Hrun. unfold uncheckedAddInput in Hrun. unfold_monad.
  simpl in Hrun.
  eapply update_establishes; [| |exact Hrun].
  - by eapply cachesConsistent_after_inputs.
  - by eapply changeNeedsScript_same.
Qed.

Lemma addInput_establishes
  (input : Input) (arg : option ScriptArg) (amount : option Z)
  (t t' : Transaction) :
  cachesConsistent t = true -> changeNeedsScript t ->
  addInput input arg amount t = Ok (tt, t') -> established P t'.
Proof.
  intros Hc Ht Hrun. unfold addInput in Hrun.
  destruct (negb (truthy (output input))
            && (negb (bool_decide (is_Some arg))
                || negb (bool_decide (is_Some amount)))); [discriminate|].
  assert (Hplain : forall i,
    uncheckedAddInput i t = Ok (tt, t') -> established P t').
  { intros i Hi. eapply uncheckedAddInput_establishes; [|done|exact Hi].
    by apply cachesConsistent_inputAmount_reset. }
  destruct (output input) as [o|]; [by eapply Hplain|].
  destruct arg as [a|]; [|by eapply Hplain].
  destruct amount as [v|]; [|by eapply Hplain].
  destruct (truthy a); [|by eapply Hplain].
  assert (Htail : forall s,
    (o <- Output_new s v ;;
     modify (fun t =>
       set_inputs
         (map (fun j => if same_input j input
                        then set_input_output (Some o) j else j)
            (inputs t)) t) ;;;
     uncheckedAddInput (set_input_output (Some o) input)) t = Ok (tt, t') ->
    established P t').
  { intros s Hs. unfold Output_new, alloc, checkArgument in Hs. unfold_monad.
    destruct (truthy (isNaturalNumber v)); [|discriminate].
    simpl in Hs.
    eapply uncheckedAddInput_establishes; [| |exact Hs].
    - eapply cachesConsistent_after_inputs; [exact Hc|done..].
    - by eapply changeNeedsScript_same. }
  rewrite run_bind in Hrun.
  destruct a as [s|txt].
  - rewrite run_ret in Hrun. by eapply Htail.
  - rewrite run_lift in Hrun.
    destruct (Script_fromString txt) as [s|e]; [|discriminate].
    by eapply Htail.
Qed.

Lemma addOutput_establishes (o : Output) (t t' : Transaction) :
  cachesConsistent t = true -> changeNeedsScript t ->
  addOutput o t = Ok (tt, t') -> established P t'.
Proof.
  intros Hc Ht Hrun. unfold addOutput, _addOutput in Hrun. unfold_monad.
  simpl in Hrun.
  eapply update_establishes; [| |exact Hrun].
  - by eapply cachesConsistent_after_outputs.
  - by eapply changeNeedsScript_same.
Qed.

Lemma to_one_establishes (address : Address) (amount : Z) (t t' : Transaction) :
  cachesConsistent t = true -> changeNeedsScript t ->
  to_one address amount t = Ok (tt, t') -> established P t'.
Proof.
  intros Hc Ht Hrun. unfold to_one, Output_new, alloc, checkArgument in Hrun.
  unfold_monad.
  destruct (truthy (isNaturalNumber amount)); [|discriminate].
  destruct (Script_fromAddress address) as [s|e]; [|discriminate].
  simpl in Hrun.
  eapply addOutput_establishes; [| |exact Hrun].
  - by eapply cachesConsistent_same.
  - by eapply changeNeedsScript_same.
Qed.

Lemma to_many_establishes (l : list (Address * Z)) (t t' : Transaction) :
  cachesConsistent t = true -> changeNeedsScript t ->
  l <> [] ->
  forEach (fun e => to_one (fst e) (snd e)) l t = Ok (tt, t') ->
  established P t'.
Proof.
  revert t. induction l as [|[a v] l IH]; intros t Hc Ht Hne Hrun; [done|].
  simpl in Hrun. rewrite run_bind in Hrun.
  destruct (to_one a v t) as [[[] t1]|e] eqn:H1; [|discriminate].
  destruct l as [|e l].
  - simpl in Hrun. unfold ret in Hrun. injection Hrun as <-.
    by eapply to_one_establishes.
  - apply to_one_establishes in H1 as (_ & Hc1 & Ht1); [|done..].
    apply (IH t1); [done|by apply changeTracked_needsScript|done|done].
Qed.

Lemma addData_establishes (value : Buffer) (t t' : Transaction) :
  cachesConsistent t = true -> changeNeedsScript t ->
  addData value t = Ok (tt, t') -> established P t'.
Proof.
  intros Hc Ht Hrun. unfold addData, Output_new, alloc, checkArgument in Hrun.
  unfold_monad. simpl in Hrun.
  eapply addOutput_establishes; [| |exact Hrun].
  - by eapply cachesConsistent_same.
  - by eapply changeNeedsScript_same.
Qed.

Lemma removeInput_establishes
  (txId : RemoveInputArg) (outIndex : option Z) (t t' : Transaction) :
  cachesConsistent t = true -> changeNeedsScript t ->
  removeInput txId outIndex t = Ok (tt, t') -> established P t'.
Proof.
  intros Hc Ht Hrun. unfold removeInput in Hrun. unfold_monad.
  cbv zeta in Hrun.
  match type of Hrun with
  | context [js_index (inputs t) ?i] => set (index := i) in *
  end.
  destruct ((index <? 0) || (Z.of_nat (length (inputs t)) <=? index));
    [discriminate|].
  destruct (js_index (inputs t) index) as [input|]; simpl in Hrun.
  - eapply update_establishes; [| |exact Hrun].
    + by eapply cachesConsistent_after_inputs.
    + by eapply changeNeedsScript_same.
  - eapply update_establishes; [| |exact Hrun].
    + by eapply cachesConsistent_after_inputs.
    + by eapply changeNeedsScript_same.
Qed.

Lemma removeOutput_establishes (index : Z) (t t' : Transaction) :
  cachesConsistent t = true -> changeNeedsScript t ->
  removeOutput index t = Ok (tt, t') -> established P t'.
Proof.
  intros Hc Ht Hrun. unfold removeOutput, _removeOutput in Hrun. unfold_monad.
  simpl in Hrun.
  destruct (js_index (outputs t) index) as [o|].
  - eapply update_establishes; [| |exact Hrun].
    + by eapply cachesConsistent_after_outputs.
    + by eapply changeNeedsScript_same.
  - eapply update_establishes; [| |exact Hrun].
    + by eapply cachesConsistent_after_outputs.
    + by eapply changeNeedsScript_same.
Qed.

Lemma clearOutputs_establishes (t t' : Transaction) :
  cachesConsistent t = true -> changeNeedsScript t ->
  clearOutputs t = Ok (tt, t') -> established P t'.
Proof.
  intros Hc Ht Hrun. unfold clearOutputs in Hrun.
  unfold_monad. simpl in Hrun. rewrite run_clearSignatures in Hrun.
  simpl in Hrun.
  destruct (mapM_Result Input_clearSignatures (inputs t)) as [ins'|e] eqn:Hclr;
    [|discriminate].
  simpl in Hrun.
  eapply update_establishes; [| |exact Hrun].
  - eapply cachesConsistent_after_outputs; [exact Hc| |done..]. simpl.
    apply clearSignatures_inv in Hclr as [-> _].
    apply sumInputAmounts_cleared.
  - intros i Hi. discriminate.
Qed.

Lemma fee_establishes (amount : Z) (t t' : Transaction) :
  cachesConsistent t = true -> changeNeedsScript t ->
  fee amount t = Ok (tt, t') -> established P t'.
Proof.
  intros Hc Ht Hrun. unfold fee in Hrun. unfold_monad. simpl in Hrun.
  eapply update_establishes; [| |exact Hrun].
  - by eapply cachesConsistent_same.
  - by eapply changeNeedsScript_same.
Qed.

Lemma feePerKb_establishes (amount : Z) (t t' : Transaction) :
  cachesConsistent t = true -> changeNeedsScript t ->
  feePerKb amount t = Ok (tt, t') -> established P t'.
Proof.
  intros Hc Ht Hrun. unfold feePerKb in Hrun. unfold_monad. simpl in Hrun.
  eapply update_establishes; [| |exact Hrun].
  - by eapply cachesConsistent_same.
  - by eapply changeNeedsScript_same.
Qed.

Lemma change_establishes (address : option Address) (t t' : Transaction) :
  cachesConsistent t = true -> changeNeedsScript t ->
  change address t = Ok (tt, t') -> established P t'.
Proof.
  intros Hc Ht Hrun. unfold change, checkArgument in Hrun. unfold_monad.
  destruct (truthy address); [|discriminate].
  destruct address as [a|]; [|discriminate].
  destruct (Script_fromAddress a) as [s|e]; [|discriminate].
  simpl in Hrun.
  eapply update_establishes; [| |exact Hrun].
  - by eapply cachesConsistent_same.
  - intros i Hi. simpl. eauto.
Qed.

Lemma call_establishes (m : Mutation) (t t' : Transaction) :
  cachesConsistent t = true -> changeNeedsScript t ->
  emptyCall m = false ->
  call m t = Ok (tt, t') -> established P t'.
Proof.
  intros Hc Ht Hne Hrun. destruct m; simpl in Hrun.
  - by eapply addInput_establishes.
  - eapply uncheckedAddInput_establishes; [|done|exact Hrun].
    by apply cachesConsistent_inputAmount_reset.
  - by eapply addOutput_establishes.
  - destruct arg as [a v|l]; simpl in Hrun.
    + by eapply to_one_establishes.
    + eapply to_many_establishes; [done|done| |exact Hrun].
      intros ->. discriminate.
  - by eapply addData_establishes.
  - by eapply removeInput_establishes.
  - by eapply removeOutput_establishes.
  - by eapply clearOutputs_establishes.
  - by eapply fee_establishes.
  - by eapply feePerKb_establishes.
  - by eapply change_establishes.
Qed.

End ViaUpdate.

Lemma call_keeps (m : Mutation) (t t' : Transaction) :
  cachesConsistent t = true -> changeNeedsScript t ->
  emptyCall m = false ->
  call m t = Ok (tt, t') ->
  established changeInvariant t'.
Proof.
  intros Hc Ht Hne Hrun.
  destruct (call_establishes changeInvariant
              (fun s t' Hs Hn Hu =>
                 proj1 (updateChangeOutput_keeps s t' Hs Hn Hu))
              m t t' Hc Ht Hne Hrun) as (? & ? & ?).
  by repeat split.
Qed.


(** ** The fee *)



(** ** The serialization checks *)

Lemma ceil_div_150 (estimate : Z) :
  Math_ceil_div estimate FEE_SECURITY_MARGIN = (estimate + 149) / 150.
Proof.
  unfold Math_ceil_div, FEE_SECURITY_MARGIN. Z.div_mod_to_equations. lia.
Qed.

Lemma below_ceil_div_150 (unspent estimate : Z) :
  (unspent <? (estimate + 149) / 150) = (150 * unspent <? estimate).
Proof.
  destruct (Z.ltb_spec unspent ((estimate + 149) / 150)) as [Hlt|Hge];
    symmetry; [apply Z.ltb_lt|apply Z.ltb_ge];
    revert Hlt || revert Hge; Z.div_mod_to_equations; lia.
Qed.

Lemma run_classified_loop (ins : list Input) (t : Transaction) :
  forEach (fun input =>
             match kind input with
             | GenericInput => throw UnableToVerifySignature
             | _ => ret tt
             end) ins t
  = if forallb (fun i => match kind i with GenericInput => false | _ => true end)
               ins
    then Ok (tt, t) else Throw UnableToVerifySignature.
Proof.
  induction ins as [|i ins IH]; simpl; [done|].
  unfold bind. destruct (kind i); simpl; try apply IH. done.
Qed.

Lemma forallb_map_id {A} (f : A -> bool) (l : list A) :
  forallb (fun x => x) (map f l) = forallb f l.
Proof. induction l as [|x l IH]; simpl; [done|]. by rewrite IH. Qed.

Lemma run_isFullySigned (t : Transaction) :
  isFullySigned t
  = if allClassified t
    then Ok (forallb Input_isFullySigned (inputs t), t)
    else Throw UnableToVerifySignature.
Proof.
  unfold isFullySigned, allClassified. unfold_monad.
  rewrite run_classified_loop.
  destruct (forallb _ (inputs t)); [|done]. by rewrite forallb_map_id.
Qed.

Lemma filter_nonempty_existsb {A} (p : A -> bool) (l : list A) :
  (0 <? Z.of_nat (length (List.filter p l))) = existsb p l.
Proof.
  induction l as [|x l IH]; simpl; [done|].
  destruct (p x); simpl; [|exact IH]. apply Z.ltb_lt. lia.
Qed.

Lemma run_hasFeeError (opts : Options) (t : Transaction) :
  cachesConsistent t = true ->
  allUtxoInfo t = true ->
  memoized t = t ->
  _hasFeeError opts (inputTotal t - outputTotal t) t
  = Ok (feeBounds opts t, t).
Proof.
  intros Hc Hall Hmemo.
  assert (Hest : _estimateFee t = Ok (estimatedFee t, t)).
  { rewrite (run_estimateFee t Hc), (estimateFeeValue_formula t Hall).
    by rewrite Hmemo. }
  unfold _hasFeeError, feeBounds, explicitFeeDiffers, _missingChange.
  cbv zeta. set (unspent := inputTotal t - outputTotal t).
  unfold_monad.
  destruct (_fee t) as [v|];
    [destruct (v =? unspent); cbn [negb default]; unfold_monad; [|done]|];
    (destruct (disableLargeFees opts), (disableSmallFees opts);
     cbn [negb andb]; unfold_monad;
     rewrite ?Hest; unfold_monad;
     change (FEE_SECURITY_MARGIN * estimatedFee t) with (150 * estimatedFee t);
     try (destruct (150 * estimatedFee t <? unspent); unfold_monad);
     try (destruct (_changeScript t); cbn; unfold_monad; done);
     rewrite ?Hest; unfold_monad;
     rewrite ?ceil_div_150, ?below_ceil_div_150;
     try (destruct (150 * unspent <? estimatedFee t)); unfold_monad; done).
Qed.

Lemma feeBounds_memoized (opts : Options) (t : Transaction) :
  feeBounds opts (memoized t) = feeBounds opts t.
Proof.
  destruct (memoized_fields t) as (Hi & Ho & Hf & Hk & Hs & _).
  unfold feeBounds, estimatedFee, explicitFeeDiffers, rate_when_nonzero,
    estimatedSize, inputTotal, outputTotal.
  by rewrite Hi, Ho, Hf, Hk, Hs.
Qed.

Lemma eval_bind {A B} (m : M A) (k : A -> M B) (t : Transaction) :
  eval (x <- m ;; k x) t
  = match m t with
    | Ok (a, t') => eval (k a) t'
    | Throw e => Throw e
    end.
Proof. unfold eval. rewrite run_bind. by destruct (m t) as [[a t']|e]. Qed.

Lemma eval_dust_and_signatures (opts : Options) (t s : Transaction) :
  inputs s = inputs t -> outputs s = outputs t ->
  eval (dust <- gets (_hasDustOutputs opts) ;;
        match dust with
        | Some e => ret (Some e)
        | None => _isMissingSignatures opts
        end) s
  = firstFailure [check_dustOutputs opts t; check_missingSignatures opts t].
Proof.
  intros Hsi Hso. rewrite eval_bind. rewrite run_gets. cbn beta iota.
  unfold _hasDustOutputs, check_dustOutputs, check_missingSignatures,
    DUST_AMOUNT.
  cbv zeta. rewrite filter_nonempty_existsb, Hso.
  destruct (disableDustOutputs opts); cbn [negb andb firstFailure];
    [|destruct (existsb _ (outputs t)); cbn [firstFailure]; [done|]];
    (unfold _isMissingSignatures;
     destruct (disableIsFullySigned opts); cbn [negb]; [done|];
     rewrite eval_bind, run_isFullySigned; unfold allClassified; rewrite Hsi;
     destruct (forallb _ (inputs t)); cbn [negb]; [|done];
     by destruct (forallb Input_isFullySigned (inputs t))).
Qed.


(** ** The sanity checks *)

Lemma verify_outputs_in_order (pre outs : list Output) :
  verify_outputs outs (sumZ _satoshisBN pre)
  = match
      list_find is_Some
        (imap (fun n o => outputFailure (take (length pre + n) (pre ++ outs)) o)
              outs)
    with
    | Some (_, verdict) => verdict
    | None => None
    end.
Proof.
  revert pre. induction outs as [|o outs IH]; intros pre; [done|].
  rewrite imap_cons. cbn [verify_outputs list_find].
  rewrite Nat.add_0_r, take_app_length.
  assert (Htotal : sumZ _satoshisBN (pre ++ [o])
                   = sumZ _satoshisBN pre + _satoshisBN o)
    by (rewrite sumZ_app; unfold sumZ; simpl; lia).
  destruct (outputFailure pre o) as [v|] eqn:Hf;
    unfold outputFailure, when in Hf; rewrite Htotal in Hf;
    destruct (Output_invalidSatoshis o);
    try (rewrite decide_True by eauto; congruence);
    destruct (MAX_MONEY <? _satoshisBN o); cbn [orb] in Hf;
    try (rewrite decide_True by eauto; congruence);
    destruct (MAX_MONEY <? sumZ _satoshisBN pre + _satoshisBN o);
    try (rewrite decide_True by eauto; congruence);
    try discriminate.
  rewrite decide_False by (intros [? ?]; discriminate).
  rewrite <- Htotal.
  rewrite IH.
  rewrite (imap_ext
             (fun n o0 =>
                outputFailure
                  (take (length (pre ++ [o]) + n) ((pre ++ [o]) ++ outs)) o0)
             ((fun n o0 =>
                 outputFailure (take (length pre + n) (pre ++ o :: outs)) o0)
              ∘ S)).
  - by destruct (list_find is_Some _) as [[n v]|].
  - intros n x _. simpl. rewrite length_app. simpl.
    rewrite <- app_assoc. simpl. do 2 f_equal. lia.
Qed.

Lemma verify_outputs_check (t : Transaction) :
  verify_outputs (outputs t) 0 = check_outputsInOrder t.
Proof. apply (verify_outputs_in_order [] (outputs t)). Qed.

Lemma verify_inputs_duplicates (ins : list Input) (m : gmap string bool) :
  verify_inputs ins m
  = when (negb (bool_decide
                  (NoDup (map inputid ins)
                   /\ Forall (fun k => m !! k = None) (map inputid ins))))
         "Transaction contains duplicate input".
Proof.
  revert m. induction ins as [|i ins IH]; intros m; cbn [verify_inputs map].
  - rewrite bool_decide_eq_true_2; [done|]. split; constructor.
  - destruct (m !! inputid i) as [b|] eqn:Hm.
    + rewrite bool_decide_eq_false_2; [done|].
      intros [_ Hall]. inversion Hall; congruence.
    + rewrite IH. do 2 f_equal. apply bool_decide_ext.
      rewrite NoDup_cons, Forall_cons, !Forall_forall. split.
      * intros [Hnd Hall]. split; [split; [|done]|split; [done|]].
        -- intros Hin. specialize (Hall _ Hin).
           by rewrite lookup_insert_eq in Hall.
        -- intros k Hk. specialize (Hall _ Hk).
           destruct (decide (inputid i = k)) as [<-|Hne].
           ++ by rewrite lookup_insert_eq in Hall.
           ++ by rewrite lookup_insert_ne in Hall.
      * intros [[Hnotin Hnd] [_ Hall]]. split; [done|].
        intros k Hk. rewrite lookup_insert_ne; [by apply Hall|].
        intros <-. done.
Qed.

Lemma verify_inputs_check (t : Transaction) :
  verify_inputs (inputs t) ∅ = check_duplicateKey t.
Proof.
  rewrite verify_inputs_duplicates. unfold check_duplicateKey.
  do 2 f_equal. apply bool_decide_ext. split; [by intros [? _]|].
  intros Hnd. split; [done|]. apply Forall_forall. intros k _.
  apply lookup_empty.
Qed.

Lemma faithful_keys_duplicates (t : Transaction) :
  keysFaithful t = true -> check_duplicateKey t = check_duplicatePair t.
Proof.
  intros Hf. unfold check_duplicateKey, check_duplicatePair.
  do 2 f_equal. apply bool_decide_ext.
  set (key := fun p : Buffer * Z =>
                (Buffer_toString p.1 +:+ ":" +:+ Number_toString p.2)%string).
  assert (Hkeys : map inputid (inputs t)
                  = key <$> map (fun i => (prevTxId i, outputIndex i)) (inputs t)).
  { rewrite <- list_fmap_compose. done. }
  rewrite Hkeys. split.
  - apply NoDup_fmap_1.
  - apply NoDup_fmap_2_strong. intros p q Hp Hq Hpq.
    apply list_elem_of_fmap in Hp as (i & -> & Hi).
    apply list_elem_of_fmap in Hq as (j & -> & Hj).
    unfold keysFaithful in Hf. rewrite forallb_forall in Hf.
    apply list_elem_of_In in Hi, Hj.
    specialize (Hf i Hi). rewrite forallb_forall in Hf. specialize (Hf j Hj).
    replace (String.eqb (inputid i) (inputid j)) with true in Hf
      by (symmetry; apply String.eqb_eq; exact Hpq).
    by apply bool_decide_eq_true in Hf.
Qed.

(** What [verify()] gives, with the check of the duplicates as the code
    makes it. *)
Lemma run_verify (t : Transaction) :
  verify t
  = firstMessage
      [ Ok (check_noInputs t); Ok (check_noOutputs t);
        Ok (check_outputsInOrder t);
        check_size t; Ok (check_duplicateKey t); Ok (check_coinbaseOrNull t) ].
Proof.
  unfold verify, check_noInputs, check_noOutputs, check_size.
  rewrite verify_outputs_check, verify_inputs_check.
  unfold check_coinbaseOrNull, isCoinbase.
  destruct (inputs t) as [|i ins] eqn:Hins; [done|].
  destruct (outputs t) as [|o outs] eqn:Houts; [done|].
  replace (Z.of_nat (length (i :: ins)) =? 0) with false by done.
  replace (Z.of_nat (length (o :: outs)) =? 0) with false by done.
  rewrite !bool_decide_eq_false_2 by done. cbn [when firstMessage].
  destruct (check_outputsInOrder t) as [m|]; [done|].
  unfold Result_map, Result_bind.
  destruct (toBuffer t) as [encoding|e]; [|done].
  destruct (MAX_BLOCK_SIZE <? Z.of_nat (length encoding)); [done|].
  cbn [when firstMessage].
  destruct (check_duplicateKey t) as [m|]; [done|].
  rewrite filter_nonempty_existsb.
  destruct ins as [|j ins].
  - destruct (Input_isNull i) eqn:Hnull.
    + set (n := Z.of_nat (length (_scriptBuffer i))).
      destruct ((n <? 2) || (100 <? n)) eqn:Hn.
      * rewrite bool_decide_eq_false_2; [done|].
        apply orb_prop in Hn as [Hn|Hn]; apply Z.ltb_lt in Hn; lia.
      * rewrite bool_decide_eq_true_2; [done|].
        apply orb_false_elim in Hn as [H1 H2].
        apply Z.ltb_ge in H1, H2. lia.
    + simpl. by rewrite Hnull.
  - by destruct (existsb Input_isNull (i :: j :: ins)).
Qed.


(** ** Clearing the outputs *)

Lemma feeValue_total (t : Transaction) :
  allUtxoInfo t = true -> exists fee, feeValue t = Ok fee.
Proof.
  intros Hall. unfold feeValue.
  destruct (isCoinbase t); [eauto|]. destruct (_fee t); [eauto|].
  destruct (negb (truthy (_changeScript t))).
  - rewrite (unspentValue_total t Hall). eauto.
  - rewrite (estimateFeeValue_formula t Hall). eauto.
Qed.

Lemma cleared_twice (ins : list Input) :
  map (set_input_signatures []) (map (set_input_signatures []) ins)
  = map (set_input_signatures []) ins.
Proof. induction ins as [|i ins IH]; simpl; [done|]. by rewrite IH. Qed.

Lemma cleared_classified (ins : list Input) :
  forallb (fun i => match kind i with GenericInput => false | _ => true end)
          (map (set_input_signatures []) ins)
  = forallb (fun i => match kind i with GenericInput => false | _ => true end)
            ins.
Proof. induction ins as [|i ins IH]; simpl; [done|]. by rewrite IH. Qed.

Lemma cleared_utxoInfo (ins : list Input) :
  forallb (fun i => bool_decide (is_Some (output i)))
          (map (set_input_signatures []) ins)
  = forallb (fun i => bool_decide (is_Some (output i))) ins.
Proof. induction ins as [|i ins IH]; simpl; [done|]. by rewrite IH. Qed.

Lemma cleared_total (ins : list Input) :
  sumZ (fun i => match output i with Some o => satoshis o | None => 0 end)
       (map (set_input_signatures []) ins)
  = sumZ (fun i => match output i with Some o => satoshis o | None => 0 end)
         ins.
Proof.
  unfold sumZ. induction ins as [|i ins IH]; simpl; [done|]. by rewrite IH.
Qed.

(** C9.  For a transaction whose inputs are classified and carry their
    spent outputs, [clearOutputs()] returns, and with [available] the input
    total and [fee] the value of [getFee()] once the outputs are emptied: if
    a change script is configured and [available - fee > 0], the outputs
    are afterwards exactly one output, tracked at index 0, with the change
    script and the amount [available - fee]; the outputs are empty
    afterwards only when no change script is set or no positive change
    remains. *)
Theorem clearOutputs_keeps_change (t : Transaction) :
  cachesConsistent t = true ->
  allClassified t = true ->
  allUtxoInfo t = true ->
  exists t' fee,
    clearOutputs t = Ok (tt, t')
    /\ eval getFee (emptied t') = Ok fee
    /\ match _changeScript t with
       | Some changeScript =>
           if 0 <? inputTotal t - fee
           then exists o,
                  outputs t' = [o] /\ _changeIndex t' = Some 0
                  /\ script o = changeScript
                  /\ satoshis o = inputTotal t - fee
           else outputs t' = [] /\ _changeIndex t' = None
       | None => outputs t' = []
       end.
Proof.
  intros Hc Hcl Hall. unfold allClassified, allUtxoInfo in *.
  set (ins' := map (set_input_signatures []) (inputs t)).
  set (t0 := set_changeIndex None
               (set_outputAmount None (set_inputs ins' (set_outputs [] t)))).
  assert (Hrun0 : clearOutputs t = _updateChangeOutput t0).
  { unfold clearOutputs. unfold_monad. simpl. rewrite run_clearSignatures.
    simpl. by rewrite (clearSignatures_classified _ Hcl). }
  assert (Hc0 : cachesConsistent t0 = true).
  { eapply cachesConsistent_after_outputs; [exact Hc| |done..].
    apply sumInputAmounts_cleared. }
  assert (Hall0 : allUtxoInfo t0 = true).
  { unfold allUtxoInfo. simpl. subst ins'. by rewrite cleared_utxoInfo. }
  assert (Htot0 : inputTotal t0 - outputTotal t0 = inputTotal t).
  { unfold inputTotal, outputTotal. simpl. subst ins'. rewrite cleared_total.
    unfold sumZ. simpl. lia. }
  rewrite Hrun0, (run_updateChangeOutput t0 Hc0).
  replace (_changeScript t0) with (_changeScript t) by done.
  destruct (feeValue_total t0 Hall0) as [fee0 Hfee0].
  destruct (_changeScript t) as [cs|] eqn:Hcs.
  2:{ exists t0, fee0. split; [done|]. split; [|done].
      replace (emptied t0) with t0 by (by destruct t).
      by rewrite (eval_getFee t0 Hc0). }
  replace (inputs t0) with ins' by done.
  rewrite clearSignatures_classified
    by (unfold ins'; by rewrite cleared_classified).
  replace (map (set_input_signatures []) ins') with ins'
    by (unfold ins'; by rewrite cleared_twice).
  cbv zeta.
  replace (changeRemoved (set_inputs ins' t0)) with t0 by (by destruct t).
  rewrite (unspentValue_total t0 Hall0), Htot0, Hfee0.
  eexists _, fee0. split; [reflexivity|].
  assert (Hm : cachesConsistent (memoized t0) = true)
    by (by apply memoized_consistent).
  destruct (memoized_fields t0) as (Hi & Ho & Hf & Hk & Hs & Hci & Hn).
  destruct (0 <? inputTotal t - fee0) eqn:Hpos.
  - split.
    + set (e := emptied (changeAdded cs (inputTotal t - fee0) (memoized t0))).
      assert (He : cachesConsistent e = true).
      { subst e. unfold emptied, changeAdded.
        eapply cachesConsistent_after_outputs; [exact Hm|done..]. }
      rewrite (eval_getFee e He), <- Hfee0.
      apply feeValue_ext; subst e; simpl; by rewrite ?Hi, ?Ho, ?Hf, ?Hk, ?Hs.
    + eexists. unfold changeAdded. simpl. rewrite Ho. simpl. done.
  - split.
    + set (e := emptied (set_changeIndex None (memoized t0))).
      assert (He : cachesConsistent e = true).
      { subst e. unfold emptied.
        eapply cachesConsistent_after_outputs; [exact Hm|done..]. }
      rewrite (eval_getFee e He), <- Hfee0.
      apply feeValue_ext; subst e; simpl; by rewrite ?Hi, ?Ho, ?Hf, ?Hk, ?Hs.
    + simpl. by rewrite Ho.
Qed.

(** ** Reconstruction from a snapshot *)

Lemma bind_Ok {A B} (m : M A) (k : A -> M B) (t : Transaction) (r : B * Transaction) :
  (x <- m ;; k x) t = Ok r ->
  exists a s, m t = Ok (a, s) /\ k a s = Ok r.
Proof.
  rewrite run_bind. destruct (m t) as [[a s]|e]; [eauto|discriminate].
Qed.

Lemma forEach_preserves {A} (P : Transaction -> Prop) (f : A -> M unit)
  (l : list A) :
  (forall x t t', P t -> f x t = Ok (tt, t') -> P t') ->
  forall t t', P t -> forEach f l t = Ok (tt, t') -> P t'.
Proof.
  intros Hf. induction l as [|x l IH]; intros t t' HP Hrun; simpl in Hrun.
  - by inversion Hrun; subst.
  - apply bind_Ok in Hrun as ([] & s & Hx & Hrest). eauto.
Qed.

(** No change script, no change index, no explicit fee. *)
Lemma updateChangeOutput_idle (t : Transaction) :
  _changeScript t = None -> _updateChangeOutput t = Ok (tt, t).
Proof. intros Hcs. unfold _updateChangeOutput. unfold_monad. by rewrite Hcs. Qed.

Lemma uncheckedAddInput_idle (input : Input) (t t' : Transaction) :
  _changeScript t = None /\ _changeIndex t = None /\ _fee t = None ->
  uncheckedAddInput input t = Ok (tt, t') ->
  _changeScript t' = None /\ _changeIndex t' = None /\ _fee t' = None.
Proof.
  intros (Hcs & Hci & Hf) Hrun. unfold uncheckedAddInput in Hrun.
  unfold_monad. simpl in Hrun. rewrite updateChangeOutput_idle in Hrun by done.
  by inversion Hrun; subst.
Qed.

Lemma addInput_idle
  (input : Input) (arg : option ScriptArg) (amount : option Z)
  (t t' : Transaction) :
  _changeScript t = None /\ _changeIndex t = None /\ _fee t = None ->
  addInput input arg amount t = Ok (tt, t') ->
  _changeScript t' = None /\ _changeIndex t' = None /\ _fee t' = None.
Proof.
  intros HP Hrun. unfold addInput in Hrun.
  destruct (negb (truthy (output input)) && _); [discriminate|].
  destruct (output input) as [o|]; [by eapply uncheckedAddInput_idle|].
  destruct arg as [a|]; [|by eapply uncheckedAddInput_idle].
  destruct amount as [v|]; [|by eapply uncheckedAddInput_idle].
  destruct (truthy a); [|by eapply uncheckedAddInput_idle].
  apply bind_Ok in Hrun as (s & t1 & Hs & Hrun).
  assert (t1 = t) as ->.
  { destruct a; unfold ret, lift in Hs; [by inversion Hs|].
    destruct (Script_fromString s0); by inversion Hs. }
  apply bind_Ok in Hrun as (o & t2 & Ho & Hrun).
  unfold Output_new, alloc, checkArgument in Ho. unfold_monad.
  destruct (truthy (isNaturalNumber v)); [|discriminate].
  inversion Ho; subst o t2. clear Ho. simpl in Hrun.
  eapply uncheckedAddInput_idle; [|exact Hrun]. by destruct HP as (? & ? & ?).
Qed.

Lemma addOutput_idle (o : Output) (t t' : Transaction) :
  _changeScript t = None /\ _changeIndex t = None /\ _fee t = None ->
  addOutput o t = Ok (tt, t') ->
  _changeScript t' = None /\ _changeIndex t' = None /\ _fee t' = None.
Proof.
  intros (Hcs & Hci & Hf) Hrun. unfold addOutput, _addOutput in Hrun.
  unfold_monad. simpl in Hrun. rewrite updateChangeOutput_idle in Hrun by done.
  by inversion Hrun; subst.
Qed.

Lemma new_Input_frame (k : InputKind) (obj : InputObject) (i : Input)
  (t t' : Transaction) :
  new_Input k obj t = Ok (i, t') -> t' = set_heapNext (S (heapNext t)) t.
Proof.
  unfold new_Input, alloc. unfold_monad.
  destruct (Input_fromObject k obj); [|discriminate]. by inversion 1.
Qed.

Lemma fromObject_input_idle (input : InputObject) (t t' : Transaction) :
  _changeScript t = None /\ _changeIndex t = None /\ _fee t = None ->
  fromObject_input input t = Ok (tt, t') ->
  _changeScript t' = None /\ _changeIndex t' = None /\ _fee t' = None.
Proof.
  intros HP Hrun. unfold fromObject_input in Hrun.
  destruct (negb (truthy (io_output input)) || _).
  - apply bind_Ok in Hrun as (i & t1 & Hi & Hrun).
    apply new_Input_frame in Hi as ->.
    eapply uncheckedAddInput_idle; [|exact Hrun]. by destruct HP as (? & ? & ?).
  - apply bind_Ok in Hrun as (s & t1 & Hs & Hrun).
    assert (t1 = t) as ->.
    { unfold lift in Hs. destruct (Script_fromString _); by inversion Hs. }
    apply bind_Ok in Hrun as (txin & t2 & Hi & Hrun).
    assert (t2 = set_heapNext (S (heapNext t)) t) as ->.
    { destruct (Script_isPublicKeyHashOut s);
        [by eapply new_Input_frame|].
      destruct (Script_isScriptHashOut s && _ && _);
        [by eapply new_Input_frame|].
      destruct (Script_isPublicKeyOut s);
        [by eapply new_Input_frame|discriminate]. }
    eapply addInput_idle; [|exact Hrun]. by destruct HP as (? & ? & ?).
Qed.

Lemma fromObject_output_idle (obj : OutputObject) (t t' : Transaction) :
  _changeScript t = None /\ _changeIndex t = None /\ _fee t = None ->
  (o' <- new_Output obj ;; addOutput o') t = Ok (tt, t') ->
  _changeScript t' = None /\ _changeIndex t' = None /\ _fee t' = None.
Proof.
  intros HP Hrun. apply bind_Ok in Hrun as (o & t1 & Ho & Hrun).
  assert (t1 = set_heapNext (S (heapNext t)) t) as ->.
  { unfold new_Output, alloc in Ho. unfold_monad.
    destruct (Output_fromObject obj); [|discriminate]. by inversion Ho. }
  eapply addOutput_idle; [|exact Hrun]. by destruct HP as (? & ? & ?).
Qed.

Lemma lift_Ok {A} (r : Result A) (t t' : Transaction) (a : A) :
  lift r t = Ok (a, t') -> t' = t.
Proof. unfold lift. destruct r; by inversion 1. Qed.

Lemma gets_Ok {A} (f : Transaction -> A) (t t' : Transaction) (a : A) :
  gets f t = Ok (a, t') -> a = f t /\ t' = t.
Proof. unfold gets. by inversion 1. Qed.

Lemma checkConsistency_frame (arg : FromObjectArg) (t t' : Transaction) :
  _checkConsistency arg t = Ok (tt, t') -> t' = t.
Proof.
  intros Hrun. unfold _checkConsistency in Hrun.
  apply bind_Ok in Hrun as (ci & s0 & Hci & Hrun).
  apply gets_Ok in Hci as [-> ->].
  apply bind_Ok in Hrun as ([] & s & H1 & H2).
  assert (s = t) as ->.
  { destruct (_changeIndex t) as [i|]; [|by inversion H1].
    apply bind_Ok in H1 as (cs & s1 & Hcs & H1).
    apply gets_Ok in Hcs as [-> ->].
    apply bind_Ok in H1 as ([] & s2 & Hc1 & H1). apply lift_Ok in Hc1 as ->.
    apply bind_Ok in H1 as (outs & s3 & Ho & H1).
    apply gets_Ok in Ho as [-> ->].
    apply bind_Ok in H1 as ([] & s4 & Hc2 & H1). apply lift_Ok in Hc2 as ->.
    destruct (js_index (outputs t) i); [|discriminate].
    destruct (_changeScript t); [|discriminate].
    by apply lift_Ok in H1. }
  apply bind_Ok in H2 as (argHash & s & Ha & H2). apply lift_Ok in Ha as ->.
  destruct (truthy argHash); [|by inversion H2].
  apply bind_Ok in H2 as (this & s & Hthis & H2).
  apply gets_Ok in Hthis as [-> ->].
  apply bind_Ok in H2 as (h & s & Hh & H2). apply lift_Ok in Hh as ->.
  by apply lift_Ok in H2.
Qed.

Lemma guarded_restore
  (field : option Z) (set : option Z -> Transaction -> Transaction)
  (s s' : Transaction) :
  (if truthy field then modify (set field) else ret tt) s = Ok (tt, s') ->
  s' = match restoredIfTruthy field with
       | Some v => set (Some v) s
       | None => s
       end.
Proof.
  destruct field as [n|]; [|by inversion 1].
  change (truthy (Some n)) with (negb (n =? 0)).
  destruct (n =? 0) eqn:Hn; simpl.
  - apply Z.eqb_eq in Hn as ->. by inversion 1.
  - apply Z.eqb_neq in Hn. destruct n; [done|by inversion 1..].
Qed.

(** C10.  When [fromObject] rebuilds a transaction from a snapshot, the
    change index and the fee of the snapshot are restored under a truthiness
    guard: a snapshot value 0 leaves the field undefined, any other value is
    restored as it is (and an absent one stays undefined). *)
Theorem fromObject_drops_zero (o : TransactionObject) (t' : Transaction) :
  Transaction_fromObject o = Ok t' ->
  _changeIndex t' = restoredIfTruthy (to_changeIndex o)
  /\ _fee t' = restoredIfTruthy (to_fee o).
Proof.
  unfold Transaction_fromObject, exec. intros Hrun.
  destruct (fromObject (ArgObject o) blankTransaction) as [[[] t1]|e] eqn:Hfrom;
    [|discriminate].
  inversion Hrun; subst t1. clear Hrun.
  unfold fromObject in Hfrom.
  apply bind_Ok in Hfrom as (transaction & s0 & Harg & Hfrom).
  unfold lift in Harg. injection Harg as <- <-.
  apply bind_Ok in Hfrom as ([] & s1 & Hins & Hfrom).
  apply (forEach_preserves
           (fun t => _changeScript t = None /\ _changeIndex t = None
                     /\ _fee t = None) _ _ fromObject_input_idle) in Hins;
    [|done].
  apply bind_Ok in Hfrom as ([] & s2 & Houts & Hfrom).
  apply (forEach_preserves
           (fun t => _changeScript t = None /\ _changeIndex t = None
                     /\ _fee t = None) _ _ fromObject_output_idle) in Houts;
    [|done].
  destruct Houts as (Hcs & Hci & Hf).
  apply bind_Ok in Hfrom as ([] & s3 & H3 & Hfrom).
  apply bind_Ok in Hfrom as ([] & s4 & H4 & Hfrom).
  apply bind_Ok in Hfrom as ([] & s5 & H5 & Hfrom).
  apply bind_Ok in Hfrom as ([] & s6 & H6 & Hfrom).
  apply bind_Ok in Hfrom as ([] & s7 & H7 & Hfrom).
  apply checkConsistency_frame in Hfrom as ->.
  unfold modify in H6, H7. inversion H6; subst s6. inversion H7; subst s7.
  clear H6 H7. simpl.
  assert (Hs4 : _changeIndex s4 = _changeIndex s3 /\ _fee s4 = _fee s3).
  { destruct (to_changeScript o) as [txt|]; [|by inversion H4].
    destruct (truthy txt); [|by inversion H4].
    apply bind_Ok in H4 as (s & s' & Hs & H4).
    unfold lift in Hs. destruct (Script_fromString txt); [|discriminate].
    inversion Hs; subst. by inversion H4. }
  destruct Hs4 as [Hi4 Hf4].
  apply guarded_restore in H3, H5. subst s3 s5.
  destruct (restoredIfTruthy (to_changeIndex o)),
    (restoredIfTruthy (to_fee o)); simpl in *; split; congruence.
Qed.

(** ** Guards that do not guard *)

Lemma hasAllUtxoInfo_truthy (t : Transaction) :
  checkState (hasAllUtxoInfo t) = Ok tt.
Proof. reflexivity. Qed.

(** C2 (the code departs from the claim).  [hasAllUtxoInfo()] returns the
    array of the per-input answers, and an array is truthy: the precondition
    of [sign] holds for every transaction, also when an input lacks its
    spent output, and [sign] with one key is [getSignatures] followed by
    [applySignature] on each result. *)
Theorem sign_guard_never_rejects
  (t : Transaction) (k : PrivateKey) (sigtype' : option Z) :
  checkState (hasAllUtxoInfo t) = Ok tt
  /\ sign (OneKey k) sigtype' t
     = (sigs <- getSignatures k sigtype' ;; forEach applySignature sigs) t.
Proof. split; reflexivity. Qed.

Lemma removeOutput_out_of_range (index : Z) (t : Transaction) :
  js_index (outputs t) index = None ->
  _changeScript t = None ->
  removeOutput index t = Ok (tt, set_outputAmount None t).
Proof.
  intros Hidx Hcs. unfold removeOutput, _removeOutput. unfold_monad.
  rewrite Hidx. by rewrite updateChangeOutput_idle.
Qed.

Lemma fee_without_change_script (amount : Z) (t : Transaction) :
  _changeScript t = None ->
  fee amount t = Ok (tt, set_fee (Some amount) t)
  /\ feePerKb amount t = Ok (tt, set_feePerKb (Some amount) t).
Proof.
  intros Hcs. unfold fee, feePerKb. unfold_monad.
  by rewrite !updateChangeOutput_idle.
Qed.

End Properties.

(** * The properties on concrete transactions *)

(** C1 as stated fails.  (1) A mutation that raises in the middle of the
    recomputation leaves a change index that designates no output.  (2)
    With an output total memoized before an output was read from bytes,
    [change] returns with a change of 900,000 where the inputs, the other
    output and the fee leave 200,000.  (3) [to] with an empty list returns
    without recomputing: on a transaction rebuilt from a snapshot with a
    change script and no change index, no change is tracked although
    200,000 are left.  (4) A change index restored by a [fromObject] that
    raises for the lack of a change script stays defined, without change
    script, when [addOutput] returns.  (5) The fee is the one of the
    recomputation: with a change script of 1,000 bytes, [getFee()] on the
    result gives 200,000, and the change is 900,000 out of 1,000,000. *)
Lemma change_output_invariant_counterexample :
  (call (Call_uncheckedAddInput (Demo.classifiedBare 5 Demo.txid2))
     Demo.withChange = Throw MissingPreviousOutput
   /\ _changeScript
        (after (call (Call_uncheckedAddInput
                        (Demo.classifiedBare 5 Demo.txid2))) Demo.withChange)
      = Some Demo.changeScript
   /\ _changeIndex
        (after (call (Call_uncheckedAddInput
                        (Demo.classifiedBare 5 Demo.txid2))) Demo.withChange)
      = Some 1
   /\ js_index
        (outputs
           (after (call (Call_uncheckedAddInput
                           (Demo.classifiedBare 5 Demo.txid2)))
              Demo.withChange)) 1
      = None)
  /\ (exists s t' o,
        DemoMore.readOverMemo = Ok s
        /\ call (Call_change (Some "b"%string)) s = Ok (tt, t')
        /\ is_Some (_changeScript t')
        /\ inputTotal t' - outputTotal (withoutChange t') = 300000
        /\ eval getFee (withoutChange t') = Ok 100000
        /\ _changeIndex t' = Some 1
        /\ js_index (outputs t') 1 = Some o
        /\ satoshis o = 900000)
  /\ (exists s,
        Transaction_fromObject Demo.snapshotWithScript = Ok s
        /\ cachesConsistent s = true /\ changeNeedsScript s
        /\ call (Call_to (ToMany [])) s = Ok (tt, s)
        /\ is_Some (_changeScript s)
        /\ inputTotal s - outputTotal (withoutChange s) = 300000
        /\ eval getFee (withoutChange s) = Ok 100000
        /\ _changeIndex s = None)
  /\ (fromObject (ArgObject Demo.snapshotIndexOnly) newTransaction
      = Throw InvalidState
      /\ exists t',
           call (Call_addOutput (Demo.payment 9 1000))
             (after (fromObject (ArgObject Demo.snapshotIndexOnly))
                newTransaction)
           = Ok (tt, t')
           /\ _changeScript t' = None /\ _changeIndex t' = Some 1)
  /\ (exists s t' o,
        Transaction_fromObject Demo.snapshotLongScript = Ok s
        /\ cachesConsistent s = true /\ changeNeedsScript s
        /\ call (Call_feePerKb 100000) s = Ok (tt, t')
        /\ is_Some (_changeScript t')
        /\ inputTotal t' - outputTotal (withoutChange t') = 1000000
        /\ eval getFee t' = Ok 200000
        /\ eval getFee (withoutChange t') = Ok 100000
        /\ _changeIndex t' = Some 0
        /\ js_index (outputs t') 0 = Some o
        /\ satoshis o = 900000).
Proof.
  split; [repeat apply conj; vm_compute; reflexivity|].
  split.
  { eexists. eexists. eexists. split; [vm_compute; reflexivity|].
    split; [vm_compute; reflexivity|].
    split; [eexists; reflexivity|].
    repeat apply conj; vm_compute; reflexivity. }
  split.
  { eexists. split; [vm_compute; reflexivity|].
    split; [reflexivity|]. split; [intros i Hi; discriminate|].
    split; [reflexivity|]. split; [eexists; reflexivity|].
    repeat apply conj; vm_compute; reflexivity. }
  split.
  { split; [vm_compute; reflexivity|].
    eexists. repeat apply conj; vm_compute; reflexivity. }
  eexists. eexists. eexists. split; [vm_compute; reflexivity|].
  split; [reflexivity|]. split; [intros i Hi; discriminate|].
  split; [vm_compute; reflexivity|].
  split; [eexists; reflexivity|].
  repeat apply conj; vm_compute; reflexivity.
Qed.










(** With the example collaborators, signing a transaction whose second
    input lacks its spent output is not stopped by the precondition: it
    reaches the signing method of the inputs, and the error is theirs. *)
Example sign_reaches_the_inputs :
  exec (sign (OneKey [x01]) None) Demo.missingUtxoInfo
  = Throw AbstractMethodInvoked.
Proof. reflexivity. Qed.

(** C7 (the code departs from the claim): [removeOutput(5)] on a
    transaction with one output returns normally and leaves the output in
    place; so does [removeOutput(-1)]. *)
Theorem removeOutput_out_of_range_returns :
  exec (removeOutput 5) Demo.onePayment
  = Ok (set_outputAmount None Demo.onePayment)
  /\ exec (removeOutput (-1)) Demo.onePayment
     = Ok (set_outputAmount None Demo.onePayment)
  /\ outputs (set_outputAmount None Demo.onePayment)
     = [Demo.payment 2 5000].
Proof. repeat split; reflexivity. Qed.

(** C8 (the code departs from the claim): without a change script,
    [fee(1000)] and [feePerKb(1000)] return with the signature of the input
    still in place. *)
Theorem fee_keeps_signatures_without_change_script :
  exec (fee 1000) Demo.signedNoChange
  = Ok (set_fee (Some 1000) Demo.signedNoChange)
  /\ exec (feePerKb 1000) Demo.signedNoChange
     = Ok (set_feePerKb (Some 1000) Demo.signedNoChange)
  /\ map signatures (inputs (set_fee (Some 1000) Demo.signedNoChange))
     = [[Demo.aSignature]]
  /\ map signatures (inputs (set_feePerKb (Some 1000) Demo.signedNoChange))
     = [[Demo.aSignature]].
Proof. repeat split; reflexivity. Qed.

(** C9, on an example: clearing the outputs of a transaction with a change
    script leaves the one change output, of 1,000,000 - 100,000. *)
Lemma clearOutputs_keeps_change_witness :
  cachesConsistent Demo.withChange = true
  /\ allClassified Demo.withChange = true
  /\ allUtxoInfo Demo.withChange = true
  /\ exists t',
       clearOutputs Demo.withChange = Ok (tt, t')
       /\ map satoshis (outputs t') = [900000]
       /\ map script (outputs t') = [Demo.changeScript]
       /\ _changeIndex t' = Some 0.
Proof.
  repeat (split; [reflexivity|]).
  destruct (clearOutputs_keeps_change Demo.withChange)
    as (t' & fee' & Hrun & Hfee & Hchange); [reflexivity..|].
  exists t'. split; [exact Hrun|].
  assert (Ht' : exec clearOutputs Demo.withChange = Ok t')
    by (unfold exec; by rewrite Hrun).
  vm_compute in Ht'. inversion Ht'. repeat split; reflexivity.
Defined.

(** C10, on examples: index 0 and fee 0 are dropped; index 1 and fee 7 are
    restored. *)
Lemma fromObject_drops_zero_witness :
  (exists t',
     Transaction_fromObject Demo.snapshotZero = Ok t'
     /\ _changeIndex t' = None /\ _fee t' = None)
  /\ (exists t',
        Transaction_fromObject Demo.snapshotOne = Ok t'
        /\ _changeIndex t' = Some 1 /\ _fee t' = Some 7).
Proof.
  split.
  - destruct (Transaction_fromObject Demo.snapshotZero) as [t'|e] eqn:Hrun;
      [|vm_compute in Hrun; discriminate].
    exists t'. split; [reflexivity|].
    exact (fromObject_drops_zero Demo.snapshotZero t' Hrun).
  - destruct (Transaction_fromObject Demo.snapshotOne) as [t'|e] eqn:Hrun;
      [|vm_compute in Hrun; discriminate].
    exists t'. split; [reflexivity|].
    exact (fromObject_drops_zero Demo.snapshotOne t' Hrun).
Defined.

(** * Further properties of the module *)

Section FurtherProperties.

Context `{Collaborators}.

(** ** What is left unspent when a change output is tracked *)

Lemma js_index_Some {A} (l : list A) (i : Z) (x : A) :
  js_index l i = Some x -> 0 <= i /\ l !! Z.to_nat i = Some x.
Proof.
  unfold js_index. destruct (i <? 0) eqn:Hneg; [discriminate|].
  apply Z.ltb_ge in Hneg. done.
Qed.

Lemma sumZ_delete {A} (f : A -> Z) (l : list A) (i : nat) (x : A) :
  l !! i = Some x -> sumZ f l = f x + sumZ f (delete i l).
Proof.
  unfold sumZ. revert i. induction l as [|y l IH]; intros [|i] Hx;
    simpl in *; try discriminate.
  - by inversion Hx.
  - rewrite (IH i Hx). lia.
Qed.

Lemma tracked_change_balance (t : Transaction) (i : Z) :
  established changeInvariant t -> _changeIndex t = Some i ->
  exists fee,
    eval getFee (withoutChange t) = Ok fee
    /\ feeValue (withoutChange t) = Ok fee
    /\ inputTotal t - outputTotal t = fee.
Proof.
  intros (Hm & Hc & Ht) Hi.
  destruct (Ht i Hi) as (o & Ho & Hcs).
  unfold changeInvariant in Hm. rewrite Hcs in Hm.
  destruct Hm as (fee' & Hfee & _ & _ & Hif).
  destruct (0 <? inputTotal t - outputTotal (withoutChange t) - fee');
    [|congruence].
  destruct Hif as (i' & o' & Hi' & Ho' & _ & Hamt).
  rewrite Hi in Hi'. inversion Hi'; subst i'.
  rewrite Ho in Ho'. inversion Ho'; subst o'. clear Hi' Ho'.
  apply js_index_Some in Ho as [Hpos Ho].
  assert (Hw : withoutChange t
               = set_outputAmount None
                   (set_outputs (delete (Z.to_nat i) (outputs t)) t)).
  { unfold withoutChange. rewrite Hi.
    by replace (i <? 0) with false by (symmetry; apply Z.ltb_ge; lia). }
  assert (Hcw : cachesConsistent (withoutChange t) = true).
  { rewrite Hw. by apply cachesConsistent_outputs_reset. }
  exists fee'. split; [done|]. split; [by rewrite <- (eval_getFee _ Hcw)|].
  rewrite Hw in Hamt. unfold outputTotal in *.
  cbn [outputs set_outputAmount set_outputs] in Hamt.
  rewrite (sumZ_delete satoshis _ _ _ Ho). lia.
Qed.

(** X1.  On a transaction whose memoized totals are current and whose
    change index, if defined, comes with a change script: after a public
    mutation that returns ([to] with an empty list apart), if a change
    output is tracked, the total of the inputs minus the total of all the
    outputs is exactly the fee that [getFee()] gives on the transaction
    without the change output, as the recomputation took it. *)
Theorem tracked_change_balances (m : Mutation) (t t' : Transaction) (i : Z) :
  cachesConsistent t = true -> changeNeedsScript t ->
  emptyCall m = false ->
  call m t = Ok (tt, t') ->
  _changeIndex t' = Some i ->
  exists fee,
    eval getFee (withoutChange t') = Ok fee
    /\ inputTotal t' - outputTotal t' = fee.
Proof.
  intros Hc Hn Hne Hrun Hi.
  destruct (tracked_change_balance t' i (call_keeps m t t' Hc Hn Hne Hrun) Hi)
    as (fee' & ? & _ & ?).
  eauto.
Qed.


(** ** Bounds on the estimated fee *)

Lemma sumZ_nonneg {A} (f : A -> Z) (l : list A) :
  (forall x, x ∈ l -> 0 <= f x) -> 0 <= sumZ f l.
Proof.
  unfold sumZ. induction l as [|x l IH]; intros Hf; simpl; [lia|].
  assert (0 <= f x) by (apply Hf; left).
  assert (0 <= foldr (fun x acc => f x + acc) 0 l)
    by (apply IH; intros y Hy; apply Hf; by right).
  lia.
Qed.

(** X3.  With non-negative size estimates of the inputs and a positive
    rate, the estimated fee is at least one rate unit (one kilobyte is
    always charged), at least the first-pass fee, and at most one rate unit
    above it: the allowance for the change output costs at most one more
    kilobyte. *)
Theorem estimateFee_bounds (t : Transaction) :
  cachesConsistent t = true ->
  allUtxoInfo t = true ->
  (forall i, i ∈ inputs t -> 0 <= Input_estimateSize i) ->
  0 < js_or_default (_feePerKb t) FEE_PER_KB ->
  exists estimate,
    eval _estimateFee t = Ok estimate
    /\ js_or_default (_feePerKb t) FEE_PER_KB <= estimate
    /\ Math_ceil_div (_estimateSize t) 1000
       * js_or_default (_feePerKb t) FEE_PER_KB <= estimate
    /\ estimate
       <= (Math_ceil_div (_estimateSize t) 1000 + 1)
          * js_or_default (_feePerKb t) FEE_PER_KB.
Proof.
  intros Hc Hall Hsizes Hrate.
  exists (Transaction_estimateFee (_estimateSize t)
            (inputTotal t - outputTotal t) (_feePerKb t)).
  split.
  { unfold eval. rewrite (run_estimateFee t Hc). unfold estimateFeeValue.
    by rewrite (unspentValue_total t Hall). }
  assert (Hsize : 26 <= _estimateSize t).
  { rewrite estimateSize_sum. unfold estimatedSize, MAXIMUM_EXTRA_SIZE.
    assert (0 <= sumZ Input_estimateSize (inputs t))
      by (by apply sumZ_nonneg).
    assert (0 <= sumZ (fun o => Z.of_nat (length (script o)) + 9) (outputs t))
      by (apply sumZ_nonneg; intros; lia).
    lia. }
  unfold Transaction_estimateFee, CHANGE_OUTPUT_MAX_SIZE.
  set (rate := js_or_default (_feePerKb t) FEE_PER_KB) in *.
  set (size := _estimateSize t) in *.
  assert (Hk1 : 1 <= Math_ceil_div size 1000)
    by (unfold Math_ceil_div; Z.div_mod_to_equations; lia).
  assert (Hk2 : Math_ceil_div size 1000
                <= Math_ceil_div (size + (20 + 4 + 34 + 4)) 1000
                <= Math_ceil_div size 1000 + 1)
    by (unfold Math_ceil_div; Z.div_mod_to_equations; lia).
  destruct (Math_ceil_div size 1000 * rate <? inputTotal t - outputTotal t);
    nia.
Qed.

(** ** What a passing [verify()] guarantees *)

Lemma verify_outputs_None (outs : list Output) (acc : Z) :
  verify_outputs outs acc = None ->
  Forall (fun o => Output_invalidSatoshis o = false
                   /\ _satoshisBN o <= MAX_MONEY) outs
  /\ (outs <> [] -> acc + sumZ _satoshisBN outs <= MAX_MONEY).
Proof.
  revert acc. induction outs as [|o outs IH]; intros acc Hv; simpl in Hv.
  - split; [constructor|done].
  - destruct (Output_invalidSatoshis o) eqn:Hinv; [discriminate|].
    destruct (MAX_MONEY <? _satoshisBN o) eqn:Hone; [discriminate|].
    destruct (MAX_MONEY <? acc + _satoshisBN o) eqn:Htotal; [discriminate|].
    apply Z.ltb_ge in Hone, Htotal.
    destruct (IH _ Hv) as [Hall Hsum]. split; [by constructor|].
    intros _. unfold sumZ in *. simpl.
    destruct outs as [|o' outs]; [simpl; lia|].
    specialize (Hsum ltac:(done)). simpl in *. lia.
Qed.

(** X4.  When [verify()] returns [true], there is at least one output,
    no output has an invalid amount, every amount is at most the maximum
    amount of money, and so is the exact total of the outputs. *)
Theorem verify_true_bounds_amounts (t : Transaction) :
  verify t = Ok VerifyTrue ->
  outputs t <> []
  /\ Forall (fun o => Output_invalidSatoshis o = false
                      /\ _satoshisBN o <= 2100000000000000) (outputs t)
  /\ sumZ _satoshisBN (outputs t) <= 2100000000000000.
Proof.
  unfold verify. intros Hv.
  destruct (Z.of_nat (length (inputs t)) =? 0); [discriminate|].
  destruct (Z.of_nat (length (outputs t)) =? 0) eqn:Hlen; [discriminate|].
  destruct (verify_outputs (outputs t) 0) as [m|] eqn:Houts; [discriminate|].
  assert (Hne : outputs t <> []).
  { intros Heq. rewrite Heq in Hlen. discriminate. }
  destruct (verify_outputs_None _ _ Houts) as [Hall Hsum].
  split; [done|]. split; [exact Hall|]. specialize (Hsum Hne).
  unfold MAX_MONEY in Hsum. lia.
Qed.

(** X5.  When [verify()] returns [true], there is at least one input, the
    encoding returns and has at most 1,000,000 bytes, no two inputs spend the same
    (prevTxId, outputIndex) pair, and the transaction is either a coinbase
    with an unlock script of 2 to 100 bytes or has no null input. *)
Theorem verify_true_inputs (t : Transaction) :
  verify t = Ok VerifyTrue ->
  inputs t <> []
  /\ (exists encoding,
        toBuffer t = Ok encoding /\ Z.of_nat (length encoding) <= 1000000)
  /\ NoDup (map (fun i => (prevTxId i, outputIndex i)) (inputs t))
  /\ ((exists i, inputs t = [i] /\ Input_isNull i = true
                 /\ 2 <= Z.of_nat (length (_scriptBuffer i)) <= 100)
      \/ Forall (fun i => Input_isNull i = false) (inputs t)).
Proof.
  unfold verify. intros Hv.
  destruct (Z.of_nat (length (inputs t)) =? 0) eqn:Hlen; [discriminate|].
  destruct (Z.of_nat (length (outputs t)) =? 0); [discriminate|].
  destruct (verify_outputs (outputs t) 0); [discriminate|].
  unfold Result_bind in Hv.
  destruct (toBuffer t) as [encoding|e]; [|discriminate].
  destruct (MAX_BLOCK_SIZE <? Z.of_nat (length encoding)) eqn:Hsize;
    [discriminate|].
  destruct (verify_inputs (inputs t) ∅) as [m|] eqn:Hdup; [discriminate|].
  split. { intros Heq. rewrite Heq in Hlen. discriminate. }
  split. { exists encoding. split; [done|]. apply Z.ltb_ge in Hsize. exact Hsize. }
  split.
  { rewrite verify_inputs_check in Hdup. unfold check_duplicateKey, when in Hdup.
    case_bool_decide as Hkey; [|discriminate].
    apply (NoDup_fmap_1
             (fun p : Buffer * Z =>
                (Buffer_toString p.1 +:+ ":" +:+ Number_toString p.2)%string)).
    rewrite <- list_fmap_compose. exact Hkey. }
  unfold isCoinbase in Hv.
  destruct (inputs t) as [|i [|j ins]] eqn:Hins.
  - right. constructor.
  - destruct (Input_isNull i) eqn:Hnull.
    + left. exists i. split; [done|]. split; [done|].
      destruct (Z.of_nat (length (_scriptBuffer i)) <? 2) eqn:H2;
        [discriminate|].
      destruct (100 <? Z.of_nat (length (_scriptBuffer i))) eqn:H100;
        [discriminate|].
      apply Z.ltb_ge in H2, H100. lia.
    + right. constructor; [done|constructor].
  - right. rewrite filter_nonempty_existsb in Hv.
    destruct (existsb Input_isNull (i :: j :: ins)) eqn:Hex; [discriminate|].
    apply Forall_forall. intros x Hx.
    destruct (Input_isNull x) eqn:Hnull; [|done].
    assert (existsb Input_isNull (i :: j :: ins) = true); [|congruence].
    apply existsb_exists. exists x. split; [|done]. by apply list_elem_of_In.
Qed.

(** ** The effect of change maintenance on the lists *)

Lemma changeRemoved_outputs_inputs (ins : list Input) (t : Transaction) :
  outputs (changeRemoved (set_inputs ins t)) = outputs (changeRemoved t).
Proof.
  unfold changeRemoved. simpl. destruct (_changeIndex t) as [i|]; [|done].
  by destruct (js_index (outputs t) i).
Qed.

Lemma updateChangeOutput_effect (t t' : Transaction) :
  cachesConsistent t = true ->
  _updateChangeOutput t = Ok (tt, t') ->
  match _changeScript t with
  | None => t' = t
  | Some cs =>
      inputs t' = map (set_input_signatures []) (inputs t)
      /\ exists extra,
           outputs t' = outputs (changeRemoved t) ++ extra
           /\ (extra = []
               \/ exists c, extra = [c] /\ script c = cs /\ 0 < satoshis c)
  end.
Proof.
  intros Hc Hrun. rewrite (run_updateChangeOutput t Hc) in Hrun.
  destruct (_changeScript t) as [cs|]; [|by inversion Hrun].
  destruct (mapM_Result Input_clearSignatures (inputs t)) as [ins'|e] eqn:Hclr;
    [|discriminate].
  apply clearSignatures_inv in Hclr as [-> _]. cbv zeta in Hrun.
  set (t2 := changeRemoved (set_inputs _ t)) in *.
  destruct (unspentValue t2) as [available|e]; [|discriminate].
  destruct (feeValue t2) as [fee'|e]; [|discriminate].
  destruct (memoized_fields t2) as (Hi & Ho & _).
  assert (Hi2 : inputs t2 = map (set_input_signatures []) (inputs t)).
  { subst t2. by destruct (changeRemoved_fields (set_inputs
      (map (set_input_signatures []) (inputs t)) t)) as (-> & _). }
  assert (Ho2 : outputs t2 = outputs (changeRemoved t))
    by (subst t2; apply changeRemoved_outputs_inputs).
  destruct (0 <? available - fee') eqn:Hpos; inversion Hrun; subst t'; simpl.
  - rewrite Hi, Hi2, Ho, Ho2. split; [done|]. eexists. split; [reflexivity|].
    right. eexists. split; [reflexivity|]. simpl. split; [done|].
    by apply Z.ltb_lt in Hpos.
  - rewrite Hi, Hi2, Ho, Ho2. split; [done|]. exists []. split; [|by left].
    by rewrite app_nil_r.
Qed.

Lemma updateChangeOutput_identities (t t' : Transaction) :
  cachesConsistent t = true ->
  _updateChangeOutput t = Ok (tt, t') ->
  map iid (inputs t') = map iid (inputs t).
Proof.
  intros Hc Hrun. apply updateChangeOutput_effect in Hrun; [|done].
  destruct (_changeScript t); [|by subst].
  destruct Hrun as [-> _]. rewrite map_map. done.
Qed.

(** ** Removing an input *)

Lemma findIndex_from_none {A} (p : A -> bool) (l : list A) (i : Z) :
  Forall (fun x => p x = false) l -> findIndex_from p l i = -1.
Proof.
  revert i. induction l as [|x l IH]; intros i Hall; simpl; [done|].
  inversion Hall as [|? ? Hx Hl]; subst. rewrite Hx. by apply IH.
Qed.

Lemma findIndex_from_ge {A} (p : A -> bool) (l : list A) (i : Z) :
  findIndex_from p l i = -1 \/ i <= findIndex_from p l i.
Proof.
  revert i. induction l as [|x l IH]; intros i; simpl; [by left|].
  destruct (p x); [right; lia|]. destruct (IH (i + 1)); [by left|right; lia].
Qed.

Lemma findIndex_from_found {A} (p : A -> bool) (l : list A) (i k : Z) :
  0 <= i -> findIndex_from p l i = k -> i <= k ->
  exists x, l !! Z.to_nat (k - i) = Some x /\ p x = true
            /\ Forall (fun y => p y = false) (take (Z.to_nat (k - i)) l).
Proof.
  revert i. induction l as [|x l IH]; intros i Hi Hfind Hk; simpl in Hfind.
  - lia.
  - destruct (p x) eqn:Hx.
    + subst k. rewrite Z.sub_diag. simpl. exists x. by repeat split.
    + assert (i + 1 <= k)
        by (destruct (findIndex_from_ge p l (i + 1)); lia).
      destruct (IH (i + 1) ltac:(lia) Hfind ltac:(lia)) as (y & Hy & Hpy & Hall).
      replace (Z.to_nat (k - i)) with (S (Z.to_nat (k - (i + 1)))) by lia.
      exists y. simpl. split; [done|]. split; [done|]. by constructor.
Qed.

(** X6.  [removeInput] raises [InvalidIndex]: with the position for a
    position outside of the inputs; with [-1] when no input has the given
    transaction id and output index; and with [-1] whenever the first
    argument is a number and the second is a non-zero number, whatever the
    inputs are. *)
Theorem removeInput_invalid_index (t : Transaction) :
  (forall n outIndex,
     truthy outIndex = false ->
     n < 0 \/ Z.of_nat (length (inputs t)) <= n ->
     removeInput (ByNumber n) outIndex t
     = Throw (InvalidIndex n (Z.of_nat (length (inputs t)))))
  /\ (forall n outIndex,
        truthy outIndex = true ->
        removeInput (ByNumber n) outIndex t
        = Throw (InvalidIndex (-1) (Z.of_nat (length (inputs t)))))
  /\ (forall txId outIndex,
        Forall (fun i => ~ (Buffer_toHex (prevTxId i) = txId
                            /\ Some (outputIndex i) = outIndex)) (inputs t) ->
        removeInput (ByTxId txId) outIndex t
        = Throw (InvalidIndex (-1) (Z.of_nat (length (inputs t))))).
Proof.
  split; [|split].
  - intros n outIndex Hfalsy Hrange. unfold removeInput. unfold_monad.
    rewrite Hfalsy. simpl.
    replace ((n <? 0) || (Z.of_nat (length (inputs t)) <=? n)) with true; [done|].
    symmetry. apply orb_true_iff.
    destruct Hrange; [left; by apply Z.ltb_lt|right; by apply Z.leb_le].
  - intros n outIndex Htruthy. unfold removeInput. unfold_monad.
    rewrite Htruthy. simpl. unfold findIndex.
    by rewrite findIndex_from_none by (apply Forall_forall; done).
  - intros txId outIndex Hnone. unfold removeInput. unfold_monad.
    cbv zeta. unfold findIndex. rewrite findIndex_from_none; [done|].
    eapply Forall_impl; [exact Hnone|]. intros i Hi. simpl in Hi.
    apply andb_false_iff.
    destruct (String.eqb_spec (Buffer_toHex (prevTxId i)) txId) as [Heq|Hne];
      [right|by left].
    destruct outIndex as [k|]; [|done]. apply Z.eqb_neq. intros Hk.
    apply Hi. by subst.
Qed.

(** X7.  When [removeInput(txId, outputIndex)] returns, the first input
    with these coordinates -- no input in front of it has them -- is gone
    together with every other reference to the same input object, and the
    remaining inputs keep their order. *)
Theorem removeInput_by_coordinates
  (txId : string) (k : Z) (t t' : Transaction) :
  cachesConsistent t = true ->
  removeInput (ByTxId txId) (Some k) t = Ok (tt, t') ->
  exists n input,
    inputs t !! n = Some input
    /\ Buffer_toHex (prevTxId input) = txId /\ outputIndex input = k
    /\ Forall (fun j => ~ (Buffer_toHex (prevTxId j) = txId
                           /\ outputIndex j = k)) (take n (inputs t))
    /\ map iid (inputs t')
       = map iid (List.filter (fun j => negb (same_input j input)) (inputs t))
    /\ Forall (fun j => iid j <> iid input) (inputs t').
Proof.
  intros Hc Hrun. unfold removeInput in Hrun. unfold_monad. cbv zeta in Hrun.
  set (p := fun input : Input =>
              String.eqb (Buffer_toHex (prevTxId input)) txId
              && (outputIndex input =? k)) in *.
  destruct ((findIndex p (inputs t) <? 0)
            || (Z.of_nat (length (inputs t)) <=? findIndex p (inputs t)))
    eqn:Hrange; [discriminate|].
  apply orb_false_elim in Hrange as [Hneg _]. apply Z.ltb_ge in Hneg.
  destruct (findIndex_from_found p (inputs t) 0 _ ltac:(lia) eq_refl Hneg)
    as (input & Hlook & Hp & Hfront).
  rewrite Z.sub_0_r in Hlook, Hfront.
  assert (Hidx : js_index (inputs t) (findIndex p (inputs t)) = Some input).
  { unfold js_index.
    by replace (findIndex p (inputs t) <? 0) with false
      by (symmetry; apply Z.ltb_ge; lia). }
  rewrite Hidx in Hrun. simpl in Hrun.
  apply updateChangeOutput_identities in Hrun;
    [|by eapply cachesConsistent_after_inputs].
  simpl in Hrun. exists (Z.to_nat (findIndex p (inputs t))), input.
  apply andb_prop in Hp as [Hhex Hk].
  split; [exact Hlook|].
  split; [by apply String.eqb_eq|]. split; [by apply Z.eqb_eq|].
  split.
  { eapply Forall_impl; [exact Hfront|]. intros j Hj [Hjhex Hjk].
    unfold p in Hj. apply andb_false_iff in Hj as [Hj|Hj].
    - apply String.eqb_neq in Hj. done.
    - apply Z.eqb_neq in Hj. done. }
  split; [exact Hrun|].
  assert (Hids : Forall (fun n => n <> iid input) (map iid (inputs t'))).
  { rewrite Hrun. apply Forall_forall. intros n Hn.
    apply list_elem_of_fmap in Hn as (j & -> & Hj).
    apply list_elem_of_In, filter_In in Hj as [_ Hj].
    unfold same_input in Hj. apply negb_true_iff, Nat.eqb_neq in Hj. done. }
  apply Forall_forall. intros j Hj.
  rewrite Forall_forall in Hids. apply Hids.
  apply list_elem_of_fmap. eauto.
Qed.

(** ** Removing and adding outputs next to the change output *)

Lemma updateChangeOutput_tracks (t t' : Transaction) (cs : Script) :
  cachesConsistent t = true ->
  _changeScript t = Some cs ->
  _updateChangeOutput t = Ok (tt, t') ->
  (outputs t' = outputs (changeRemoved t) /\ _changeIndex t' = None)
  \/ (exists c,
        outputs t' = outputs (changeRemoved t) ++ [c]
        /\ script c = cs /\ 0 < satoshis c
        /\ _changeIndex t'
           = Some (Z.of_nat (length (outputs (changeRemoved t))))).
Proof.
  intros Hc Hcs Hrun. rewrite (run_updateChangeOutput t Hc) in Hrun.
  rewrite Hcs in Hrun.
  destruct (mapM_Result Input_clearSignatures (inputs t)) as [ins'|e];
    [|discriminate].
  cbv zeta in Hrun.
  pose proof (changeRemoved_outputs_inputs ins' t) as Ho2.
  set (t2 := changeRemoved (set_inputs ins' t)) in *.
  destruct (unspentValue t2) as [available|e]; [|discriminate].
  destruct (feeValue t2) as [fee'|e]; [|discriminate].
  destruct (memoized_fields t2) as (_ & Ho & _).
  destruct (0 <? available - fee') eqn:Hpos; injection Hrun as <-.
  - right. eexists. unfold changeAdded.
    cbn [outputs _changeIndex set_outputAmount set_outputs set_heapNext
         set_changeIndex script satoshis].
    rewrite Ho, Ho2. split; [reflexivity|]. split; [reflexivity|].
    split; [by apply Z.ltb_lt in Hpos|reflexivity].
  - left. cbn [outputs _changeIndex set_changeIndex]. by rewrite Ho, Ho2.
Qed.

(** X8.  [removeOutput(0)] on a transaction with a change script whose
    change output is tracked at the last position removes the first output
    only: the output that was the change stays in the list, as an ordinary
    output that is no longer tracked, and change maintenance appends at
    most one new change output behind it, which carries the change script,
    has a positive amount and is the one tracked; without a new change
    output no change index is defined. *)
Theorem removeOutput_before_change
  (o c : Output) (outs : list Output) (cs : Script) (t t' : Transaction) :
  cachesConsistent t = true ->
  _changeScript t = Some cs ->
  outputs t = o :: outs ++ [c] ->
  _changeIndex t = Some (Z.of_nat (length outs + 1)) ->
  Forall (fun x => oid x <> oid o) (outs ++ [c]) ->
  removeOutput 0 t = Ok (tt, t') ->
  exists extra,
    outputs t' = outs ++ [c] ++ extra
    /\ ((extra = [] /\ _changeIndex t' = None)
        \/ exists c',
             extra = [c'] /\ script c' = cs /\ 0 < satoshis c'
             /\ _changeIndex t' = Some (Z.of_nat (length outs + 1))).
Proof.
  intros Hc Hcs Houts Hci Hfresh Hrun.
  unfold removeOutput, _removeOutput in Hrun. unfold_monad.
  rewrite Houts in Hrun. simpl in Hrun.
  assert (Hfilter : List.filter (fun val => negb (same_output val o))
                      (outs ++ [c]) = outs ++ [c]).
  { apply forallb_filter_id. apply forallb_forall. intros x Hx.
    rewrite Forall_forall in Hfresh.
    apply negb_true_iff, Nat.eqb_neq, Hfresh. by apply list_elem_of_In. }
  unfold same_output at 1 in Hrun. rewrite Nat.eqb_refl in Hrun. simpl in Hrun.
  rewrite Hfilter in Hrun.
  set (t1 := set_outputAmount None (set_outputs (outs ++ [c]) t)) in *.
  assert (Hc1 : cachesConsistent t1 = true)
    by (by apply cachesConsistent_outputs_reset).
  assert (Hsame : outputs (changeRemoved t1) = outs ++ [c]).
  { unfold changeRemoved. simpl. rewrite Hci. unfold js_index.
    replace (Z.of_nat (length outs + 1) <? 0) with false
      by (symmetry; apply Z.ltb_ge; lia).
    rewrite Nat2Z.id, lookup_ge_None_2; [done|].
    rewrite length_app. simpl. lia. }
  destruct (updateChangeOutput_tracks t1 t' cs Hc1 Hcs Hrun)
    as [[Hout Hidx]|(c' & Hout & Hscript & Hpos & Hidx)];
    rewrite Hsame in *.
  - exists []. rewrite app_nil_r. split; [done|]. by left.
  - exists [c']. rewrite <- app_assoc in Hout. split; [done|].
    right. exists c'. repeat split; try done.
    rewrite Hidx, length_app. cbn [length]. done.
Qed.

Lemma filter_unique_identity (l1 l2 : list Output) (c : Output) :
  Forall (fun x => oid x <> oid c) (l1 ++ l2) ->
  List.filter (fun val => negb (same_output val c)) (l1 ++ c :: l2) = l1 ++ l2.
Proof.
  intros Hfresh. apply Forall_app in Hfresh as [H1 H2].
  rewrite List.filter_app. simpl. unfold same_output at 2.
  rewrite Nat.eqb_refl. simpl.
  rewrite !forallb_filter_id; [done| |];
    apply forallb_forall; intros x Hx;
    apply negb_true_iff, Nat.eqb_neq;
    [rewrite Forall_forall in H2; apply H2|rewrite Forall_forall in H1; apply H1];
    by apply list_elem_of_In.
Qed.

(** X9.  [addOutput] keeps the caller's outputs in their order: with a
    change script and the change output tracked at its index, its object
    occurring once, the outputs afterwards are the other outputs as they
    were, then the added output, then at most one change output, which
    carries the change script. *)
Theorem addOutput_keeps_order
  (o c : Output) (l1 l2 : list Output) (cs : Script) (t t' : Transaction) :
  cachesConsistent t = true ->
  _changeScript t = Some cs ->
  outputs t = l1 ++ c :: l2 ->
  _changeIndex t = Some (Z.of_nat (length l1)) ->
  Forall (fun x => oid x <> oid c) (l1 ++ l2 ++ [o]) ->
  addOutput o t = Ok (tt, t') ->
  exists extra,
    outputs t' = l1 ++ l2 ++ [o] ++ extra
    /\ (extra = [] \/ exists c', extra = [c'] /\ script c' = cs).
Proof.
  intros Hc Hcs Houts Hci Hfresh Hrun.
  unfold addOutput, _addOutput in Hrun. unfold_monad. simpl in Hrun.
  set (t1 := set_outputAmount None (set_outputs (outputs t ++ [o]) t)) in *.
  assert (Hc1 : cachesConsistent t1 = true)
    by (by apply cachesConsistent_outputs_reset).
  apply updateChangeOutput_effect in Hrun; [|done].
  assert (Hsame : outputs (changeRemoved t1) = l1 ++ l2 ++ [o]).
  { unfold changeRemoved. simpl. rewrite Hci, Houts. unfold js_index.
    replace (Z.of_nat (length l1) <? 0) with false
      by (symmetry; apply Z.ltb_ge; lia).
    rewrite Nat2Z.id, <- app_assoc. simpl.
    rewrite list_lookup_middle by done. simpl.
    rewrite (filter_unique_identity l1 (l2 ++ [o]) c); [done|exact Hfresh]. }
  replace (_changeScript t1) with (Some cs) in Hrun by done.
  destruct Hrun as (_ & extra & Hout & Hextra). exists extra.
  rewrite Hout, Hsame, <- !app_assoc. split; [done|].
  destruct Hextra as [->|(c' & -> & <- & _)]; [by left|right; eauto].
Qed.

(** ** Serialization with the named checks disabled *)

Lemma toString_memoized (t : Transaction) : toString (memoized t) = toString t.
Proof.
  unfold toString, toBuffer, memoized.
  by destruct (sumInputAmounts (inputs t) 0).
Qed.

Lemma eval_uncheckedSerialize (t : Transaction) :
  eval uncheckedSerialize t = toString t.
Proof.
  unfold eval, uncheckedSerialize. rewrite run_bind, run_gets, run_lift.
  by destruct (toString t).
Qed.

Lemma run_getSerializationError_disabled (t : Transaction) :
  cachesConsistent t = true ->
  getSerializationError allChecksDisabled t
  = if existsb Output_invalidSatoshis (outputs t)
    then Ok (Some InvalidSatoshis, t)
    else if negb (allUtxoInfo t) then Throw MissingPreviousOutput
    else
      Ok (if (0 <=? inputTotal t - outputTotal t)
             && explicitFeeDiffers t (inputTotal t - outputTotal t)
          then Some (FeeError_Different (inputTotal t - outputTotal t)
                       (default 0 (_fee t)))
          else None, memoized t).
Proof.
  intros Hc. unfold getSerializationError, invalidSatoshis.
  rewrite run_bind. rewrite run_gets.
  destruct (existsb Output_invalidSatoshis (outputs t)); [done|].
  rewrite run_bind. rewrite (run_getUnspentValue t Hc).
  destruct (allUtxoInfo t) eqn:Hall; cbn [negb];
    [|by rewrite (unspentValue_missing t Hall)].
  rewrite (unspentValue_total t Hall).
  set (unspent := inputTotal t - outputTotal t).
  destruct (memoized_fields t) as (_ & _ & Hf & _).
  rewrite run_bind.
  destruct (unspent <? 0) eqn:Hneg.
  - replace (0 <=? unspent) with false by (symmetry; apply Z.leb_gt; lia).
    reflexivity.
  - replace (0 <=? unspent) with true by (symmetry; apply Z.leb_le; lia).
    unfold _hasFeeError, explicitFeeDiffers. unfold_monad. simpl.
    rewrite Hf. destruct (_fee t) as [v|]; simpl; [|done].
    by destruct (v =? unspent).
Qed.


End FurtherProperties.

(** * The further properties on concrete transactions *)

(** X1, on an example: [change] on one million in and a payment of
    700,000. *)
Lemma tracked_change_balances_witness :
  exists t t',
    exec (addOutput (Demo.payment 2 700000)) Demo.funded = Ok t
    /\ cachesConsistent t = true /\ changeNeedsScript t
    /\ call (Call_change (Some "b"%string)) t = Ok (tt, t')
    /\ _changeIndex t' = Some 1
    /\ inputTotal t' - outputTotal t' = 100000
    /\ exists fee,
         eval getFee (withoutChange t') = Ok fee
         /\ inputTotal t' - outputTotal t' = fee.
Proof.
  eexists. eexists. split; [vm_compute; reflexivity|].
  match goal with
  | |- _ /\ changeNeedsScript ?t /\ _ =>
      set (T := t);
      assert (Hn : changeNeedsScript T) by (intros i Hi; discriminate)
  end.
  split; [reflexivity|]. split; [exact Hn|].
  split; [vm_compute; reflexivity|]. split; [reflexivity|].
  split; [vm_compute; reflexivity|].
  apply (tracked_change_balances (Call_change (Some "b"%string)) T _ 1);
    [reflexivity|exact Hn|reflexivity|vm_compute; reflexivity|reflexivity].
Defined.


(** X3, on an example. *)
Lemma estimateFee_bounds_witness :
  cachesConsistent Demo.withChange = true
  /\ allUtxoInfo Demo.withChange = true
  /\ (forall i, i ∈ inputs Demo.withChange -> 0 <= Input_estimateSize i)
  /\ 0 < js_or_default (_feePerKb Demo.withChange) FEE_PER_KB
  /\ exists estimate,
       eval _estimateFee Demo.withChange = Ok estimate
       /\ js_or_default (_feePerKb Demo.withChange) FEE_PER_KB <= estimate
       /\ Math_ceil_div (_estimateSize Demo.withChange) 1000
          * js_or_default (_feePerKb Demo.withChange) FEE_PER_KB <= estimate
       /\ estimate
          <= (Math_ceil_div (_estimateSize Demo.withChange) 1000 + 1)
             * js_or_default (_feePerKb Demo.withChange) FEE_PER_KB.
Proof.
  assert (Hs : forall i, i ∈ inputs Demo.withChange
                         -> 0 <= Input_estimateSize i).
  { intros i Hi. apply list_elem_of_singleton in Hi. subst i.
    vm_compute. discriminate. }
  split; [reflexivity|]. split; [reflexivity|]. split; [exact Hs|].
  split; [reflexivity|].
  exact (estimateFee_bounds Demo.withChange eq_refl eq_refl Hs eq_refl).
Defined.

(** X4, on an example. *)
Lemma verify_true_bounds_amounts_witness :
  verify Demo.withChange = Ok VerifyTrue
  /\ outputs Demo.withChange <> []
  /\ Forall (fun o => Output_invalidSatoshis o = false
                      /\ _satoshisBN o <= 2100000000000000)
       (outputs Demo.withChange)
  /\ sumZ _satoshisBN (outputs Demo.withChange) <= 2100000000000000.
Proof.
  split; [reflexivity|].
  exact (verify_true_bounds_amounts Demo.withChange eq_refl).
Defined.

(** X5, on an example. *)
Lemma verify_true_inputs_witness :
  verify Demo.withChange = Ok VerifyTrue
  /\ inputs Demo.withChange <> []
  /\ (exists encoding,
        toBuffer Demo.withChange = Ok encoding
        /\ Z.of_nat (length encoding) <= 1000000)
  /\ NoDup (map (fun i => (prevTxId i, outputIndex i))
              (inputs Demo.withChange))
  /\ ((exists i, inputs Demo.withChange = [i] /\ Input_isNull i = true
                 /\ 2 <= Z.of_nat (length (_scriptBuffer i)) <= 100)
      \/ Forall (fun i => Input_isNull i = false) (inputs Demo.withChange)).
Proof.
  split; [reflexivity|].
  exact (verify_true_inputs Demo.withChange eq_refl).
Defined.

(** X6, on an example with one input. *)
Lemma removeInput_invalid_index_witness :
  removeInput (ByNumber 5) None Demo.funded = Throw (InvalidIndex 5 1)
  /\ removeInput (ByNumber 0) (Some 1) Demo.funded
     = Throw (InvalidIndex (-1) 1)
  /\ removeInput (ByTxId "ff") (Some 0) Demo.funded
     = Throw (InvalidIndex (-1) 1).
Proof.
  destruct (removeInput_invalid_index Demo.funded) as (H1 & H2 & H3).
  split; [apply (H1 5 None); [reflexivity|right; simpl; lia]|].
  split; [apply (H2 0 (Some 1)); reflexivity|].
  apply (H3 "ff"%string (Some 0)).
  repeat constructor. intros [Hhex _]. vm_compute in Hhex. discriminate.
Defined.

(** X7, on an example: the first input is referenced twice. *)
Lemma removeInput_by_coordinates_witness :
  cachesConsistent Examples.aliasedInputs = true
  /\ exists t',
       removeInput (ByTxId "11223344") (Some 0) Examples.aliasedInputs
       = Ok (tt, t')
       /\ map iid (inputs t') = [2%nat]
       /\ exists n input,
            inputs Examples.aliasedInputs !! n = Some input
            /\ Buffer_toHex (prevTxId input) = "11223344"%string
            /\ outputIndex input = 0
            /\ Forall (fun j => ~ (Buffer_toHex (prevTxId j)
                                   = "11223344"%string
                                   /\ outputIndex j = 0))
                 (take n (inputs Examples.aliasedInputs))
            /\ map iid (inputs t')
               = map iid (List.filter (fun j => negb (same_input j input))
                            (inputs Examples.aliasedInputs))
            /\ Forall (fun j => iid j <> iid input) (inputs t').
Proof.
  split; [reflexivity|]. eexists. split; [vm_compute; reflexivity|].
  split; [reflexivity|].
  apply (removeInput_by_coordinates "11223344" 0 Examples.aliasedInputs);
    [reflexivity|vm_compute; reflexivity].
Defined.

(** X8, on an example: the payment in front of the change of 200,000 is
    removed; the former change stays, and a new change of 700,000 is
    tracked behind it. *)
Lemma removeOutput_before_change_witness :
  cachesConsistent Demo.withChange = true
  /\ exists t',
       removeOutput 0 Demo.withChange = Ok (tt, t')
       /\ map satoshis (outputs t') = [200000; 700000]
       /\ exists extra,
            outputs t'
            = [] ++ [mkOutput 3 Demo.changeScript 200000 200000] ++ extra
            /\ ((extra = [] /\ _changeIndex t' = None)
                \/ exists c',
                     extra = [c'] /\ script c' = Demo.changeScript
                     /\ 0 < satoshis c'
                     /\ _changeIndex t' = Some (Z.of_nat (length (@nil Output) + 1))).
Proof.
  split; [reflexivity|]. eexists. split; [vm_compute; reflexivity|].
  split; [reflexivity|].
  apply (removeOutput_before_change (Demo.payment 2 700000)
           (mkOutput 3 Demo.changeScript 200000 200000) [] Demo.changeScript
           Demo.withChange);
    [reflexivity|reflexivity|reflexivity|reflexivity
    |repeat constructor; simpl; lia|vm_compute; reflexivity].
Defined.

(** X9, on an example. *)
Lemma addOutput_keeps_order_witness :
  cachesConsistent Demo.withChange = true
  /\ exists t',
       addOutput (Demo.payment 5 1000) Demo.withChange = Ok (tt, t')
       /\ exists extra,
            outputs t'
            = [Demo.payment 2 700000] ++ [] ++ [Demo.payment 5 1000] ++ extra
            /\ (extra = []
                \/ exists c', extra = [c'] /\ script c' = Demo.changeScript).
Proof.
  split; [reflexivity|]. eexists. split; [vm_compute; reflexivity|].
  apply (addOutput_keeps_order (Demo.payment 5 1000)
           (mkOutput 3 Demo.changeScript 200000 200000)
           [Demo.payment 2 700000] [] Demo.changeScript Demo.withChange);
    [reflexivity|reflexivity|reflexivity|reflexivity
    |repeat constructor; simpl; lia|vm_compute; reflexivity].
Defined.


(** * Lock time and replace-by-fee *)

Section LockTimeProperties.

Context `{Collaborators} `{MoreCollaborators}.

Lemma enableLockTime_coordinates (l : list Input) :
  map coordinates (map enableLockTime l) = map coordinates l.
Proof.
  induction l as [|i l IH]; [reflexivity|].
  cbn [map]. rewrite IH. f_equal.
  unfold enableLockTime. by destruct (_ =? _).
Qed.

Lemma enableLockTime_RBF (i : Input) :
  Input_MAXINT - 1 <= Input_DEFAULT_SEQNUMBER ->
  Input_MAXINT - 1 <= Input_DEFAULT_LOCKTIME_SEQNUMBER ->
  (sequenceNumber (enableLockTime i) <? Input_MAXINT - 1)
  = (sequenceNumber i <? Input_MAXINT - 1).
Proof.
  intros Hd Hl. unfold enableLockTime.
  destruct (sequenceNumber i =? Input_DEFAULT_SEQNUMBER) eqn:E; [|reflexivity].
  apply Z.eqb_eq in E. cbn [sequenceNumber set_input_sequenceNumber].
  rewrite E. transitivity false; [|symmetry]; apply Z.ltb_ge; lia.
Qed.

Lemma isRBF_enableLockTime (t : Transaction) (n : Z) :
  Input_MAXINT - 1 <= Input_DEFAULT_SEQNUMBER ->
  Input_MAXINT - 1 <= Input_DEFAULT_LOCKTIME_SEQNUMBER ->
  isRBF (set_nLockTime n (set_inputs (map enableLockTime (inputs t)) t))
  = isRBF t.
Proof.
  intros Hd Hl. unfold isRBF. cbn [inputs set_nLockTime set_inputs].
  induction (inputs t) as [|i l IH]; [reflexivity|].
  cbn [map existsb]. by rewrite IH, enableLockTime_RBF.
Qed.

(** X11.  [lockUntilBlockHeight] returns for every height from 0 below
    500,000,000, and [getLockTime()] then reads the height back, except
    that height 0 reads back as [null]; the outputs and what the inputs
    spend are untouched. *)
Theorem lockUntilBlockHeight_reads_back (t : Transaction) (height : Z) :
  0 <= height < NLOCKTIME_BLOCKHEIGHT_LIMIT ->
  exists t',
    lockUntilBlockHeight height t = Locked t'
    /\ getLockTime t'
       = (if height =? 0 then LockTime_null else LockTime_height height)
    /\ outputs t' = outputs t
    /\ map coordinates (inputs t') = map coordinates (inputs t).
Proof.
  intros [Hpos Hlim]. unfold lockUntilBlockHeight.
  rewrite (proj2 (Z.leb_gt _ _) Hlim), (proj2 (Z.ltb_ge _ _) Hpos).
  eexists. split; [reflexivity|]. split; [|split].
  - unfold getLockTime. cbn [nLockTime set_nLockTime].
    change (truthy height) with (negb (height =? 0)).
    destruct (height =? 0); [reflexivity|]. cbn [negb].
    by rewrite (proj2 (Z.ltb_lt _ _) Hlim).
  - reflexivity.
  - cbn [inputs set_nLockTime set_inputs]. apply enableLockTime_coordinates.
Qed.

(** X12.  [lockUntilDate] checks numbers only: a number of seconds below
    500,000,000 is refused as too early, but a [Date] at the same number
    of seconds is accepted, and [getLockTime()] then reads it back as a
    block height, not as a date. *)
Theorem lockUntilDate_early_date (t : Transaction) (seconds : Z) :
  0 < seconds < NLOCKTIME_BLOCKHEIGHT_LIMIT ->
  lockUntilDate (TimeNumber seconds) t = LockTimeTooEarly
  /\ exists t',
       lockUntilDate (TimeDate seconds) t = Locked t'
       /\ getLockTime t' = LockTime_height seconds.
Proof.
  intros [Hpos Hlim]. split.
  - unfold lockUntilDate. change (truthy seconds) with (negb (seconds =? 0)).
    rewrite (proj2 (Z.eqb_neq seconds 0)) by lia. cbn [negb].
    by rewrite (proj2 (Z.ltb_lt _ _) Hlim).
  - eexists. split; [reflexivity|].
    unfold getLockTime. cbn [nLockTime set_nLockTime].
    change (truthy seconds) with (negb (seconds =? 0)).
    rewrite (proj2 (Z.eqb_neq seconds 0)) by lia. cbn [negb].
    by rewrite (proj2 (Z.ltb_lt _ _) Hlim).
Qed.

(** X13.  A time from 500,000,000 seconds on, given as a number or as a
    [Date], is accepted by [lockUntilDate], and [getLockTime()] reads it
    back as the date at that many seconds. *)
Theorem lockUntilDate_reads_back (t : Transaction) (seconds : Z) :
  NLOCKTIME_BLOCKHEIGHT_LIMIT <= seconds ->
  exists t1 t2,
    lockUntilDate (TimeNumber seconds) t = Locked t1
    /\ lockUntilDate (TimeDate seconds) t = Locked t2
    /\ t1 = t2
    /\ getLockTime t1 = LockTime_date (1000 * seconds).
Proof.
  intros Hlim. unfold NLOCKTIME_BLOCKHEIGHT_LIMIT in Hlim.
  unfold lockUntilDate. change (truthy seconds) with (negb (seconds =? 0)).
  rewrite (proj2 (Z.eqb_neq seconds 0)) by lia. cbn [negb].
  rewrite (proj2 (Z.ltb_ge seconds NLOCKTIME_BLOCKHEIGHT_LIMIT))
    by (unfold NLOCKTIME_BLOCKHEIGHT_LIMIT; lia).
  eexists _, _. split; [reflexivity|]. split; [reflexivity|].
  split; [reflexivity|].
  unfold getLockTime. cbn [nLockTime set_nLockTime].
  change (truthy seconds) with (negb (seconds =? 0)).
  rewrite (proj2 (Z.eqb_neq seconds 0)) by lia. cbn [negb].
  by rewrite (proj2 (Z.ltb_ge seconds NLOCKTIME_BLOCKHEIGHT_LIMIT))
    by (unfold NLOCKTIME_BLOCKHEIGHT_LIMIT; lia).
Qed.

(** X14.  Locking does not opt in to replace-by-fee: when the default
    sequence number and the one for lock time are both at least
    [MAXINT - 1], [isRBF()] is the same before and after
    [lockUntilBlockHeight] and [lockUntilDate]. *)
Theorem lock_keeps_isRBF (t : Transaction) :
  Input_MAXINT - 1 <= Input_DEFAULT_SEQNUMBER ->
  Input_MAXINT - 1 <= Input_DEFAULT_LOCKTIME_SEQNUMBER ->
  (forall height t',
     lockUntilBlockHeight height t = Locked t' -> isRBF t' = isRBF t)
  /\ (forall time t',
        lockUntilDate time t = Locked t' -> isRBF t' = isRBF t).
Proof.
  intros Hd Hl. split.
  - intros height t'. unfold lockUntilBlockHeight.
    destruct (_ <=? _); [discriminate|]. destruct (_ <? _); [discriminate|].
    intros [= <-]. by apply isRBF_enableLockTime.
  - intros [n|s] t'; unfold lockUntilDate.
    + destruct (negb _); [discriminate|]. destruct (_ <? _); [discriminate|].
      intros [= <-]. by apply isRBF_enableLockTime.
    + intros [= <-]. by apply isRBF_enableLockTime.
Qed.

(** X15.  After [enableRBF()], with a replace-by-fee sequence number below
    [MAXINT - 1], [isRBF()] holds exactly when there is an input; a second
    [enableRBF()] changes nothing, and what the inputs spend is as before. *)
Theorem enableRBF_isRBF (t : Transaction) :
  Input_DEFAULT_RBF_SEQNUMBER < Input_MAXINT - 1 ->
  isRBF (enableRBF t) = negb (bool_decide (inputs t = []))
  /\ enableRBF (enableRBF t) = enableRBF t
  /\ map coordinates (inputs (enableRBF t)) = map coordinates (inputs t)
  /\ outputs (enableRBF t) = outputs t.
Proof.
  intros Hrbf. split; [|split; [|split]].
  - unfold isRBF, enableRBF. cbn [inputs set_inputs].
    destruct (inputs t) as [|i l]; [reflexivity|].
    cbn [map existsb]. rewrite bool_decide_eq_false_2 by discriminate.
    cbn [negb]. destruct (Input_MAXINT - 1 <=? sequenceNumber i) eqn:E.
    + cbn [sequenceNumber set_input_sequenceNumber].
      by rewrite (proj2 (Z.ltb_lt _ _) Hrbf).
    + apply Z.leb_gt in E. by rewrite (proj2 (Z.ltb_lt _ _) E).
  - unfold enableRBF, set_inputs.
    cbn [inputs outputs _inputAmount _outputAmount version
         nLockTime _changeScript _changeIndex _fee _feePerKb heapNext].
    f_equal. rewrite map_map. apply map_ext. intros i.
    destruct (Input_MAXINT - 1 <=? sequenceNumber i) eqn:E.
    + cbn [sequenceNumber set_input_sequenceNumber].
      by rewrite (proj2 (Z.leb_gt _ _) Hrbf).
    + by rewrite E.
  - unfold enableRBF. cbn [inputs set_inputs].
    induction (inputs t) as [|i l IH]; [reflexivity|].
    cbn [map]. rewrite IH. f_equal. by destruct (_ <=? _).
  - reflexivity.
Qed.

End LockTimeProperties.

(** * Ordering of inputs and outputs *)

Section OrderingProperties.

Context `{Collaborators} `{MoreCollaborators}.

(** ** The comparisons and the sort *)

Lemma Buffer_compare_antisym (a b : Buffer) :
  Buffer_compare b a = - Buffer_compare a b.
Proof.
  revert b. induction a as [|x a IH]; intros [|y b]; cbn [Buffer_compare];
    try reflexivity.
  destruct (Byte.to_N x <? Byte.to_N y)%N eqn:E1,
           (Byte.to_N y <? Byte.to_N x)%N eqn:E2; try reflexivity.
  - apply N.ltb_lt in E1, E2. lia.
  - apply IH.
Qed.

Lemma compareInputs_total (a b : Input) :
  compareInputs a b <= 0 \/ compareInputs b a <= 0.
Proof.
  unfold compareInputs.
  rewrite (Buffer_compare_antisym (prevTxId a) (prevTxId b)).
  unfold truthy, truthy_number.
  set (c := Buffer_compare (prevTxId a) (prevTxId b)).
  destruct (c =? 0) eqn:E1, (- c =? 0) eqn:E2; cbn [negb]; lia.
Qed.

Lemma compareOutputs_total (a b : Output) :
  compareOutputs a b <= 0 \/ compareOutputs b a <= 0.
Proof.
  unfold compareOutputs.
  rewrite (Buffer_compare_antisym (script a) (script b)).
  unfold truthy, truthy_number.
  destruct (satoshis a - satoshis b =? 0) eqn:E1,
           (satoshis b - satoshis a =? 0) eqn:E2; cbn [negb]; lia.
Qed.

Lemma insertSorted_perm {A} (compare : A -> A -> Z) (x : A) (l : list A) :
  insertSorted compare x l ≡ₚ x :: l.
Proof.
  induction l as [|y l IH]; [reflexivity|].
  cbn [insertSorted]. destruct (compare x y <=? 0); [reflexivity|].
  rewrite IH. apply Permutation_swap.
Qed.

Lemma Array_sort_perm {A} (compare : A -> A -> Z) (l : list A) :
  Array_sort compare l ≡ₚ l.
Proof.
  induction l as [|x l IH]; [reflexivity|].
  unfold Array_sort in *. cbn [foldr].
  rewrite insertSorted_perm. by apply Permutation_cons.
Qed.

Lemma orderedBy_tail {A} (compare : A -> A -> Z) (x : A) (l : list A) :
  orderedBy compare (x :: l) = true -> orderedBy compare l = true.
Proof.
  destruct l as [|y l]; [reflexivity|]. cbn [orderedBy].
  intros Ho. by apply andb_true_iff in Ho as [_ Ho].
Qed.

Lemma insertSorted_ordered {A} (compare : A -> A -> Z) (x : A) (l : list A) :
  (forall a b, compare a b <= 0 \/ compare b a <= 0) ->
  orderedBy compare l = true ->
  orderedBy compare (insertSorted compare x l) = true.
Proof.
  intros Htotal. induction l as [|y l IH]; [reflexivity|].
  intros Ho. cbn [insertSorted].
  destruct (compare x y <=? 0) eqn:E.
  - change (orderedBy compare (x :: y :: l))
      with ((compare x y <=? 0) && orderedBy compare (y :: l)).
    by rewrite E.
  - assert (Hyx : (compare y x <=? 0) = true).
    { apply Z.leb_le. apply Z.leb_gt in E. destruct (Htotal x y); lia. }
    specialize (IH (orderedBy_tail _ _ _ Ho)).
    destruct l as [|z l].
    + cbn [insertSorted orderedBy]. by rewrite Hyx.
    + cbn [insertSorted] in *.
      cbn [orderedBy] in Ho. apply andb_true_iff in Ho as [Hyz Ho].
      destruct (compare x z <=? 0) eqn:E2.
      * change (orderedBy compare (y :: x :: z :: l))
          with ((compare y x <=? 0) && orderedBy compare (x :: z :: l)).
        by rewrite Hyx, IH.
      * change ((compare y z <=? 0)
                && orderedBy compare (z :: insertSorted compare x l) = true).
        by rewrite Hyz, IH.
Qed.

Lemma Array_sort_ordered {A} (compare : A -> A -> Z) (l : list A) :
  (forall a b, compare a b <= 0 \/ compare b a <= 0) ->
  orderedBy compare (Array_sort compare l) = true.
Proof.
  intros Htotal. induction l as [|x l IH]; [reflexivity|].
  unfold Array_sort in *. cbn [foldr]. by apply insertSorted_ordered.
Qed.

Lemma Array_sort_of_ordered {A} (compare : A -> A -> Z) (l : list A) :
  orderedBy compare l = true -> Array_sort compare l = l.
Proof.
  induction l as [|x l IH]; [reflexivity|].
  intros Ho. unfold Array_sort in *. cbn [foldr].
  rewrite (IH (orderedBy_tail _ _ _ Ho)).
  destruct l as [|y l]; [reflexivity|].
  cbn [insertSorted]. cbn [orderedBy] in Ho.
  apply andb_true_iff in Ho as [E _]. by rewrite E.
Qed.

Lemma orderedBy_map {A} (compare : A -> A -> Z) (g : A -> A) (l : list A) :
  (forall a b, compare (g a) (g b) = compare a b) ->
  orderedBy compare (map g l) = orderedBy compare l.
Proof.
  intros Hg. induction l as [|x l IH]; [reflexivity|].
  destruct l as [|y l]; [reflexivity|].
  cbn [map] in *.
  change (orderedBy compare (g x :: g y :: map g l))
    with ((compare (g x) (g y) <=? 0) && orderedBy compare (g y :: map g l)).
  rewrite IH, Hg. reflexivity.
Qed.

Lemma forallb_Permutation {A} (p : A -> bool) (l l' : list A) :
  l ≡ₚ l' -> forallb p l = forallb p l'.
Proof.
  induction 1 as [|x l l' _ IH|x y l|l l' l'' _ IH1 _ IH2]; cbn [forallb].
  - reflexivity.
  - by rewrite IH.
  - by destruct (p x), (p y).
  - by rewrite IH1.
Qed.

(** ** Reordering the outputs *)

Lemma difference_nil (old new : list Output) :
  difference old new = []
  <-> forall o, o ∈ old -> exists o', o' ∈ new /\ oid o' = oid o.
Proof.
  unfold difference. induction old as [|x old IH]; cbn [List.filter].
  - split; [|reflexivity]. intros _ o Ho. by apply elem_of_nil in Ho.
  - destruct (existsb (same_output x) new) eqn:E; cbn [negb].
    + rewrite IH. split.
      * intros Hall o Ho. apply elem_of_cons in Ho as [->|Ho]; [|by apply Hall].
        apply existsb_exists in E as (o' & Hin & Hsame).
        exists o'. split; [by apply list_elem_of_In|].
        unfold same_output in Hsame. by apply Nat.eqb_eq in Hsame.
      * intros Hall o Ho. apply Hall. by apply list_elem_of_further.
    + split; [discriminate|]. intros Hall. exfalso.
      destruct (Hall x (list_elem_of_here _ _)) as (o' & Hin & Hoid).
      assert (existsb (same_output x) new = true); [|congruence].
      apply existsb_exists. exists o'. split; [by apply list_elem_of_In|].
      unfold same_output. by apply Nat.eqb_eq.
Qed.

(** The change index that [_newOutputOrder] computes. *)
Lemma newOutputOrder_cases (new : list Output) (t : Transaction) :
  (_newOutputOrder new t = Sort_InvalidSorting
   /\ ~ (length (outputs t) = length new
         /\ forall o, o ∈ outputs t -> exists o', o' ∈ new /\ oid o' = oid o))
  \/ (length (outputs t) = length new
      /\ (forall o, o ∈ outputs t -> exists o', o' ∈ new /\ oid o' = oid o)
      /\ exists t',
           _newOutputOrder new t = Sorted_ t'
           /\ outputs t' = new /\ inputs t' = inputs t
           /\ _changeIndex t'
              = match _changeIndex t with
                | Some i =>
                    Some match js_index (outputs t) i with
                         | Some c => findIndex (lodash_matches c) new
                         | None => findIndex (fun _ => true) new
                         end
                | None => None
                end).
Proof.
  unfold _newOutputOrder.
  destruct (Nat.eqb (length (outputs t)) (length new)) eqn:E1; cbn [negb orb].
  - apply Nat.eqb_eq in E1.
    destruct (Nat.eqb (length (difference (outputs t) new)) 0) eqn:E2;
      cbn [negb].
    + right. apply Nat.eqb_eq in E2. apply length_zero_iff_nil in E2.
      split; [exact E1|]. split; [by apply difference_nil|].
      eexists. split; [reflexivity|].
      destruct (_changeIndex t) eqn:Eci; repeat split; try reflexivity.
      exact Eci.
    + left. split; [reflexivity|]. intros [_ Hall].
      apply difference_nil in Hall. rewrite Hall in E2. discriminate.
  - left. split; [reflexivity|]. intros [Hlen _].
    apply Nat.eqb_neq in E1. contradiction.
Qed.

Lemma present_of_Permutation (old new : list Output) :
  map oid new ≡ₚ map oid old ->
  length old = length new
  /\ forall o, o ∈ old -> exists o', o' ∈ new /\ oid o' = oid o.
Proof.
  intros Hp. split.
  - apply Permutation_length in Hp. by rewrite !length_map in Hp.
  - intros o Ho.
    assert (Hin : oid o ∈ map oid new).
    { rewrite Hp. by apply (list_elem_of_fmap_2 oid). }
    apply (list_elem_of_fmap oid) in Hin as (o' & Heq & Hin). eauto.
Qed.

(** X16.  [sortOutputs] accepts the result of the sorting function exactly
    when it holds the same output objects in some order, given that no
    object occurs twice in the outputs; any other result raises
    [InvalidSorting], and an accepted result becomes the outputs as it
    is, the inputs being untouched. *)
Theorem sortOutputs_accepts_permutations
  (sortingFunction : list Output -> list Output) (t : Transaction) :
  NoDup (map oid (outputs t)) ->
  (map oid (sortingFunction (outputs t)) ≡ₚ map oid (outputs t) ->
   exists t',
     sortOutputs sortingFunction t = Sorted_ t'
     /\ outputs t' = sortingFunction (outputs t)
     /\ inputs t' = inputs t)
  /\ (~ map oid (sortingFunction (outputs t)) ≡ₚ map oid (outputs t) ->
      sortOutputs sortingFunction t = Sort_InvalidSorting).
Proof.
  intros Hnd. unfold sortOutputs.
  destruct (newOutputOrder_cases (sortingFunction (outputs t)) t)
    as [[Herr Hnot]|(Hlen & Hall & t' & Hrun & Houts & Hins & _)].
  - split; [|by intros _].
    intros Hp. exfalso. apply Hnot. by apply present_of_Permutation.
  - split; [intros _; by exists t'|].
    intros Hnp. exfalso. apply Hnp. symmetry.
    apply NoDup_Permutation_bis; [by apply NoDup_ListNoDup|by rewrite !length_map, Hlen|].
    intros n Hn. apply list_elem_of_In in Hn.
    apply (list_elem_of_fmap oid) in Hn as (o & -> & Ho).
    destruct (Hall o Ho) as (o' & Hin & Hoid).
    apply list_elem_of_In. rewrite <- Hoid.
    by apply (list_elem_of_fmap_2 oid).
Qed.

Lemma findIndex_from_exists {A} (p : A -> bool) (l : list A) (i : Z) (x : A) :
  0 <= i -> x ∈ l -> p x = true -> i <= findIndex_from p l i.
Proof.
  revert i. induction l as [|y l IH]; intros i Hi Hin Hp.
  - by apply elem_of_nil in Hin.
  - cbn [findIndex_from]. destruct (p y) eqn:E; [lia|].
    apply elem_of_cons in Hin as [->|Hin]; [congruence|].
    specialize (IH (i + 1) ltac:(lia) Hin Hp). lia.
Qed.

(** X17.  The change index after [sortOutputs] is the position of the first
    output of the new order that matches the old change output in content
    -- which need not be the change output object itself. *)
Theorem sortOutputs_change_index
  (sortingFunction : list Output -> list Output) (t : Transaction)
  (i : Z) (c : Output) :
  sortingFunction (outputs t) ≡ₚ outputs t ->
  _changeIndex t = Some i ->
  js_index (outputs t) i = Some c ->
  lodash_matches c c = true ->
  exists t' k o,
    sortOutputs sortingFunction t = Sorted_ t'
    /\ _changeIndex t' = Some k
    /\ js_index (outputs t') k = Some o
    /\ lodash_matches c o = true
    /\ Forall (fun o' => lodash_matches c o' = false)
         (take (Z.to_nat k) (outputs t')).
Proof.
  intros Hp Hci Hc Hrefl. unfold sortOutputs.
  set (new := sortingFunction (outputs t)) in *.
  destruct (newOutputOrder_cases new t)
    as [[_ Hnot]|(_ & _ & t' & Hrun & Houts & _ & Hidx)].
  { exfalso. apply Hnot. apply present_of_Permutation. by rewrite Hp. }
  rewrite Hci, Hc in Hidx.
  assert (Hin : c ∈ new).
  { rewrite Hp. apply js_index_Some in Hc as [_ Hc].
    by eapply list_elem_of_lookup_2. }
  pose proof (findIndex_from_exists (lodash_matches c) new 0 c
                ltac:(lia) Hin Hrefl) as Hge.
  destruct (findIndex_from_found (lodash_matches c) new 0
              (findIndex (lodash_matches c) new) ltac:(lia) eq_refl Hge)
    as (o & Hlook & Hm & Hfirst).
  rewrite Z.sub_0_r in Hlook, Hfirst.
  exists t', (findIndex (lodash_matches c) new), o.
  split; [exact Hrun|]. split; [exact Hidx|]. rewrite Houts.
  split; [|split; [exact Hm|exact Hfirst]].
  unfold js_index. unfold findIndex in *.
  by rewrite (proj2 (Z.ltb_ge _ _) Hge).
Qed.

(** ** BIP 69 *)

Lemma run_sortInputs (f : list Input -> list Input) (t : Transaction) :
  sortInputs f t
  = match mapM_Result Input_clearSignatures (f (inputs t)) with
    | Ok ins' => Ok (tt, set_inputs ins' (set_inputs (f (inputs t)) t))
    | Throw e => Throw e
    end.
Proof.
  unfold sortInputs. unfold_monad. rewrite run_clearSignatures.
  cbn [inputs set_inputs].
  by destruct (mapM_Result Input_clearSignatures (f (inputs t))).
Qed.

Lemma clearSignatures_throws (ins : list Input) (e : Error) :
  mapM_Result Input_clearSignatures ins = Throw e ->
  e = AbstractMethodInvoked
  /\ forallb (fun i => match kind i with GenericInput => false | _ => true end)
       ins = false.
Proof.
  induction ins as [|i ins IH]; [discriminate|].
  cbn [mapM_Result forallb]. unfold Input_clearSignatures at 1.
  destruct (kind i); cbn [andb];
    try (destruct (mapM_Result Input_clearSignatures ins);
         [discriminate|intros [= <-]; by apply IH]).
  intros [= <-]. by split.
Qed.

Lemma compareInputs_cleared (a b : Input) :
  compareInputs (set_input_signatures [] a) (set_input_signatures [] b)
  = compareInputs a b.
Proof. reflexivity. Qed.

Lemma classified_cleared (l : list Input) :
  forallb (fun i => match kind i with GenericInput => false | _ => true end)
    (map (set_input_signatures []) l)
  = forallb (fun i => match kind i with GenericInput => false | _ => true end)
      l.
Proof.
  induction l as [|i l IH]; [reflexivity|].
  cbn [map forallb]. by rewrite IH.
Qed.

(** What [sort()] does, in the possible outcomes. *)
Lemma sort_cases (t : Transaction) :
  (exists t',
     sort t = Sorted_ t'
     /\ allClassified t = true
     /\ inputs t'
        = map (set_input_signatures []) (Array_sort compareInputs (inputs t))
     /\ outputs t' = Array_sort compareOutputs (outputs t))
  \/ (sort t = Sort_raised AbstractMethodInvoked /\ allClassified t = false).
Proof.
  unfold sort. rewrite run_sortInputs.
  destruct (mapM_Result Input_clearSignatures
              (Array_sort compareInputs (inputs t))) as [ins'|e] eqn:E.
  - left. apply clearSignatures_inv in E as [-> Hclass].
    unfold sortOutputs.
    match goal with
    | |- context [_newOutputOrder ?new ?t1] =>
        destruct (newOutputOrder_cases new t1)
          as [[_ Hnot]|(_ & _ & t' & Hrun & Houts & Hins & _)]
    end.
    + exfalso. apply Hnot. cbn [outputs set_inputs].
      apply present_of_Permutation. by rewrite Array_sort_perm.
    + exists t'. split; [exact Hrun|].
      split; [|split; [exact Hins|exact Houts]].
      unfold allClassified. etrans; [|exact Hclass].
      apply forallb_Permutation. symmetry. apply Array_sort_perm.
  - right. apply clearSignatures_throws in E as [-> Hclass].
    split; [reflexivity|].
    unfold allClassified. etrans; [|exact Hclass].
    apply forallb_Permutation. symmetry. apply Array_sort_perm.
Qed.

(** X18.  [sort()] never raises [InvalidSorting].  It raises only for an
    unclassified input (whose signatures cannot be cleared); otherwise the
    inputs end up ordered by previous transaction id, then output index,
    the outputs by amount, then script bytes, both holding what they held
    before, the inputs with their signatures cleared. *)
Theorem sort_orders (t : Transaction) :
  match sort t with
  | Sorted_ t' =>
      allClassified t = true
      /\ orderedBy compareInputs (inputs t') = true
      /\ orderedBy compareOutputs (outputs t') = true
      /\ inputs t' ≡ₚ map (set_input_signatures []) (inputs t)
      /\ outputs t' ≡ₚ outputs t
  | Sort_raised e => e = AbstractMethodInvoked /\ allClassified t = false
  | Sort_InvalidSorting => False
  end.
Proof.
  destruct (sort_cases t) as [(t' & -> & Hclass & Hins & Houts)|[-> Hclass]];
    [|by split].
  split; [exact Hclass|]. rewrite Hins, Houts.
  split; [|split; [|split]].
  - rewrite orderedBy_map by exact compareInputs_cleared.
    apply Array_sort_ordered, compareInputs_total.
  - apply Array_sort_ordered, compareOutputs_total.
  - apply Permutation_map, Array_sort_perm.
  - apply Array_sort_perm.
Qed.

(** X19.  Sorting a sorted transaction again returns and changes neither
    the inputs nor the outputs. *)
Theorem sort_twice (t t' : Transaction) :
  sort t = Sorted_ t' ->
  exists t'',
    sort t' = Sorted_ t''
    /\ inputs t'' = inputs t' /\ outputs t'' = outputs t'.
Proof.
  intros Hsort.
  destruct (sort_cases t) as [(t1 & Ht1 & Hclass & Hins & Houts)|[Hr _]];
    [|congruence].
  rewrite Hsort in Ht1. injection Ht1 as <-.
  assert (Hoi : orderedBy compareInputs (inputs t') = true).
  { rewrite Hins, orderedBy_map by exact compareInputs_cleared.
    apply Array_sort_ordered, compareInputs_total. }
  assert (Hoo : orderedBy compareOutputs (outputs t') = true).
  { rewrite Houts. apply Array_sort_ordered, compareOutputs_total. }
  destruct (sort_cases t')
    as [(t'' & Hrun & _ & Hins' & Houts')|[_ Hclass']].
  - exists t''. split; [exact Hrun|].
    rewrite Hins', Houts', !Array_sort_of_ordered by assumption.
    split; [|reflexivity].
    rewrite Hins, map_map. reflexivity.
  - exfalso. unfold allClassified in *. rewrite Hins in Hclass'.
    rewrite classified_cleared in Hclass'.
    rewrite (forallb_Permutation _ _ _ (Array_sort_perm compareInputs _))
      in Hclass'.
    congruence.
Qed.

End OrderingProperties.

(** * Funding from unspent outputs *)

Section FundingProperties.

Context `{Collaborators} `{MoreCollaborators}.

Lemma coordinates_cleared (l : list Input) :
  map coordinates (map (set_input_signatures []) l) = map coordinates l.
Proof. rewrite map_map. reflexivity. Qed.

Lemma uncheckedAddInput_coordinates (input : Input) (t t' : Transaction) :
  cachesConsistent t = true ->
  uncheckedAddInput input t = Ok (tt, t') ->
  map coordinates (inputs t') = map coordinates (inputs t ++ [input]).
Proof.
  intros Hc Hrun. unfold uncheckedAddInput in Hrun. unfold_monad.
  simpl in Hrun.
  set (s := set_inputAmount None (set_inputs (inputs t ++ [input]) t)) in *.
  assert (Hs : cachesConsistent s = true)
    by (by eapply cachesConsistent_after_inputs).
  pose proof (updateChangeOutput_effect s t' Hs Hrun) as Heff.
  change (inputs s) with (inputs t ++ [input]) in Heff.
  destruct (_changeScript s).
  - destruct Heff as [-> _]. apply coordinates_cleared.
  - by subst t'.
Qed.

(** The steps of [from] behind the choice of the input variant. *)
Lemma from_adds
  (clazz : InputKind) (utxo : UnspentOutput)
  (pubkeys : option (list Buffer)) (threshold : option Z)
  (t t' : Transaction) :
  cachesConsistent t = true ->
  (o <- Output_new (utxo_script utxo) (utxo_satoshis utxo) ;;
   input <- lift (Input_new clazz o (utxo_txId utxo)
                    (utxo_outputIndex utxo) pubkeys threshold) ;;
   n <- alloc ;;
   addInput (set_input_iid n input) None None) t = Ok (tt, t') ->
  exists o input,
    Input_new clazz o (utxo_txId utxo) (utxo_outputIndex utxo)
      pubkeys threshold = Ok input
    /\ map coordinates (inputs t') = map coordinates (inputs t ++ [input]).
Proof.
  intros Hc Hrun.
  apply bind_Ok in Hrun as (o & s1 & Ho & Hrun).
  apply bind_Ok in Hrun as (input & s2 & Hin & Hrun).
  apply bind_Ok in Hrun as (n & s3 & Hn & Hrun).
  exists o, input.
  unfold lift in Hin.
  destruct (Input_new clazz o (utxo_txId utxo) (utxo_outputIndex utxo)
              pubkeys threshold) as [input'|e]; [|discriminate].
  injection Hin as -> ->. split; [reflexivity|].
  unfold Output_new, alloc, checkArgument in Ho. unfold_monad.
  destruct (truthy (isNaturalNumber (utxo_satoshis utxo))); [|discriminate].
  injection Ho as <- <-. unfold alloc in Hn. injection Hn as <- <-.
  unfold addInput in Hrun. cbn [output set_input_iid] in Hrun.
  destruct (output input) as [spent|] eqn:Hspent.
  - change (uncheckedAddInput (set_input_iid (S (heapNext t)) input)
              (set_heapNext (S (S (heapNext t)))
                 (set_heapNext (S (heapNext t)) t)) = Ok (tt, t')) in Hrun.
    assert (Hs : cachesConsistent
                   (set_heapNext (S (S (heapNext t)))
                      (set_heapNext (S (heapNext t)) t)) = true)
      by (by eapply cachesConsistent_same).
    rewrite (uncheckedAddInput_coordinates _ _ _ Hs Hrun).
    cbn [inputs set_heapNext]. rewrite !map_app. reflexivity.
  - discriminate Hrun.
Qed.

(** What a returning [from] has done. *)
Lemma from_one_done
  (txs : Descriptor) (pubkeys : option (list Buffer)) (threshold : option Z)
  (t t' : Transaction) :
  cachesConsistent t = true ->
  from_one txs pubkeys threshold t = From_done t' ->
  exists utxo,
    UnspentOutput_new txs = Ok utxo
    /\ ((existsb (spendsDescribed txs) (inputs t) = true /\ t' = t)
        \/ (existsb (spendsDescribed txs) (inputs t) = false
            /\ exists clazz o input,
                 Input_new clazz o (utxo_txId utxo) (utxo_outputIndex utxo)
                   pubkeys threshold = Ok input
                 /\ map coordinates (inputs t')
                    = map coordinates (inputs t ++ [input]))).
Proof.
  intros Hc. unfold from_one.
  change (existsb _ (inputs t)) with (existsb (spendsDescribed txs) (inputs t)).
  destruct (UnspentOutput_new txs) as [utxo|e]; [|discriminate].
  intros Hrun. exists utxo. split; [reflexivity|].
  destruct (existsb (spendsDescribed txs) (inputs t)) eqn:Hex.
  { left. by injection Hrun as <-. }
  right. split; [reflexivity|].
  cbv zeta in Hrun.
  repeat match type of Hrun with
         | (if ?b then _ else _) = _ => destruct b
         end;
    try discriminate;
    match type of Hrun with
    | match ?m t with _ => _ end = _ =>
        destruct (m t) as [[[] t1]|e] eqn:Hadd; [|discriminate];
        injection Hrun as <-;
        destruct (from_adds _ _ _ _ _ _ Hc Hadd) as (o & input & Hnew & Hco);
        eauto
    end.
Qed.

(** X20.  [from] adds an unspent output once: when a call with a
    descriptor naming [txId] and [outputIndex] has returned, a second call
    with the same arguments returns without changing anything -- provided
    the constructed input renders its transaction id as the descriptor
    spells it and keeps the output index. *)
Theorem from_twice
  (txs : Descriptor) (pubkeys : option (list Buffer)) (threshold : option Z)
  (txId : string) (k : Z) (t t' : Transaction) :
  cachesConsistent t = true ->
  d_txId txs = Some txId -> d_outputIndex txs = Some k ->
  (forall utxo clazz o input,
     UnspentOutput_new txs = Ok utxo ->
     Input_new clazz o (utxo_txId utxo) (utxo_outputIndex utxo)
       pubkeys threshold = Ok input ->
     Buffer_toHex (prevTxId input) = txId /\ outputIndex input = k) ->
  from_one txs pubkeys threshold t = From_done t' ->
  from_one txs pubkeys threshold t' = From_done t'.
Proof.
  intros Hc HtxId Hk Hlaw Hrun.
  destruct (from_one_done _ _ _ _ _ Hc Hrun)
    as (utxo & Hutxo & [[Hex ->]|(_ & clazz & o & input & Hnew & Hco)]);
    [exact Hrun|].
  assert (Hex : existsb (spendsDescribed txs) (inputs t') = true).
  { destruct (Hlaw _ _ _ _ Hutxo Hnew) as [Hhex Hidx].
    assert (Hin : coordinates input ∈ map coordinates (inputs t')).
    { rewrite Hco, map_app. apply elem_of_app. right. cbn [map].
      apply list_elem_of_here. }
    apply (list_elem_of_fmap coordinates) in Hin as (j & Hj & Hin).
    apply existsb_exists. exists j. split; [by apply list_elem_of_In|].
    unfold coordinates in Hj. injection Hj as Hp Ho.
    unfold spendsDescribed. rewrite HtxId, Hk, <- Hp, <- Ho, Hhex, Hidx.
    by rewrite String.eqb_refl, Z.eqb_refl. }
  unfold from_one.
  change (existsb _ (inputs t')) with (existsb (spendsDescribed txs) (inputs t')).
  by rewrite Hutxo, Hex.
Qed.

(** X21.  A descriptor that spells its keys as [listunspent] does ([txid],
    [vout], so without [txId] or without [outputIndex]) is never
    recognised as already added: every returning [from] appends one
    input, also when it spends what an earlier input already spends. *)
Theorem from_listunspent_adds
  (txs : Descriptor) (pubkeys : option (list Buffer)) (threshold : option Z)
  (t t' : Transaction) :
  cachesConsistent t = true ->
  d_txId txs = None \/ d_outputIndex txs = None ->
  from_one txs pubkeys threshold t = From_done t' ->
  exists input,
    map coordinates (inputs t') = map coordinates (inputs t ++ [input])
    /\ length (inputs t') = S (length (inputs t)).
Proof.
  intros Hc Hnone Hrun.
  assert (Hex : existsb (spendsDescribed txs) (inputs t) = false).
  { unfold spendsDescribed.
    induction (inputs t) as [|i l IH]; [reflexivity|].
    cbn [existsb]. rewrite IH.
    destruct Hnone as [-> | ->]; [reflexivity|].
    by rewrite andb_false_r. }
  destruct (from_one_done _ _ _ _ _ Hc Hrun)
    as (utxo & _ & [[Hex' _]|(_ & clazz & o & input & _ & Hco)]);
    [congruence|].
  exists input. split; [exact Hco|].
  apply (f_equal length) in Hco. rewrite !length_map, length_app in Hco.
  cbn [length] in Hco. lia.
Qed.

End FundingProperties.

(** * Decoding *)

Section DecodingProperties.

Context `{Collaborators} `{MoreCollaborators}.

Lemma bind_run {A B} (m : M A) (k : A -> M B) (t s : Transaction) (a : A) :
  m t = Ok (a, s) -> (x <- m ;; k x) t = k a s.
Proof. intros Hm. rewrite run_bind. by rewrite Hm. Qed.

Lemma mapM_Result_app {A B} (f : A -> Result B) (l1 l2 : list A)
  (r1 r2 : list B) :
  mapM_Result f l1 = Ok r1 -> mapM_Result f l2 = Ok r2 ->
  mapM_Result f (l1 ++ l2) = Ok (r1 ++ r2).
Proof.
  revert r1. induction l1 as [|x l1 IH]; intros r1 H1 H2; cbn in *.
  - by injection H1 as <-.
  - destruct (f x) as [y|e]; [|discriminate].
    destruct (mapM_Result f l1) as [ys|e]; [|discriminate].
    injection H1 as <-. by rewrite (IH ys eq_refl H2).
Qed.

Lemma mapM_Result_length {A B} (f : A -> Result B) (l : list A) (r : list B) :
  mapM_Result f l = Ok r -> length r = length l.
Proof.
  revert r. induction l as [|x l IH]; intros r Hr; cbn in *.
  - by injection Hr as <-.
  - destruct (f x) as [y|e]; [|discriminate].
    destruct (mapM_Result f l) as [ys|e]; [|discriminate].
    injection Hr as <-. cbn. by rewrite (IH ys eq_refl).
Qed.

Lemma readInputs_reads (ins : list Input) (encodings written : list Buffer)
  (r : Buffer) (s : Transaction) :
  Forall readsBackInput ins ->
  mapM_Result Input_toBuffer ins = Ok encodings ->
  mapM_Result Input_toBuffer (inputs s) = Ok written ->
  exists s',
    readInputs (length ins) (concat encodings ++ r) s = Ok (r, s')
    /\ mapM_Result Input_toBuffer (inputs s') = Ok (written ++ encodings)
    /\ outputs s' = outputs s /\ version s' = version s.
Proof.
  intros Hall. revert encodings written s.
  induction Hall as [|i ins Hi _ IH]; intros encodings written s Henc Hs.
  - injection Henc as <-. exists s.
    cbn [length readInputs concat app]. rewrite run_ret, app_nil_r. done.
  - cbn [mapM_Result] in Henc.
    destruct (Input_toBuffer i) as [encoding|e] eqn:Hi'; [|discriminate].
    destruct (mapM_Result Input_toBuffer ins) as [rest|e] eqn:Hrest;
      [|discriminate].
    injection Henc as <-.
    cbn [length readInputs concat]. rewrite <- app_assoc.
    destruct (Hi encoding (concat rest ++ r) Hi') as (i' & Hread & Hid).
    erewrite bind_run; [|rewrite run_lift, Hread; reflexivity].
    erewrite bind_run; [|reflexivity].
    erewrite bind_run; [|reflexivity].
    cbn [fst snd].
    match goal with
    | |- context [run (readInputs _ _) ?s1] =>
        destruct (IH rest (written ++ [encoding]) s1 eq_refl)
          as (s' & Hrun & Hins & Houts & Hv)
    end.
    { cbn [inputs set_inputs set_heapNext].
      apply mapM_Result_app; [exact Hs|]. cbn [mapM_Result]. by rewrite Hid. }
    exists s'. split; [exact Hrun|].
    rewrite Hins, <- app_assoc. by repeat split.
Qed.

Lemma readOutputs_reads (outs : list Output) (encodings written : list Buffer)
  (r : Buffer) (s : Transaction) :
  Forall readsBackOutput outs ->
  mapM_Result Output_toBuffer outs = Ok encodings ->
  mapM_Result Output_toBuffer (outputs s) = Ok written ->
  exists s',
    readOutputs (length outs) (concat encodings ++ r) s = Ok (r, s')
    /\ mapM_Result Output_toBuffer (outputs s') = Ok (written ++ encodings)
    /\ inputs s' = inputs s /\ version s' = version s.
Proof.
  intros Hall. revert encodings written s.
  induction Hall as [|o outs Ho _ IH]; intros encodings written s Henc Hs.
  - injection Henc as <-. exists s.
    cbn [length readOutputs concat app]. rewrite run_ret, app_nil_r. done.
  - cbn [mapM_Result] in Henc.
    destruct (Output_toBuffer o) as [encoding|e] eqn:Ho'; [|discriminate].
    destruct (mapM_Result Output_toBuffer outs) as [rest|e] eqn:Hrest;
      [|discriminate].
    injection Henc as <-.
    cbn [length readOutputs concat]. rewrite <- app_assoc.
    destruct (Ho encoding (concat rest ++ r) Ho') as (o' & Hread & Hid).
    erewrite bind_run; [|rewrite run_lift, Hread; reflexivity].
    erewrite bind_run; [|reflexivity].
    erewrite bind_run; [|reflexivity].
    cbn [fst snd].
    match goal with
    | |- context [run (readOutputs _ _) ?s1] =>
        destruct (IH rest (written ++ [encoding]) s1 eq_refl)
          as (s' & Hrun & Houts & Hins & Hv)
    end.
    { cbn [outputs set_outputs set_heapNext].
      apply mapM_Result_app; [exact Hs|]. cbn [mapM_Result]. by rewrite Hid. }
    exists s'. split; [exact Hrun|].
    rewrite Houts, <- app_assoc. by repeat split.
Qed.

Lemma readInputs_frame (n : nat) (r r' : Buffer) (s s' : Transaction) :
  readInputs n r s = Ok (r', s') -> sameSettings s s'.
Proof.
  revert r s. induction n as [|n IH]; intros r s Hrun; cbn [readInputs] in Hrun.
  - injection Hrun as _ <-. by repeat split.
  - apply bind_Ok in Hrun as (x & s1 & Hx & Hrun). apply lift_Ok in Hx as ->.
    apply bind_Ok in Hrun as (id & s2 & Hid & Hrun).
    unfold alloc in Hid. injection Hid as <- <-.
    apply bind_Ok in Hrun as ([] & s3 & Hm & Hrun).
    unfold modify in Hm. injection Hm as <-.
    by apply IH in Hrun.
Qed.

Lemma readOutputs_frame (n : nat) (r r' : Buffer) (s s' : Transaction) :
  readOutputs n r s = Ok (r', s') -> sameSettings s s'.
Proof.
  revert r s. induction n as [|n IH]; intros r s Hrun; cbn [readOutputs] in Hrun.
  - injection Hrun as _ <-. by repeat split.
  - apply bind_Ok in Hrun as (x & s1 & Hx & Hrun). apply lift_Ok in Hx as ->.
    apply bind_Ok in Hrun as (id & s2 & Hid & Hrun).
    unfold alloc in Hid. injection Hid as <- <-.
    apply bind_Ok in Hrun as ([] & s3 & Hm & Hrun).
    unfold modify in Hm. injection Hm as <-.
    by apply IH in Hrun.
Qed.

Lemma fromBuffer_frame (buffer : Buffer) (s s' : Transaction) :
  fromBuffer buffer s = Ok (tt, s') -> sameSettings s s'.
Proof.
  intros Hrun. unfold fromBuffer, fromBufferReader in Hrun.
  apply bind_Ok in Hrun as (r & s1 & Hrun & Hret).
  unfold ret in Hret. injection Hret as <-.
  apply bind_Ok in Hrun as ([] & s2 & Hc & Hrun). apply lift_Ok in Hc as ->.
  apply bind_Ok in Hrun as (v & s2 & Hv & Hrun). apply lift_Ok in Hv as ->.
  apply bind_Ok in Hrun as ([] & s2 & Hm & Hrun).
  unfold modify in Hm. injection Hm as <-.
  apply bind_Ok in Hrun as (n1 & s3 & Hn1 & Hrun). apply lift_Ok in Hn1 as ->.
  apply bind_Ok in Hrun as (r1 & s3 & Hins & Hrun).
  apply readInputs_frame in Hins.
  apply bind_Ok in Hrun as (n2 & s4 & Hn2 & Hrun). apply lift_Ok in Hn2 as ->.
  apply bind_Ok in Hrun as (r2 & s4 & Houts & Hrun).
  apply readOutputs_frame in Houts.
  apply bind_Ok in Hrun as (l & s5 & Hl & Hrun). apply lift_Ok in Hl as ->.
  apply bind_Ok in Hrun as ([] & s5 & Hm & Hrun).
  unfold modify in Hm. injection Hm as <-.
  unfold ret in Hrun. injection Hrun as _ <-.
  unfold sameSettings in *.
  cbn [_changeScript _changeIndex _fee _feePerKb _inputAmount _outputAmount
       set_version set_nLockTime] in *.
  destruct Hins as (? & ? & ? & ? & ? & ?).
  destruct Houts as (? & ? & ? & ? & ? & ?).
  repeat split; congruence.
Qed.

(** The run of [fromBuffer] on an encoding followed by further bytes. *)
Lemma fromBuffer_reads_back (t : Transaction) (encoding rest : Buffer) :
  toBuffer t = Ok encoding ->
  (forall v, writeInt32LE (version t) = Ok v ->
     v <> [] /\ forall r, readInt32LE (v ++ r) = Ok (version t, r)) ->
  (forall n r,
     n = length (inputs t) \/ n = length (outputs t) ->
     readVarintNum (writeVarintNum (Z.of_nat n) ++ r) = Ok (Z.of_nat n, r)) ->
  Forall readsBackInput (inputs t) ->
  Forall readsBackOutput (outputs t) ->
  (forall l, writeUInt32LE (nLockTime t) = Ok l ->
     readUInt32LE (l ++ rest) = Ok (nLockTime t, rest)) ->
  exists t',
    fromBuffer (encoding ++ rest) blankTransaction = Ok (tt, t')
    /\ toBuffer t' = Ok encoding
    /\ version t' = version t /\ nLockTime t' = nLockTime t
    /\ length (inputs t') = length (inputs t)
    /\ length (outputs t') = length (outputs t).
Proof.
  intros Henc Hversion Hcount Hins Houts Hlock.
  unfold toBuffer, Result_bind in Henc.
  destruct (writeInt32LE (version t)) as [v|e] eqn:Hv; [|discriminate].
  destruct (mapM_Result Input_toBuffer (inputs t)) as [ins|e] eqn:Hi;
    [|discriminate].
  destruct (mapM_Result Output_toBuffer (outputs t)) as [outs|e] eqn:Ho;
    [|discriminate].
  destruct (writeUInt32LE (nLockTime t)) as [l|e] eqn:Hl; [|discriminate].
  injection Henc as <-.
  destruct (Hversion v eq_refl) as [Hne Hread]. specialize (Hlock l eq_refl).
  destruct (readInputs_reads (inputs t) ins []
              (writeVarintNum (Z.of_nat (length (outputs t)))
               ++ concat outs ++ l ++ rest)
              (set_version (version t) blankTransaction) Hins Hi eq_refl)
    as (s2 & Hrun2 & Hins2 & Houts2 & Hv2).
  destruct (readOutputs_reads (outputs t) outs [] (l ++ rest) s2 Houts Ho)
    as (s3 & Hrun3 & Houts3 & Hins3 & Hv3).
  { by rewrite Houts2. }
  cbn [inputs outputs version set_version blankTransaction app]
    in Hins2, Houts2, Hv2, Houts3.
  rewrite Hv2 in Hv3. rewrite <- Hins3 in Hins2.
  exists (set_nLockTime (nLockTime t) s3). split.
  { unfold fromBuffer, fromBufferReader. rewrite <- !app_assoc.
    erewrite bind_run; [reflexivity|].
    erewrite bind_run; cycle 1.
    { rewrite run_lift. unfold checkArgument, truthy, truthy_bool.
      rewrite bool_decide_eq_false_2; [reflexivity|].
      destruct v; [done|discriminate]. }
    erewrite bind_run; [|rewrite run_lift, Hread; reflexivity].
    erewrite bind_run; [|reflexivity].
    cbn [fst snd].
    erewrite bind_run;
      [|rewrite run_lift, Hcount by (by left); reflexivity].
    cbn [fst snd]. rewrite Nat2Z.id.
    erewrite bind_run; [|exact Hrun2].
    erewrite bind_run;
      [|rewrite run_lift, Hcount by (by right); reflexivity].
    cbn [fst snd]. rewrite Nat2Z.id.
    erewrite bind_run; [|exact Hrun3].
    erewrite bind_run; [|rewrite run_lift, Hlock; reflexivity].
    erewrite bind_run; [|reflexivity].
    reflexivity. }
  assert (Hli : length (inputs s3) = length (inputs t)).
  { apply mapM_Result_length in Hins2, Hi. congruence. }
  assert (Hlo : length (outputs s3) = length (outputs t)).
  { apply mapM_Result_length in Houts3, Ho. congruence. }
  split; [|by repeat split].
  unfold toBuffer, Result_bind.
  cbn [inputs outputs version nLockTime set_nLockTime].
  by rewrite Hv3, Hv, Hins2, Houts3, Hl, Hli, Hlo.
Qed.

(** X22.  Decoding inverts encoding: with a reader that reads back what
    the writer wrote for the fields of [t], [fromBuffer] on a new
    transaction, given the encoding of [t] followed by any further bytes,
    returns a transaction with the same version, lock time and encoding;
    the further bytes are ignored. *)
Theorem fromBuffer_toBuffer (t : Transaction) (encoding rest : Buffer) :
  toBuffer t = Ok encoding ->
  (forall v, writeInt32LE (version t) = Ok v ->
     v <> [] /\ forall r, readInt32LE (v ++ r) = Ok (version t, r)) ->
  (forall n r,
     n = length (inputs t) \/ n = length (outputs t) ->
     readVarintNum (writeVarintNum (Z.of_nat n) ++ r) = Ok (Z.of_nat n, r)) ->
  Forall readsBackInput (inputs t) ->
  Forall readsBackOutput (outputs t) ->
  (forall l, writeUInt32LE (nLockTime t) = Ok l ->
     readUInt32LE (l ++ rest) = Ok (nLockTime t, rest)) ->
  exists t',
    fromBuffer (encoding ++ rest) blankTransaction = Ok (tt, t')
    /\ toBuffer t' = Ok encoding
    /\ version t' = version t /\ nLockTime t' = nLockTime t
    /\ length (inputs t') = length (inputs t)
    /\ length (outputs t') = length (outputs t).
Proof. exact (fromBuffer_reads_back t encoding rest). Qed.

(** X26.  A shallow copy keeps the encoding, hence the hash, and nothing
    else: with a reader that reads back what the writer wrote for the
    fields of [t], [shallowCopy] raises what the encoding of [t] raises,
    and otherwise returns a transaction with the encoding and hash of [t]
    that has no change script, change index, fee, fee rate or memoized
    amounts. *)
Theorem shallowCopy_keeps_encoding_only (t : Transaction) :
  (forall v, writeInt32LE (version t) = Ok v ->
     v <> [] /\ forall r, readInt32LE (v ++ r) = Ok (version t, r)) ->
  (forall n r,
     n = length (inputs t) \/ n = length (outputs t) ->
     readVarintNum (writeVarintNum (Z.of_nat n) ++ r) = Ok (Z.of_nat n, r)) ->
  Forall readsBackInput (inputs t) ->
  Forall readsBackOutput (outputs t) ->
  (forall l, writeUInt32LE (nLockTime t) = Ok l ->
     readUInt32LE l = Ok (nLockTime t, [])) ->
  match toBuffer t with
  | Throw e => shallowCopy t = Throw e
  | Ok _ =>
      exists t',
        shallowCopy t = Ok t'
        /\ toBuffer t' = toBuffer t /\ hash t' = hash t
        /\ _changeScript t' = None /\ _changeIndex t' = None
        /\ _fee t' = None /\ _feePerKb t' = None
        /\ _inputAmount t' = None /\ _outputAmount t' = None
  end.
Proof.
  intros Hversion Hcount Hins Houts Hlock.
  destruct (toBuffer t) as [encoding|e] eqn:Henc;
    [|unfold shallowCopy; by rewrite Henc].
  assert (Hlock' : forall l, writeUInt32LE (nLockTime t) = Ok l ->
                     readUInt32LE (l ++ []) = Ok (nLockTime t, [])).
  { intros l Hl. rewrite app_nil_r. by apply Hlock. }
  destruct (fromBuffer_reads_back t encoding [] Henc Hversion Hcount Hins Houts
              Hlock')
    as (t' & Hrun & Hbytes & _).
  rewrite app_nil_r in Hrun.
  exists t'. split.
  { unfold shallowCopy, Transaction_fromBuffer, exec, Result_bind.
    by rewrite Henc, Hrun. }
  split; [exact Hbytes|]. split.
  { unfold hash, _getHash. by rewrite Hbytes, Henc. }
  apply fromBuffer_frame in Hrun. exact Hrun.
Qed.

End DecodingProperties.

(** * The properties of lock time, ordering, funding and decoding on
      concrete transactions *)

(** X11, on an example: block height 650,000. *)
Lemma lockUntilBlockHeight_reads_back_witness :
  0 <= 650000 < NLOCKTIME_BLOCKHEIGHT_LIMIT
  /\ exists t',
       lockUntilBlockHeight 650000 Demo.funded = Locked t'
       /\ getLockTime t' = LockTime_height 650000
       /\ outputs t' = outputs Demo.funded
       /\ map coordinates (inputs t') = map coordinates (inputs Demo.funded).
Proof.
  assert (Hh : 0 <= 650000 < NLOCKTIME_BLOCKHEIGHT_LIMIT)
    by (unfold NLOCKTIME_BLOCKHEIGHT_LIMIT; lia).
  split; [exact Hh|].
  exact (lockUntilBlockHeight_reads_back Demo.funded 650000 Hh).
Defined.

(** X12, on an example: 400,000,000 seconds, a day in 1982. *)
Lemma lockUntilDate_early_date_witness :
  0 < 400000000 < NLOCKTIME_BLOCKHEIGHT_LIMIT
  /\ lockUntilDate (TimeNumber 400000000) Demo.funded = LockTimeTooEarly
  /\ exists t',
       lockUntilDate (TimeDate 400000000) Demo.funded = Locked t'
       /\ getLockTime t' = LockTime_height 400000000.
Proof.
  assert (Hs : 0 < 400000000 < NLOCKTIME_BLOCKHEIGHT_LIMIT)
    by (unfold NLOCKTIME_BLOCKHEIGHT_LIMIT; lia).
  split; [exact Hs|].
  exact (lockUntilDate_early_date Demo.funded 400000000 Hs).
Defined.

(** X13, on an example: 1,700,000,000 seconds, a day in 2023. *)
Lemma lockUntilDate_reads_back_witness :
  NLOCKTIME_BLOCKHEIGHT_LIMIT <= 1700000000
  /\ exists t1 t2,
       lockUntilDate (TimeNumber 1700000000) Demo.funded = Locked t1
       /\ lockUntilDate (TimeDate 1700000000) Demo.funded = Locked t2
       /\ t1 = t2
       /\ getLockTime t1 = LockTime_date (1000 * 1700000000).
Proof.
  assert (Hs : NLOCKTIME_BLOCKHEIGHT_LIMIT <= 1700000000)
    by (unfold NLOCKTIME_BLOCKHEIGHT_LIMIT; lia).
  split; [exact Hs|].
  exact (lockUntilDate_reads_back Demo.funded 1700000000 Hs).
Defined.

(** X14, on an example, with the sequence numbers of the reference
    implementation. *)
Lemma lock_keeps_isRBF_witness :
  Input_MAXINT - 1 <= Input_DEFAULT_SEQNUMBER
  /\ Input_MAXINT - 1 <= Input_DEFAULT_LOCKTIME_SEQNUMBER
  /\ exists t',
       lockUntilBlockHeight 650000 Demo.funded = Locked t'
       /\ isRBF t' = isRBF Demo.funded.
Proof.
  assert (H1 : Input_MAXINT - 1 <= Input_DEFAULT_SEQNUMBER) by (simpl; lia).
  assert (H2 : Input_MAXINT - 1 <= Input_DEFAULT_LOCKTIME_SEQNUMBER)
    by (simpl; lia).
  split; [exact H1|]. split; [exact H2|].
  eexists. split; [reflexivity|].
  apply (proj1 (lock_keeps_isRBF Demo.funded H1 H2) 650000). reflexivity.
Defined.

(** X15, on an example. *)
Lemma enableRBF_isRBF_witness :
  Input_DEFAULT_RBF_SEQNUMBER < Input_MAXINT - 1
  /\ isRBF (enableRBF Demo.funded) = true
  /\ enableRBF (enableRBF Demo.funded) = enableRBF Demo.funded
  /\ map coordinates (inputs (enableRBF Demo.funded))
     = map coordinates (inputs Demo.funded)
  /\ outputs (enableRBF Demo.funded) = outputs Demo.funded.
Proof.
  assert (Hrbf : Input_DEFAULT_RBF_SEQNUMBER < Input_MAXINT - 1)
    by (simpl; lia).
  split; [exact Hrbf|].
  exact (enableRBF_isRBF Demo.funded Hrbf).
Defined.

(** X16, on an example: the outputs in reverse. *)
Lemma sortOutputs_accepts_permutations_witness :
  NoDup (map oid (outputs DemoMore.unsorted))
  /\ map oid (rev (outputs DemoMore.unsorted))
     ≡ₚ map oid (outputs DemoMore.unsorted)
  /\ exists t',
       sortOutputs (@rev Output) DemoMore.unsorted = Sorted_ t'
       /\ outputs t' = rev (outputs DemoMore.unsorted)
       /\ inputs t' = inputs DemoMore.unsorted.
Proof.
  assert (Hnd : NoDup (map oid (outputs DemoMore.unsorted))).
  { apply (bool_decide_unpack _). vm_compute. exact I. }
  assert (Hp : map oid (rev (outputs DemoMore.unsorted))
               ≡ₚ map oid (outputs DemoMore.unsorted)).
  { rewrite map_rev. symmetry. apply Permutation_rev. }
  split; [exact Hnd|]. split; [exact Hp|].
  exact (proj1 (sortOutputs_accepts_permutations (@rev Output)
                  DemoMore.unsorted Hnd) Hp).
Defined.

(** X17, on an example: the order is left as it is, and yet the change
    index moves from 1 to 0, to the payment that equals the change output
    in content. *)
Lemma sortOutputs_change_index_witness :
  id (outputs DemoMore.twinOfChange) ≡ₚ outputs DemoMore.twinOfChange
  /\ _changeIndex DemoMore.twinOfChange = Some 1
  /\ js_index (outputs DemoMore.twinOfChange) 1
     = Some (mkOutput 3 Demo.changeScript 200000 200000)
  /\ (exists t' k o,
        sortOutputs id DemoMore.twinOfChange = Sorted_ t'
        /\ _changeIndex t' = Some k
        /\ js_index (outputs t') k = Some o
        /\ lodash_matches (mkOutput 3 Demo.changeScript 200000 200000) o
           = true
        /\ Forall (fun o' =>
                     lodash_matches
                       (mkOutput 3 Demo.changeScript 200000 200000) o'
                     = false)
             (take (Z.to_nat k) (outputs t')))
  /\ exists t',
       sortOutputs id DemoMore.twinOfChange = Sorted_ t'
       /\ _changeIndex t' = Some 0
       /\ option_map oid (js_index (outputs t') 0) = Some 2%nat.
Proof.
  split; [reflexivity|]. split; [reflexivity|]. split; [reflexivity|].
  split.
  - apply (sortOutputs_change_index id DemoMore.twinOfChange 1
             (mkOutput 3 Demo.changeScript 200000 200000));
      reflexivity.
  - eexists. split; [vm_compute; reflexivity|]. split; reflexivity.
Defined.

(** X19, on an example. *)
Lemma sort_twice_witness :
  exists t',
    sort DemoMore.unsorted = Sorted_ t'
    /\ exists t'',
         sort t' = Sorted_ t''
         /\ inputs t'' = inputs t' /\ outputs t'' = outputs t'.
Proof.
  eexists. split; [vm_compute; reflexivity|].
  apply (sort_twice DemoMore.unsorted). vm_compute. reflexivity.
Defined.

(** X20, on an example. *)
Lemma from_twice_witness :
  cachesConsistent Demo.funded = true
  /\ d_txId DemoMore.descriptor = Some "a1b2"%string
  /\ d_outputIndex DemoMore.descriptor = Some 1
  /\ (forall utxo clazz o input,
        UnspentOutput_new DemoMore.descriptor = Ok utxo ->
        Input_new clazz o (utxo_txId utxo) (utxo_outputIndex utxo) None None
        = Ok input ->
        Buffer_toHex (prevTxId input) = "a1b2"%string /\ outputIndex input = 1)
  /\ exists t',
       from_one DemoMore.descriptor None None Demo.funded = From_done t'
       /\ from_one DemoMore.descriptor None None t' = From_done t'.
Proof.
  assert (Hlaw : forall utxo clazz o input,
            UnspentOutput_new DemoMore.descriptor = Ok utxo ->
            Input_new clazz o (utxo_txId utxo) (utxo_outputIndex utxo)
              None None = Ok input ->
            Buffer_toHex (prevTxId input) = "a1b2"%string
            /\ outputIndex input = 1).
  { intros utxo clazz o input Hutxo Hnew.
    injection Hutxo as <-. injection Hnew as <-. split; reflexivity. }
  repeat (split; [reflexivity|]). split; [exact Hlaw|].
  eexists. split; [vm_compute; reflexivity|].
  apply (from_twice DemoMore.descriptor None None "a1b2" 1 Demo.funded);
    [reflexivity|reflexivity|reflexivity|exact Hlaw|vm_compute; reflexivity].
Defined.

(** X21, on an example. *)
Lemma from_listunspent_adds_witness :
  cachesConsistent Demo.funded = true
  /\ d_txId DemoMore.listunspent = None
  /\ exists t',
       from_one DemoMore.listunspent None None Demo.funded = From_done t'
       /\ exists input,
            map coordinates (inputs t')
            = map coordinates (inputs Demo.funded ++ [input])
            /\ length (inputs t') = S (length (inputs Demo.funded)).
Proof.
  split; [reflexivity|]. split; [reflexivity|].
  eexists. split; [vm_compute; reflexivity|].
  apply (from_listunspent_adds DemoMore.listunspent None None Demo.funded);
    [reflexivity|by left|vm_compute; reflexivity].
Defined.

(** X22, on an example, with two further bytes behind the encoding. *)
Lemma fromBuffer_toBuffer_witness :
  Forall readsBackInput (inputs DemoMore.decoded)
  /\ Forall readsBackOutput (outputs DemoMore.decoded)
  /\ exists encoding,
       toBuffer DemoMore.decoded = Ok encoding
       /\ exists t',
            fromBuffer (encoding ++ [x00; x01]) blankTransaction = Ok (tt, t')
            /\ toBuffer t' = Ok encoding
            /\ version t' = version DemoMore.decoded
            /\ nLockTime t' = nLockTime DemoMore.decoded
            /\ length (inputs t') = length (inputs DemoMore.decoded)
            /\ length (outputs t') = length (outputs DemoMore.decoded).
Proof.
  assert (Hins : Forall readsBackInput (inputs DemoMore.decoded)).
  { repeat constructor; intros encoding r Henc; vm_compute in Henc;
      injection Henc as <-; eexists;
      (split; [reflexivity|intros n; reflexivity]). }
  assert (Houts : Forall readsBackOutput (outputs DemoMore.decoded)).
  { repeat constructor; intros encoding r Henc; vm_compute in Henc;
      injection Henc as <-; eexists;
      (split; [reflexivity|intros n; reflexivity]). }
  split; [exact Hins|]. split; [exact Houts|].
  eexists. split; [vm_compute; reflexivity|].
  apply (fromBuffer_toBuffer DemoMore.decoded _ [x00; x01]).
  - vm_compute; reflexivity.
  - intros v Hv. vm_compute in Hv. injection Hv as <-.
    split; [discriminate|]. intros r. reflexivity.
  - intros n r [-> | ->]; reflexivity.
  - exact Hins.
  - exact Houts.
  - intros l Hl. vm_compute in Hl. injection Hl as <-. reflexivity.
Defined.

(** * The position of the change output *)

Section ChangePosition.

Context `{Collaborators}.

Lemma updateChangeOutput_last (s t' : Transaction) :
  cachesConsistent s = true ->
  changeNeedsScript s ->
  _updateChangeOutput s = Ok (tt, t') ->
  changeLast t'.
Proof.
  intros Hc Hweak Hrun. rewrite (run_updateChangeOutput s Hc) in Hrun.
  destruct (_changeScript s) as [cs|] eqn:Hcs.
  2:{ injection Hrun as <-. intros i Hi.
      destruct (Hweak i Hi) as [x Hx]. congruence. }
  destruct (mapM_Result Input_clearSignatures (inputs s)) as [ins'|e];
    [|discriminate].
  cbv zeta in Hrun.
  destruct (unspentValue _) as [available|e]; [|discriminate].
  destruct (feeValue _) as [fee'|e]; [|discriminate].
  destruct (0 <? available - fee'); injection Hrun as <-; intros i Hi.
  - unfold changeAdded in *.
    cbn [_changeIndex outputs set_outputAmount set_outputs set_heapNext
         set_changeIndex] in *.
    injection Hi as <-. rewrite length_app. cbn [length]. lia.
  - discriminate Hi.
Qed.


(** X23.  On a transaction whose memoized totals are current and whose
    change index, if defined, comes with a change script: right after a
    public mutation that returns ([to] with an empty list apart),
    [getChangeOutput()] is [null] exactly when no change index is set;
    otherwise it is an output, the last one, which carries the change
    script and has a positive amount. *)
Theorem change_is_last (m : Mutation) (t t' : Transaction) :
  cachesConsistent t = true -> changeNeedsScript t ->
  emptyCall m = false ->
  call m t = Ok (tt, t') ->
  match getChangeOutput t' with
  | NotNull (Some o) =>
      last (outputs t') = Some o
      /\ _changeScript t' = Some (script o)
      /\ 0 < satoshis o
  | NotNull None => False
  | Null => _changeIndex t' = None
  end.
Proof.
  intros Hc Hn Hne Hrun.
  destruct (call_keeps m t t' Hc Hn Hne Hrun) as (Hm & _ & Ht).
  destruct (call_establishes changeLast updateChangeOutput_last
              m t t' Hc Hn Hne Hrun) as (Hlast & _).
  unfold getChangeOutput.
  destruct (_changeIndex t') as [i|] eqn:Hi; [|reflexivity].
  destruct (Ht i Hi) as (o & Ho & Hcs). rewrite Ho.
  specialize (Hlast i Hi).
  split; [|split; [exact Hcs|]].
  - apply js_index_Some in Ho as [_ Ho]. rewrite last_lookup.
    rewrite <- Ho. f_equal. lia.
  - unfold changeInvariant in Hm. rewrite Hcs in Hm.
    destruct Hm as (fee' & _ & _ & _ & Hm).
    destruct (0 <? inputTotal t' - outputTotal (withoutChange t') - fee')
      eqn:Hpos; [|congruence].
    destruct Hm as (i' & o' & Hi' & Ho' & _ & Hamount).
    rewrite Hi in Hi'. injection Hi' as <-. rewrite Ho in Ho'.
    injection Ho' as <-. apply Z.ltb_lt in Hpos. lia.
Qed.

End ChangePosition.

(** X23, on an example: [change] on one million in and a payment of
    700,000. *)
Lemma change_is_last_witness :
  exists t t' o,
    exec (addOutput (Demo.payment 2 700000)) Demo.funded = Ok t
    /\ cachesConsistent t = true /\ changeNeedsScript t
    /\ call (Call_change (Some "b"%string)) t = Ok (tt, t')
    /\ getChangeOutput t' = NotNull (Some o)
    /\ last (outputs t') = Some o
    /\ _changeScript t' = Some (script o)
    /\ 0 < satoshis o.
Proof.
  eexists. eexists. eexists. split; [vm_compute; reflexivity|].
  match goal with
  | |- _ /\ changeNeedsScript ?t /\ _ =>
      set (T := t);
      assert (Hn : changeNeedsScript T) by (intros i Hi; discriminate)
  end.
  split; [reflexivity|]. split; [exact Hn|].
  split; [vm_compute; reflexivity|]. split; [vm_compute; reflexivity|].
  match goal with
  | |- last (outputs ?t') = _ /\ _ =>
      exact (change_is_last (Call_change (Some "b"%string)) T t'
               eq_refl Hn eq_refl eq_refl)
  end.
Defined.

(** * What a reconstructed transaction satisfies *)

Section ReconstructionProperties.

Context `{Collaborators}.

Lemma checkConsistency_checks (arg : FromObjectArg) (t t' : Transaction) :
  _checkConsistency arg t = Ok (tt, t') ->
  (forall i, _changeIndex t = Some i ->
     exists out cs,
       js_index (outputs t) i = Some out
       /\ _changeScript t = Some cs
       /\ Script_toString (script out) = Script_toString cs)
  /\ (forall h, arg_hash arg = Ok (Some h) -> truthy h = true ->
        hash t = Ok h).
Proof.
  intros Hrun. unfold _checkConsistency in Hrun.
  apply bind_Ok in Hrun as (ci & s0 & Hci & Hrun).
  apply gets_Ok in Hci as [-> ->].
  apply bind_Ok in Hrun as ([] & s & H1 & H2).
  assert (Hfirst :
    s = t
    /\ forall i, _changeIndex t = Some i ->
         exists out cs,
           js_index (outputs t) i = Some out
           /\ _changeScript t = Some cs
           /\ Script_toString (script out) = Script_toString cs).
  { destruct (_changeIndex t) as [i|];
      [|inversion H1; split; [done|intros; discriminate]].
    apply bind_Ok in H1 as (cs & s1 & Hcs & H1).
    apply gets_Ok in Hcs as [-> ->].
    apply bind_Ok in H1 as ([] & s2 & Hc1 & H1). apply lift_Ok in Hc1 as ->.
    apply bind_Ok in H1 as (outs & s3 & Ho & H1).
    apply gets_Ok in Ho as [-> ->].
    apply bind_Ok in H1 as ([] & s4 & Hc2 & H1). apply lift_Ok in Hc2 as ->.
    destruct (js_index (outputs t) i) as [out|] eqn:Hout; [|discriminate].
    destruct (_changeScript t) as [cs|] eqn:Hscript; [|discriminate].
    unfold lift, checkState in H1.
    destruct (truthy (String.eqb (Script_toString (script out))
                        (Script_toString cs))) eqn:E; [|discriminate].
    injection H1 as <-. split; [done|]. intros i' [= <-].
    exists out, cs. split; [exact Hout|]. split; [reflexivity|].
    by apply String.eqb_eq. }
  destruct Hfirst as [-> Hchange]. split; [exact Hchange|].
  intros h Hh Htr. rewrite Hh in H2.
  apply bind_Ok in H2 as (argHash & s & Ha & H2).
  unfold lift in Ha. injection Ha as <- <-.
  change (truthy (Some h)) with (truthy h) in H2. rewrite Htr in H2.
  apply bind_Ok in H2 as (this & s & Hg & H2). apply gets_Ok in Hg as [-> ->].
  apply bind_Ok in H2 as (h' & s & Hh' & H2).
  unfold lift in Hh'. destruct (hash t) as [h''|e]; [|discriminate].
  injection Hh' as -> ->.
  unfold lift, checkState in H2.
  destruct (truthy (String.eqb h h')) eqn:E; [|discriminate].
  f_equal. symmetry. by apply String.eqb_eq.
Qed.

(** X24.  A transaction that [fromObject] returns has the version and the
    lock time of the snapshot; its hash is the non-empty hash of the
    snapshot, if there is one; and if it has a change index, there is a
    change script and the output at that index has the same script text. *)
Theorem fromObject_checked (o : TransactionObject) (t' : Transaction) :
  Transaction_fromObject o = Ok t' ->
  version t' = to_version o
  /\ nLockTime t' = to_nLockTime o
  /\ (forall h, to_hash o = Some h -> truthy h = true -> hash t' = Ok h)
  /\ (forall i, _changeIndex t' = Some i ->
        exists out cs,
          js_index (outputs t') i = Some out
          /\ _changeScript t' = Some cs
          /\ Script_toString (script out) = Script_toString cs).
Proof.
  unfold Transaction_fromObject, exec. intros Hrun.
  destruct (fromObject (ArgObject o) blankTransaction) as [[[] t1]|e] eqn:Hfrom;
    [|discriminate].
  inversion Hrun; subst t1. clear Hrun.
  unfold fromObject in Hfrom.
  apply bind_Ok in Hfrom as (transaction & s0 & Harg & Hfrom).
  unfold lift in Harg. injection Harg as <- <-.
  apply bind_Ok in Hfrom as ([] & s1 & _ & Hfrom).
  apply bind_Ok in Hfrom as ([] & s2 & _ & Hfrom).
  apply bind_Ok in Hfrom as ([] & s3 & _ & Hfrom).
  apply bind_Ok in Hfrom as ([] & s4 & _ & Hfrom).
  apply bind_Ok in Hfrom as ([] & s5 & _ & Hfrom).
  apply bind_Ok in Hfrom as ([] & s6 & H6 & Hfrom).
  apply bind_Ok in Hfrom as ([] & s7 & H7 & Hfrom).
  destruct (checkConsistency_checks _ _ _ Hfrom) as [Hchange Hhash].
  apply checkConsistency_frame in Hfrom as ->.
  unfold modify in H6, H7. inversion H6; subst s6. inversion H7; subst s7.
  split; [reflexivity|]. split; [reflexivity|].
  split; [|exact Hchange].
  intros h Hh. apply Hhash. cbn [arg_hash]. by rewrite Hh.
Qed.

End ReconstructionProperties.

(** X24, on an example: the snapshot of a transaction with a tracked
    change output, which carries its hash. *)
Lemma fromObject_checked_witness :
  exists snapshot t',
    toObject Demo.withChange = Ok snapshot
    /\ Transaction_fromObject snapshot = Ok t'
    /\ version t' = to_version snapshot
    /\ nLockTime t' = to_nLockTime snapshot
    /\ (forall h, to_hash snapshot = Some h ->
                  truthy h = true -> hash t' = Ok h)
    /\ (forall i, _changeIndex t' = Some i ->
          exists out cs,
            js_index (outputs t') i = Some out
            /\ _changeScript t' = Some cs
            /\ Script_toString (script out) = Script_toString cs).
Proof.
  eexists. eexists. split; [vm_compute; reflexivity|].
  split; [vm_compute; reflexivity|].
  match goal with
  | |- version _ = to_version ?o /\ _ => apply (fromObject_checked o)
  end.
  vm_compute. reflexivity.
Defined.

(** * The memoized totals *)

Section MemoizedTotals.

Context `{Collaborators}.

Lemma inputAmount_loop_raises
  (front : list Input) (missing : Input) (rest : list Input) (acc : Z)
  (s : Transaction) :
  _inputAmount s = Some acc ->
  Forall (fun i => is_Some (output i)) front -> output missing = None ->
  forEach (fun input =>
    match output input with
    | None => throw MissingPreviousOutput
    | Some o =>
        modify (fun t =>
          set_inputAmount (Some (default 0 (_inputAmount t) + satoshis o)) t)
    end) (front ++ missing :: rest) s
  = Throw MissingPreviousOutput
  /\ after
       (forEach (fun input =>
          match output input with
          | None => throw MissingPreviousOutput
          | Some o =>
              modify (fun t =>
                set_inputAmount
                  (Some (default 0 (_inputAmount t) + satoshis o)) t)
          end) (front ++ missing :: rest)) s
     = set_inputAmount
         (Some (acc + sumZ (fun i => match output i with
                                     | Some o => satoshis o
                                     | None => 0
                                     end) front)) s.
Proof.
  intros Hs Hfront Hmissing. revert acc s Hs.
  induction Hfront as [|i front [o Ho] _ IH]; intros acc s Hs.
  - cbn [app forEach]. rewrite run_bind, after_bind, Hmissing, run_throw.
    split; [done|]. unfold sumZ. cbn [foldr throw after].
    rewrite Z.add_0_r, <- Hs. by destruct s.
  - cbn [app forEach]. rewrite run_bind, after_bind, Ho, run_modify.
    destruct (IH (acc + satoshis o)
                (set_inputAmount
                   (Some (default 0 (_inputAmount s) + satoshis o)) s))
      as [Hrun Hafter].
    { cbn [_inputAmount set_inputAmount]. by rewrite Hs. }
    split; [exact Hrun|]. rewrite Hafter, set_inputAmount_twice.
    unfold sumZ. cbn [foldr]. rewrite Ho. do 2 f_equal. lia.
Qed.

(** X25.  Reading [inputAmount] when no total is memoized.  When every
    input carries its spent output, the read returns the total of their
    amounts and memoizes it.  Otherwise it raises [MissingPreviousOutput]
    and leaves memoized the total of the inputs in front of the first one
    that lacks its spent output: the next read returns that partial total
    and does not raise. *)
Theorem inputAmount_read (t : Transaction) :
  _inputAmount t = None ->
  (allUtxoInfo t = true ->
   _getInputAmount t
   = Ok (inputTotal t, set_inputAmount (Some (inputTotal t)) t))
  /\ (forall front missing rest,
        inputs t = front ++ missing :: rest ->
        Forall (fun i => is_Some (output i)) front ->
        output missing = None ->
        _getInputAmount t = Throw MissingPreviousOutput
        /\ after _getInputAmount t
           = set_inputAmount
               (Some (sumZ (fun i => match output i with
                                     | Some o => satoshis o
                                     | None => 0
                                     end) front)) t
        /\ eval _getInputAmount (after _getInputAmount t)
           = Ok (sumZ (fun i => match output i with
                                | Some o => satoshis o
                                | None => 0
                                end) front)).
Proof.
  intros Hnone. split.
  - intros Hall. rewrite run_getInputAmount, Hnone.
    unfold allUtxoInfo in Hall. rewrite (sumInputAmounts_total _ 0 Hall).
    unfold inputTotal. by rewrite Z.add_0_l.
  - intros front missing rest Hins Hfront Hmissing.
    destruct (inputAmount_loop_raises front missing rest 0
                (set_inputAmount (Some 0) t) eq_refl Hfront Hmissing)
      as [Hrun Hafter].
    rewrite Z.add_0_l, set_inputAmount_twice in Hafter.
    assert (Hstate : after _getInputAmount t
                     = set_inputAmount
                         (Some (sumZ (fun i => match output i with
                                               | Some o => satoshis o
                                               | None => 0
                                               end) front)) t).
    { unfold _getInputAmount.
      rewrite after_bind, run_gets, Hnone.
      rewrite after_bind, run_modify.
      rewrite after_bind, run_gets. cbn [inputs set_inputAmount].
      rewrite after_bind, Hins, Hrun. exact Hafter. }
    split; [|split; [exact Hstate|]].
    + unfold _getInputAmount.
      rewrite run_bind, run_gets, Hnone.
      rewrite run_bind, run_modify.
      rewrite run_bind, run_gets. cbn [inputs set_inputAmount].
      by rewrite run_bind, Hins, Hrun.
    + rewrite Hstate. unfold eval. by rewrite run_getInputAmount.
Qed.

End MemoizedTotals.

(** X25, on an example: a funded input of 1,000,000 in front of an input
    that lacks its spent output. *)
Lemma inputAmount_read_witness :
  _inputAmount Demo.missingUtxoInfo = None
  /\ _getInputAmount Demo.missingUtxoInfo = Throw MissingPreviousOutput
  /\ after _getInputAmount Demo.missingUtxoInfo
     = set_inputAmount (Some 1000000) Demo.missingUtxoInfo
  /\ eval _getInputAmount (after _getInputAmount Demo.missingUtxoInfo)
     = Ok 1000000.
Proof.
  split; [reflexivity|].
  destruct (proj2 (inputAmount_read Demo.missingUtxoInfo eq_refl)
              [Demo.fundedInput 0 Demo.txid1 1000000]
              (Demo.bareInput 7 Demo.txid2) [] eq_refl)
    as (Hrun & Hafter & Hnext).
  - repeat constructor. eexists. reflexivity.
  - reflexivity.
  - split; [exact Hrun|]. split; [exact Hafter|exact Hnext].
Defined.

(** X26, on an example. *)
Lemma shallowCopy_keeps_encoding_only_witness :
  Forall readsBackInput (inputs DemoMore.decoded)
  /\ Forall readsBackOutput (outputs DemoMore.decoded)
  /\ exists t',
       shallowCopy DemoMore.decoded = Ok t'
       /\ toBuffer t' = toBuffer DemoMore.decoded
       /\ hash t' = hash DemoMore.decoded
       /\ _changeScript t' = None /\ _changeIndex t' = None
       /\ _fee t' = None /\ _feePerKb t' = None
       /\ _inputAmount t' = None /\ _outputAmount t' = None.
Proof.
  assert (Hins : Forall readsBackInput (inputs DemoMore.decoded)).
  { repeat constructor; intros encoding r Henc; vm_compute in Henc;
      injection Henc as <-; eexists;
      (split; [reflexivity|intros n; reflexivity]). }
  assert (Houts : Forall readsBackOutput (outputs DemoMore.decoded)).
  { repeat constructor; intros encoding r Henc; vm_compute in Henc;
      injection Henc as <-; eexists;
      (split; [reflexivity|intros n; reflexivity]). }
  split; [exact Hins|]. split; [exact Houts|].
  pose proof (shallowCopy_keeps_encoding_only DemoMore.decoded) as Hcopy.
  destruct (toBuffer DemoMore.decoded) as [encoding|e] eqn:Henc;
    [|vm_compute in Henc; discriminate].
  apply Hcopy.
  - intros v Hv. vm_compute in Hv. injection Hv as <-.
    split; [discriminate|]. intros r. reflexivity.
  - intros n r [-> | ->]; reflexivity.
  - exact Hins.
  - exact Houts.
  - intros l Hl. vm_compute in Hl. injection Hl as <-. reflexivity.
Defined.

(** * Signatures under mutation *)

Section SignaturesUnderMutation.

Context `{Collaborators}.

Lemma updateChangeOutput_clears (s t' : Transaction) :
  cachesConsistent s = true ->
  changeNeedsScript s ->
  _updateChangeOutput s = Ok (tt, t') ->
  is_Some (_changeScript t') ->
  Forall (fun i => signatures i = []) (inputs t').
Proof.
  intros Hc _ Hrun Hcs.
  pose proof (updateChangeOutput_effect s t' Hc Hrun) as Heff.
  destruct (_changeScript s) as [cs|] eqn:Hs.
  - destruct Heff as [-> _]. apply Forall_forall. intros i Hi.
    apply (list_elem_of_fmap (set_input_signatures [])) in Hi
      as (j & -> & _).
    reflexivity.
  - subst t'. rewrite Hs in Hcs. by destruct Hcs.
Qed.

(** X27.  With a change script configured, every public mutation that
    returns leaves every input without signatures: whatever was signed
    before has to be signed again. *)
Theorem mutation_clears_signatures (m : Mutation) (t t' : Transaction) :
  cachesConsistent t = true -> changeTracked t ->
  emptyCall m = false ->
  call m t = Ok (tt, t') ->
  is_Some (_changeScript t') ->
  Forall (fun i => signatures i = []) (inputs t').
Proof.
  intros Hc Ht Hne Hrun.
  exact (proj1 (call_establishes
                  (fun t' => is_Some (_changeScript t')
                             -> Forall (fun i => signatures i = [])
                                  (inputs t'))
                  updateChangeOutput_clears m t t' Hc
                  (changeTracked_needsScript t Ht) Hne Hrun)).
Qed.

End SignaturesUnderMutation.

(** X27, on an example: a signed transaction is given a change address. *)
Lemma mutation_clears_signatures_witness :
  cachesConsistent Demo.signedNoChange = true
  /\ changeTracked Demo.signedNoChange
  /\ exists t',
       call (Call_change (Some "b"%string)) Demo.signedNoChange = Ok (tt, t')
       /\ is_Some (_changeScript t')
       /\ Forall (fun i => signatures i = []) (inputs t').
Proof.
  assert (Ht : changeTracked Demo.signedNoChange).
  { intros i Hi. discriminate Hi. }
  split; [reflexivity|]. split; [exact Ht|].
  eexists. split; [vm_compute; reflexivity|].
  assert (Hcs : is_Some
                  (Some [x76; xa9; x14; x62; x88; xac] : option Script))
    by eauto.
  split; [exact Hcs|].
  apply (mutation_clears_signatures (Call_change (Some "b"%string))
           Demo.signedNoChange);
    [reflexivity|exact Ht|reflexivity|vm_compute; reflexivity|exact Hcs].
Defined.
